(** * flakehunt: execution loop, aggregation and classification

    A shallow embedding of the Go packages [internal/model],
    [internal/classify], [internal/runner] and of the [Parse] functions of the
    two adapters ([internal/adapters/cypress], [internal/adapters/jest]),
    followed by the properties of the specification that concern them.

    Conventions of the embedding:
    - Go [int], [int64] and [time.Duration] are 64-bit two's complement
      integers: they are values of [Z] and every [+] and [++] of the source is
      followed by [wrap64];
    - Go [float64] is Rocq's primitive binary64 float;
    - Go [string] is a sequence of bytes: [string] of the Standard Library,
      compared byte-wise ([String.ltb]);
    - Go maps are [gmap]s; the iteration order of a Go map is unspecified, and
      the statements below do not depend on the order [map_to_list] picks;
    - [sort.Slice] and [sort.Strings] are the library's unstable sorts: they
      are modelled by an insertion sort and the statements below hold for any
      sorted rearrangement. *)

From Stdlib Require Import ZArith Lia Bool List Ascii String.
From Stdlib Require Import Floats Uint63.
From Stdlib Require Import Sorting.Sorted Sorting.Permutation.
From stdpp Require Import base option list sorting gmap strings fin_maps.

Local Open Scope Z_scope.

(* ===================================================================== *)
(** ** Go machine integers *)
(* ===================================================================== *)

Module GoInt.

Definition min_int64 : Z := - 2 ^ 63.
Definition max_int64 : Z := 2 ^ 63 - 1.

(** Two's complement wrap-around of a 64-bit signed integer. *)
Definition wrap64 (z : Z) : Z := (z + 2 ^ 63) mod 2 ^ 64 - 2 ^ 63.

Definition in_int64 (z : Z) : Prop := min_int64 <= z <= max_int64.

(** [a + b] and [a++] on [int], [int64], [time.Duration]. *)
Definition add (a b : Z) : Z := wrap64 (a + b).
Definition incr (a : Z) : Z := wrap64 (a + 1).

(** [a / b] on integers truncates toward zero; [b] is never [0] nor [-1]
    where the source divides. *)
Definition div (a b : Z) : Z := wrap64 (Z.quot a b).

End GoInt.

Example wrap64_max : GoInt.incr GoInt.max_int64 = GoInt.min_int64.
Proof. reflexivity. Qed.

(* ===================================================================== *)
(** ** Go float64 *)
(* ===================================================================== *)

Module GoFloat.

(** [float64(n)] for an [int]/[int64] value [n]: round to nearest even. *)
Definition of_int (z : Z) : float :=
  if z =? GoInt.min_int64 then (-9223372036854775808)%float
  else if z <? 0 then (- of_uint63 (Uint63.of_Z (- z)))%float
  else of_uint63 (Uint63.of_Z z).

(** The integer part of a finite float (truncation toward zero). *)
Definition trunc_SF (f : spec_float) : option Z :=
  match f with
  | S754_zero _ => Some 0
  | S754_finite s m e =>
      let mag := if 0 <=? e then Z.pos m * 2 ^ e else Z.pos m / 2 ^ (- e) in
      Some (if s then - mag else mag)
  | S754_infinity _ | S754_nan => None
  end.

(** [int64(f)] and [time.Duration(f)]: truncation toward zero.  When the
    value does not fit (or is not a number) Go leaves the result to the
    implementation; amd64 yields the smallest [int64], which is what is
    modelled. *)
Definition to_int64 (f : float) : Z :=
  match trunc_SF (Prim2SF f) with
  | Some v => if (GoInt.min_int64 <=? v) && (v <=? GoInt.max_int64) then v
              else GoInt.min_int64
  | None => GoInt.min_int64
  end.

(** [a != b] and [a > b] on [float64]. *)
Definition neq (a b : float) : bool := negb (a =? b)%float.
Definition gt (a b : float) : bool := (b <? a)%float.

(** A float that compares with every number (not a NaN). *)
Definition is_number (a : float) : Prop := Prim2SF a <> S754_nan.

End GoFloat.

Example of_int_third :
  GoFloat.to_int64 (GoFloat.of_int 1 / GoFloat.of_int 3 * GoFloat.of_int 100)%float = 33.
Proof. vm_compute. reflexivity. Qed.

(* ===================================================================== *)
(** ** Go strings: package [strings] and [fmt] *)
(* ===================================================================== *)

Module GoStrings.

Local Open Scope string_scope.

Definition byte_in (lo hi : N) (c : ascii) : bool :=
  (lo <=? N_of_ascii c)%N && (N_of_ascii c <=? hi)%N.

Definition is_byte (n : N) (c : ascii) : bool := (N_of_ascii c =? n)%N.

(** [s1 < s2] on Go strings is the byte-wise lexicographic order. *)
Definition lt (s1 s2 : string) : bool := String.ltb s1 s2.

(** ASCII lower case of a byte. *)
Definition to_lower (c : ascii) : ascii :=
  if byte_in 65 90 c then ascii_of_N (N_of_ascii c + 32) else c.

(** When [s] starts with a rune of [unicode.IsSpace], what follows that rune.
    The runes are the ASCII ones, U+0085, U+00A0, U+1680, U+2000..U+200A,
    U+2028, U+2029, U+202F, U+205F and U+3000, in their UTF-8 encoding. *)
Definition skip_space (s : string) : option string :=
  match s with
  | String c s1 =>
      if byte_in 9 13 c || is_byte 32 c then Some s1
      else match s1 with
      | String c1 s2 =>
          if is_byte 194 c && (is_byte 133 c1 || is_byte 160 c1) then Some s2
          else match s2 with
          | String c2 s3 =>
              if is_byte 225 c && is_byte 154 c1 && is_byte 128 c2 then Some s3
              else if is_byte 226 c && is_byte 128 c1 &&
                      (byte_in 128 138 c2 || is_byte 168 c2 || is_byte 169 c2
                       || is_byte 175 c2) then Some s3
              else if is_byte 226 c && is_byte 129 c1 && is_byte 159 c2 then Some s3
              else if is_byte 227 c && is_byte 128 c1 && is_byte 128 c2 then Some s3
              else None
          | EmptyString => None
          end
      | EmptyString => None
      end
  | EmptyString => None
  end.

(** [strings.Fields]: the maximal runs of non-space runes.  [cur] is the
    field being read, in reverse; [fuel] bounds the bytes left to read. *)
Fixpoint fields_aux (fuel : nat) (cur : string) (s : string) : list string :=
  let flush := if (cur =? "")%string then [] else [String.rev cur] in
  match fuel with
  | O => flush
  | S fuel' =>
      match skip_space s with
      | Some rest => flush ++ fields_aux fuel' "" rest
      | None =>
          match s with
          | EmptyString => flush
          | String c rest => fields_aux fuel' (String c cur) rest
          end
      end
  end.

Definition Fields (s : string) : list string :=
  fields_aux (S (String.length s)) "" s.

(** [strings.Join]. *)
Definition Join (l : list string) (sep : string) : string := String.concat sep l.

(** [strings.TrimSpace]. *)
Fixpoint trim_left (fuel : nat) (s : string) : string :=
  match fuel with
  | O => s
  | S fuel' => match skip_space s with
               | Some rest => trim_left fuel' rest
               | None => s
               end
  end.

(** The space runes read backwards: their encodings reversed. *)
Definition skip_space_rev (s : string) : option string :=
  match s with
  | String c s1 =>
      if byte_in 9 13 c || is_byte 32 c then Some s1
      else match s1 with
      | String c1 s2 =>
          if is_byte 194 c1 && (is_byte 133 c || is_byte 160 c) then Some s2
          else match s2 with
          | String c2 s3 =>
              if is_byte 225 c2 && is_byte 154 c1 && is_byte 128 c then Some s3
              else if is_byte 226 c2 && is_byte 128 c1 &&
                      (byte_in 128 138 c || is_byte 168 c || is_byte 169 c
                       || is_byte 175 c) then Some s3
              else if is_byte 226 c2 && is_byte 129 c1 && is_byte 159 c then Some s3
              else if is_byte 227 c2 && is_byte 128 c1 && is_byte 128 c then Some s3
              else None
          | EmptyString => None
          end
      | EmptyString => None
      end
  | EmptyString => None
  end.

Fixpoint trim_left_rev (fuel : nat) (s : string) : string :=
  match fuel with
  | O => s
  | S fuel' => match skip_space_rev s with
               | Some rest => trim_left_rev fuel' rest
               | None => s
               end
  end.

Definition TrimSpace (s : string) : string :=
  let s1 := trim_left (String.length s) s in
  String.rev (trim_left_rev (String.length s1) (String.rev s1)).

(** [s[:n]] for [n <= len(s)]. *)
Definition prefix (n : nat) (s : string) : string := String.substring 0 n s.

(** [len(s)]. *)
Definition len (s : string) : Z := Z.of_nat (String.length s).

(** Decimal digits of a natural number, most significant first. *)
Fixpoint digits_aux (fuel : nat) (n : N) (acc : string) : string :=
  match fuel with
  | O => acc
  | S fuel' =>
      let acc' := String (ascii_of_N (48 + n mod 10)) acc in
      if (n / 10 =? 0)%N then acc' else digits_aux fuel' (n / 10)%N acc'
  end.

Definition digits (n : N) : string := digits_aux (S (N.to_nat (N.log2 n))) n "".

Fixpoint zeros (k : nat) : string :=
  match k with O => "" | S k' => String "0" (zeros k') end.

(** [fmt.Sprintf("%d", z)]. *)
Definition format_d (z : Z) : string :=
  if (z <? 0)%Z then String "-" (digits (Z.to_N (- z))) else digits (Z.to_N z).

(** [fmt.Sprintf("%03d", z)]: at least three characters, padded with zeros
    after the sign. *)
Definition format_03d (z : Z) : string :=
  if (z <? 0)%Z then
    let d := digits (Z.to_N (- z)) in
    String "-" (zeros (2 - String.length d) ++ d)
  else
    let d := digits (Z.to_N z) in zeros (3 - String.length d) ++ d.

End GoStrings.

Example Fields_ex :
  GoStrings.Fields "  Error  with   multiple    spaces "%string
  = ["Error"; "with"; "multiple"; "spaces"]%string.
Proof. reflexivity. Qed.

Example TrimSpace_ex : GoStrings.TrimSpace "  a b  "%string = "a b"%string.
Proof. reflexivity. Qed.

Example format_03d_ex :
  map GoStrings.format_03d [1; 42; 999; 1000; 0]
  = ["001"; "042"; "999"; "1000"; "000"]%string.
Proof. reflexivity. Qed.

Example format_d_ex : map GoStrings.format_d [0; 7; 120; -35] = ["0"; "7"; "120"; "-35"]%string.
Proof. reflexivity. Qed.

(* ===================================================================== *)
(** ** Package [sort] *)
(* ===================================================================== *)

Module GoSort.

Section Slice.
Context {A : Type} (less : A -> A -> bool).

(** One step of the insertion sort of package [sort]: the new element moves
    left past every element it is [less] than. *)
Fixpoint insert (x : A) (l : list A) : list A :=
  match l with
  | [] => [x]
  | y :: l' => if less x y then x :: y :: l' else y :: insert x l'
  end.

(** [sort.Slice(l, less)]. *)
Definition Slice (l : list A) : list A :=
  fold_left (fun acc x => insert x acc) l [].

(** What [sort.Slice] promises of its result [l']: it rearranges [l] and no
    element is [less] than the one before it. *)
Definition is_sorting_of (l l' : list A) : Prop :=
  Permutation l l' /\ Sorted (fun a b => less b a = false) l'.

End Slice.

(** [sort.Strings]. *)
Definition Strings (l : list string) : list string := Slice GoStrings.lt l.

End GoSort.

Example Strings_ex :
  GoSort.Strings ["b"; "a"; "c"; "a"]%string = ["a"; "a"; "b"; "c"]%string.
Proof. reflexivity. Qed.

(* ===================================================================== *)
(** ** Package [model] *)
(* ===================================================================== *)

Module model.

Inductive Outcome := OutcomePass | OutcomeFail | OutcomeSkip.

Inductive Classification :=
| ClassificationFlaky
| ClassificationStable
| ClassificationDeterministicFail.

Inductive FailureSignature :=
| SignatureTimeout
| SignatureSelector
| SignatureNetwork
| SignatureDOMDetach
| SignatureAssertion
| SignatureUnknown.

(** The three types are Go string types; these are the declared constants. *)
Definition Outcome_string (o : Outcome) : string :=
  match o with
  | OutcomePass => "pass" | OutcomeFail => "fail" | OutcomeSkip => "skip"
  end.

Definition Classification_string (c : Classification) : string :=
  match c with
  | ClassificationFlaky => "flaky"
  | ClassificationStable => "stable"
  | ClassificationDeterministicFail => "deterministic_fail"
  end.

Definition FailureSignature_string (s : FailureSignature) : string :=
  match s with
  | SignatureTimeout => "TIMEOUT"
  | SignatureSelector => "SELECTOR"
  | SignatureNetwork => "NETWORK"
  | SignatureDOMDetach => "DOM_DETACH"
  | SignatureAssertion => "ASSERTION"
  | SignatureUnknown => "UNKNOWN"
  end.

#[export] Instance Outcome_eq_dec : EqDecision Outcome.
Proof. solve_decision. Defined.
#[export] Instance Classification_eq_dec : EqDecision Classification.
Proof. solve_decision. Defined.
#[export] Instance FailureSignature_eq_dec : EqDecision FailureSignature.
Proof. solve_decision. Defined.

Module TestResult.
Record t := mk {
  TestID : string;
  Outcome : model.Outcome;
  Duration : Z;                (* time.Duration, nanoseconds *)
  FailureMessage : string;
}.
End TestResult.

Module RunResult.
Record t := mk {
  RunIndex : Z;
  Tests : list TestResult.t;
  Error : string;
}.
End RunResult.

Module FailureEvidence.
Record t := mk {
  RunIndex : Z;
  Excerpt : string;
  Signature : FailureSignature;
}.
End FailureEvidence.

Module AggregatedTest.
Record t := mk {
  TestID : string;
  PassCount : Z;
  FailCount : Z;
  SkipCount : Z;
  TotalRuns : Z;
  AvgDuration : Z;             (* time.Duration *)
  Classification : model.Classification;
  FlakeRate : float;
  WastedTime : Z;              (* time.Duration *)
  FailureEvidence : list FailureEvidence.t;
}.
End AggregatedTest.

End model.
Export model.

(* ===================================================================== *)
(** ** Package [regexp], as far as the patterns of [classify] go *)
(* ===================================================================== *)

Module regexp.

Local Open Scope string_scope.

(** The constructs the patterns use.  Every pattern is compiled with the
    flag [(?i)], so that a literal matches without regard to case. *)
Inductive atom :=
| Lit (c : ascii)        (* a literal byte, [\.] included *)
| Opt (c : ascii)        (* [c?] *)
| Spaces                 (* [\s*] *)
| WordBoundary.          (* [\b] *)

Definition Regexp := list atom.

(** [\s] is [[\t\n\f\r ]]. *)
Definition is_space (c : ascii) : bool :=
  GoStrings.is_byte 9 c || GoStrings.is_byte 10 c || GoStrings.is_byte 12 c
  || GoStrings.is_byte 13 c || GoStrings.is_byte 32 c.

(** [\w] is [[0-9A-Za-z_]]; [\b] is an ASCII word boundary. *)
Definition is_word (c : ascii) : bool :=
  GoStrings.byte_in 48 57 c || GoStrings.byte_in 65 90 c
  || GoStrings.byte_in 97 122 c || GoStrings.is_byte 95 c.

Definition is_word_opt (c : option ascii) : bool :=
  match c with Some c => is_word c | None => false end.

Definition next_byte (s : string) : option ascii :=
  match s with String c _ => Some c | EmptyString => None end.

(** A literal under [(?i)]: the byte itself in either case and, for [k] and
    [s], the two other runes of their case-folding orbits, U+212A (KELVIN
    SIGN, bytes E2 84 AA) and U+017F (LONG S, bytes C5 BF).  The result is
    the last byte read and what follows. *)
Definition eat_lit (c : ascii) (s : string) : option (ascii * string) :=
  match s with
  | String b s1 =>
      if Ascii.eqb (GoStrings.to_lower b) (GoStrings.to_lower c) then Some (b, s1)
      else match s1 with
      | String b1 s2 =>
          if Ascii.eqb (GoStrings.to_lower c) "s" && GoStrings.is_byte 197 b
             && GoStrings.is_byte 191 b1 then Some (b1, s2)
          else match s2 with
          | String b2 s3 =>
              if Ascii.eqb (GoStrings.to_lower c) "k" && GoStrings.is_byte 226 b
                 && GoStrings.is_byte 132 b1 && GoStrings.is_byte 170 b2
              then Some (b2, s3)
              else None
          | EmptyString => None
          end
      | EmptyString => None
      end
  | EmptyString => None
  end.

(** Does the pattern match a prefix of [s], the byte before [s] being
    [prev]?  Backtracking over [c?] and [\s*]. *)
Fixpoint match_here (re : Regexp) (prev : option ascii) (s : string) : bool :=
  match re with
  | [] => true
  | Lit c :: re' =>
      match eat_lit c s with
      | Some (b, rest) => match_here re' (Some b) rest
      | None => false
      end
  | Opt c :: re' =>
      match eat_lit c s with
      | Some (b, rest) => match_here re' (Some b) rest || match_here re' prev s
      | None => match_here re' prev s
      end
  | Spaces :: re' =>
      (fix skip (prev : option ascii) (s : string) : bool :=
         match_here re' prev s ||
         match s with
         | String c rest => is_space c && skip (Some c) rest
         | EmptyString => false
         end) prev s
  | WordBoundary :: re' =>
      xorb (is_word_opt prev) (is_word_opt (next_byte s)) && match_here re' prev s
  end.

Fixpoint search (re : Regexp) (prev : option ascii) (s : string) : bool :=
  match_here re prev s ||
  match s with
  | String c rest => search re (Some c) rest
  | EmptyString => false
  end.

(** [re.MatchString(s)]: the pattern matches somewhere in [s]. *)
Definition MatchString (re : Regexp) (s : string) : bool := search re None s.

(** The literal text [w] as a pattern. *)
Fixpoint lits (w : string) : Regexp :=
  match w with
  | EmptyString => []
  | String c w' => Lit c :: lits w'
  end.

End regexp.

Example MatchString_timed_out :
  map (regexp.MatchString
         (regexp.lits "time" ++ [regexp.Opt "d"; regexp.Spaces] ++ regexp.lits "out"))
      ["Request timed out"; "TIME   OUT"; "timeout"; "time d out"; "timer out"]%string
  = [true; true; true; false; false].
Proof. reflexivity. Qed.

Example MatchString_word_boundary :
  map (regexp.MatchString ([regexp.WordBoundary] ++ regexp.lits "toBe" ++ [regexp.WordBoundary]))
      ["value toBe 5"; ".toBe("; "toBeNull"; "notobe"]%string
  = [true; true; false; false].
Proof. reflexivity. Qed.

(* ===================================================================== *)
(** ** Package [classify] *)
(* ===================================================================== *)

Module classify.

Import regexp.
Local Open Scope string_scope.

Definition maxExcerptLen : Z := 200.

(** The rules, in the order of the source; each pattern carries [(?i)]. *)
Definition signaturePatterns : list (FailureSignature * list Regexp) :=
  [ (SignatureTimeout,
     [ lits "timeout";
       lits "time" ++ [Opt "d"; Spaces] ++ lits "out";
       lits "exceeded" ++ [Spaces] ++ lits "time" ]);
    (SignatureSelector,
     [ lits "selector";
       lits "element" ++ [Spaces] ++ lits "not" ++ [Spaces] ++ lits "found";
       lits "cy.get" ]);
    (SignatureNetwork,
     [ lits "network";
       lits "ECONNREFUSED";
       lits "fetch" ++ [Spaces] ++ lits "failed" ]);
    (SignatureDOMDetach,
     [ lits "detached";
       lits "stale" ++ [Spaces] ++ lits "element" ]);
    (SignatureAssertion,
     [ [WordBoundary] ++ lits "expect" ++ [WordBoundary];
       [WordBoundary] ++ lits "assert";
       [WordBoundary] ++ lits "toBe" ++ [WordBoundary];
       [WordBoundary] ++ lits "toEqual" ++ [WordBoundary] ]) ]%list.

(** The inner loop of [DetectSignature]: [for _, pattern := range sp.patterns]. *)
Fixpoint any_pattern (patterns : list Regexp) (failureMessage : string) : bool :=
  match patterns with
  | [] => false
  | pattern :: rest =>
      if MatchString pattern failureMessage then true
      else any_pattern rest failureMessage
  end.

(** The outer loop: [for _, sp := range signaturePatterns]. *)
Fixpoint detect_in (rules : list (FailureSignature * list Regexp))
    (failureMessage : string) : FailureSignature :=
  match rules with
  | [] => SignatureUnknown
  | (signature, patterns) :: rest =>
      if any_pattern patterns failureMessage then signature
      else detect_in rest failureMessage
  end.

Definition DetectSignature (failureMessage : string) : FailureSignature :=
  if (failureMessage =? "")%string then SignatureUnknown
  else detect_in signaturePatterns failureMessage.

Definition truncateExcerpt (s : string) : string :=
  let s := GoStrings.Join (GoStrings.Fields s) " " in
  if (GoStrings.len s <=? maxExcerptLen)%Z then s
  else GoStrings.prefix (Z.to_nat (maxExcerptLen - 3)) s ++ "...".

Record testAggregator := mkAgg {
  testID : string;
  passCount : Z;
  failCount : Z;
  skipCount : Z;
  totalDuration : Z;
  durationCount : Z;
  failureEvidence : list FailureEvidence.t;
}.

(** [classify]. *)
Definition classify (passCount failCount totalRuns : Z) : Classification :=
  if (totalRuns =? 0)%Z then ClassificationStable
  else if (1 <=? passCount)%Z && (1 <=? failCount)%Z then ClassificationFlaky
  else if (failCount =? totalRuns)%Z then ClassificationDeterministicFail
  else ClassificationStable.

(** The body of the inner loop of [Aggregate], for one test of one run. *)
Definition accumulate (runIndex : Z) (aggregators : gmap string testAggregator)
    (test : TestResult.t) : gmap string testAggregator :=
  let agg :=
    match aggregators !! TestResult.TestID test with
    | Some agg => agg
    | None => mkAgg (TestResult.TestID test) 0 0 0 0 0 []
    end in
  let agg :=
    match TestResult.Outcome test with
    | OutcomePass =>
        mkAgg (testID agg) (GoInt.incr (passCount agg)) (failCount agg) (skipCount agg)
              (GoInt.add (totalDuration agg) (TestResult.Duration test))
              (GoInt.incr (durationCount agg)) (failureEvidence agg)
    | OutcomeFail =>
        let evidence :=
          FailureEvidence.mk runIndex
            (truncateExcerpt (TestResult.FailureMessage test))
            (DetectSignature (TestResult.FailureMessage test)) in
        mkAgg (testID agg) (passCount agg) (GoInt.incr (failCount agg)) (skipCount agg)
              (GoInt.add (totalDuration agg) (TestResult.Duration test))
              (GoInt.incr (durationCount agg)) (failureEvidence agg ++ [evidence])
    | OutcomeSkip =>
        mkAgg (testID agg) (passCount agg) (failCount agg) (GoInt.incr (skipCount agg))
              (totalDuration agg) (durationCount agg) (failureEvidence agg)
    end in
  <[TestResult.TestID test := agg]> aggregators.

(** The two nested loops of [Aggregate]. *)
Definition accumulate_run (aggregators : gmap string testAggregator)
    (run : RunResult.t) : gmap string testAggregator :=
  fold_left (accumulate (RunResult.RunIndex run)) (RunResult.Tests run) aggregators.

Definition accumulate_runs (runs : list RunResult.t) : gmap string testAggregator :=
  fold_left accumulate_run runs ∅.

Definition buildAggregatedTest (agg : testAggregator) (numRuns : Z) : AggregatedTest.t :=
  let totalRuns := GoInt.add (passCount agg) (failCount agg) in
  let avgDuration :=
    if (0 <? durationCount agg)%Z
    then GoInt.div (totalDuration agg) (durationCount agg) else 0%Z in
  let classification := classify (passCount agg) (failCount agg) totalRuns in
  let flakeRate :=
    if (0 <? totalRuns)%Z
    then (GoFloat.of_int (failCount agg) / GoFloat.of_int totalRuns)%float
    else 0%float in
  let wastedTime :=
    if bool_decide (classification = ClassificationFlaky) && (0 <? totalRuns)%Z
    then GoFloat.to_int64
           (flakeRate * GoFloat.of_int avgDuration * GoFloat.of_int numRuns)%float
    else 0%Z in
  let sortedEvidence :=
    GoSort.Slice
      (fun a b => (FailureEvidence.RunIndex a <? FailureEvidence.RunIndex b)%Z)
      (failureEvidence agg) in
  AggregatedTest.mk (testID agg) (passCount agg) (failCount agg) (skipCount agg)
    totalRuns avgDuration classification flakeRate wastedTime sortedEvidence.

(** The comparison function of [sortAggregatedTests]. *)
Definition less (a b : AggregatedTest.t) : bool :=
  if negb (AggregatedTest.WastedTime a =? AggregatedTest.WastedTime b)%Z
  then (AggregatedTest.WastedTime b <? AggregatedTest.WastedTime a)%Z
  else if GoFloat.neq (AggregatedTest.FlakeRate a) (AggregatedTest.FlakeRate b)
  then GoFloat.gt (AggregatedTest.FlakeRate a) (AggregatedTest.FlakeRate b)
  else if negb (AggregatedTest.FailCount a =? AggregatedTest.FailCount b)%Z
  then (AggregatedTest.FailCount b <? AggregatedTest.FailCount a)%Z
  else GoStrings.lt (AggregatedTest.TestID a) (AggregatedTest.TestID b).

Definition sortAggregatedTests (tests : list AggregatedTest.t) : list AggregatedTest.t :=
  GoSort.Slice less tests.

(** [Aggregate], the aggregators being visited in the order [order] (Go
    leaves the order of [range] over a map unspecified). *)
Definition Aggregate_in_order (runs : list RunResult.t)
    (order : list testAggregator) : list AggregatedTest.t :=
  match runs with
  | [] => []
  | _ :: _ =>
      let results :=
        map (fun agg => buildAggregatedTest agg (Z.of_nat (length runs))) order in
      sortAggregatedTests results
  end.

Definition Aggregate (runs : list RunResult.t) : list AggregatedTest.t :=
  Aggregate_in_order runs (map snd (map_to_list (accumulate_runs runs))).

(** Every list the Go function may return for [runs]: the aggregators are
    visited in some order and [sort.Slice] returns some sorted rearrangement
    of the results. *)
Definition Aggregate_may_return (runs : list RunResult.t)
    (out : list AggregatedTest.t) : Prop :=
  match runs with
  | [] => out = []
  | _ :: _ =>
      exists order,
        Permutation order (map snd (map_to_list (accumulate_runs runs))) /\
        GoSort.is_sorting_of less
          (map (fun agg => buildAggregatedTest agg (Z.of_nat (length runs))) order) out
  end.

Definition FilterByClassification (tests : list AggregatedTest.t)
    (class : Classification) : list AggregatedTest.t :=
  List.filter (fun t => bool_decide (AggregatedTest.Classification t = class)) tests.

(** [summary[key]++] on a [map[string]int]: a missing key reads as [0]. *)
Definition bump (summary : gmap string Z) (key : string) : gmap string Z :=
  <[key := GoInt.incr (default 0%Z (summary !! key))]> summary.

Definition SignatureSummary (tests : list AggregatedTest.t) : gmap string Z :=
  fold_left
    (fun summary t =>
       fold_left
         (fun summary ev =>
            bump summary (FailureSignature_string (FailureEvidence.Signature ev)))
         (AggregatedTest.FailureEvidence t) summary)
    tests ∅.

(** [TopFlakes] is called with [n = 10]; a negative [n] is outside the model
    (the slice expression [flaky[:n]] panics). *)
Definition TopFlakes (tests : list AggregatedTest.t) (n : Z) : list AggregatedTest.t :=
  let flaky := FilterByClassification tests ClassificationFlaky in
  if (Z.of_nat (length flaky) <=? n)%Z then flaky
  else firstn (Z.to_nat n) flaky.

End classify.

(** *** The cases of [classify_test.go] *)

Module classify_test.

Import classify.
Local Open Scope string_scope.

Definition ms (n : Z) : Z := n * 1000000.

Definition pass (id : string) (d : Z) : TestResult.t :=
  TestResult.mk id OutcomePass d "".
Definition fail (id : string) (d : Z) (msg : string) : TestResult.t :=
  TestResult.mk id OutcomeFail d msg.
Definition skip (id : string) : TestResult.t :=
  TestResult.mk id OutcomeSkip 0 "".
Definition run (i : Z) (tests : list TestResult.t) : RunResult.t :=
  RunResult.mk i tests "".

Definition flaky_runs : list RunResult.t :=
  [ run 1 [pass "flaky.js::sometimes fails" (ms 100)];
    run 2 [fail "flaky.js::sometimes fails" (ms 150) "timeout exceeded"];
    run 3 [pass "flaky.js::sometimes fails" (ms 100)] ].

Definition wasted_runs : list RunResult.t :=
  [ run 1 [pass "test" (ms 100)];
    run 2 [fail "test" (ms 100) "err"] ].

Definition sorting_runs : list RunResult.t :=
  [ run 1 [pass "z::t" (ms 100); pass "a::t" (ms 100); pass "m::t" (ms 100)] ].

Definition multiple_runs : list RunResult.t :=
  [ run 1 [ pass "a.js::test1" (ms 100);
            fail "b.js::test2" (ms 200) "timeout";
            fail "c.js::test3" (ms 50) "assert failed" ];
    run 2 [ pass "a.js::test1" (ms 100);
            pass "b.js::test2" (ms 200);
            fail "c.js::test3" (ms 50) "assert failed" ] ].

Definition evidence_runs : list RunResult.t :=
  [ run 3 [fail "test" 0 "err3"];
    run 1 [fail "test" 0 "err1"];
    run 2 [pass "test" 0] ].

End classify_test.

Example TestDetectSignature :
  map classify.DetectSignature
    [ "Test timeout after 5000ms"; "TIMEOUT: exceeded limit";
      "Request timed out waiting for response"; "Operation exceeded time limit";
      "Failed to find selector '.button'"; "Element not found: #submit-btn";
      "cy.get() failed to find element";
      "Network error occurred"; "connect ECONNREFUSED 127.0.0.1:3000";
      "fetch failed: unable to connect";
      "Element is detached from DOM";
      "Stale element reference: element is no longer attached";
      "expect(received).toBe(expected)"; "AssertionError: expected true to be false";
      "Expected value toBe 5, received 3"; "Expected array toEqual [1, 2, 3]";
      "Something went wrong"; ""; "expect(response).timeout exceeded" ]%string
  = [ SignatureTimeout; SignatureTimeout; SignatureTimeout; SignatureTimeout;
      SignatureSelector; SignatureSelector; SignatureSelector;
      SignatureNetwork; SignatureNetwork; SignatureNetwork;
      SignatureDOMDetach; SignatureDOMDetach;
      SignatureAssertion; SignatureAssertion; SignatureAssertion; SignatureAssertion;
      SignatureUnknown; SignatureUnknown; SignatureTimeout ].
Proof. vm_compute. reflexivity. Qed.

Example TestClassify :
  [ classify.classify 3 2 5; classify.classify 1 1 2; classify.classify 0 5 5;
    classify.classify 5 0 5; classify.classify 0 0 0 ]
  = [ ClassificationFlaky; ClassificationFlaky; ClassificationDeterministicFail;
      ClassificationStable; ClassificationStable ].
Proof. reflexivity. Qed.

Example TestAggregate_flaky :
  map (fun t => (AggregatedTest.Classification t, AggregatedTest.PassCount t,
                 AggregatedTest.FailCount t, AggregatedTest.TotalRuns t,
                 map (fun e => (FailureEvidence.RunIndex e, FailureEvidence.Signature e))
                     (AggregatedTest.FailureEvidence t)))
      (classify.Aggregate classify_test.flaky_runs)
  = [ (ClassificationFlaky, 2, 1, 3, [(2, SignatureTimeout)]) ].
Proof. vm_compute. reflexivity. Qed.

Example TestWastedTimeCalculation :
  map AggregatedTest.WastedTime (classify.Aggregate classify_test.wasted_runs)
  = [ classify_test.ms 100 ].
Proof. vm_compute. reflexivity. Qed.

Example TestSortingDeterminism :
  map AggregatedTest.TestID (classify.Aggregate classify_test.sorting_runs)
  = [ "a::t"; "m::t"; "z::t" ]%string.
Proof. vm_compute. reflexivity. Qed.

Example TestAggregateMultipleTests :
  map (fun t => (AggregatedTest.TestID t, AggregatedTest.Classification t))
      (classify.Aggregate classify_test.multiple_runs)
  = [ ("b.js::test2", ClassificationFlaky);
      ("c.js::test3", ClassificationDeterministicFail);
      ("a.js::test1", ClassificationStable) ]%string.
Proof. vm_compute. reflexivity. Qed.

Example TestFailureEvidenceSortedByRunIndex :
  map (fun t => map FailureEvidence.RunIndex (AggregatedTest.FailureEvidence t))
      (classify.Aggregate classify_test.evidence_runs)
  = [ [1; 3] ].
Proof. vm_compute. reflexivity. Qed.

Example TestTruncateExcerpt :
  map classify.truncateExcerpt ["Short error"; "Error  with   multiple    spaces"]%string
  = ["Short error"; "Error with multiple spaces"]%string.
Proof. vm_compute. reflexivity. Qed.

(* ===================================================================== *)
(** ** Results that may be errors *)
(* ===================================================================== *)

(** A Go pair [(value, error)] of which exactly one part is meaningful; the
    error is kept as its message. *)
Inductive result (A : Type) : Type :=
| Ok (a : A)
| Err (message : string).
Arguments Ok {A} a.
Arguments Err {A} message.

Definition is_ok {A} (r : result A) : bool :=
  match r with Ok _ => true | Err _ => false end.

(** [filepath.Join] of a directory and a name.  Paths only label messages
    and directories here; they are not normalised. *)
Definition filepath_Join (dir name : string) : string := (dir ++ "/" ++ name)%string.

(* ===================================================================== *)
(** ** Package [cypress]: [Parse] *)
(* ===================================================================== *)

Module cypress.

Local Open Scope string_scope.

Module JUnitFailure.
Record t := mk { Message : string; Type_ : string; Content : string }.
End JUnitFailure.

Module JUnitError.
Record t := mk { Message : string; Type_ : string; Content : string }.
End JUnitError.

Module JUnitSkipped.
Record t := mk { Message : string }.
End JUnitSkipped.

Module JUnitTestCase.
Record t := mk {
  Name : string;
  Classname : string;
  Time : float;
  Failure : option JUnitFailure.t;      (* nil when absent *)
  Error : option JUnitError.t;
  Skipped : option JUnitSkipped.t;
}.
End JUnitTestCase.

Module JUnitTestSuite.
Record t := mk { Name : string; TestCases : list JUnitTestCase.t }.
End JUnitTestSuite.

(** What the file system and [encoding/xml] make of one path: the file cannot
    be read, or it holds [size] bytes which [xml.Unmarshal] decodes as a
    [<testsuites>] document and as a [<testsuite>] document ([None]: the
    decoder reports an error). *)
Inductive xml_file :=
| Unreadable (err : string)
| Readable (size : Z) (as_testsuites : option (list JUnitTestSuite.t))
           (as_testsuite : option JUnitTestSuite.t).

Definition parseXMLFile (read : string -> xml_file) (xmlPath : string)
  : result (list JUnitTestCase.t) :=
  match read xmlPath with
  | Unreadable err => Err ("failed to read XML file " ++ xmlPath ++ ": " ++ err)
  | Readable size as_testsuites as_testsuite =>
      if (size =? 0)%Z then Err ("XML file " ++ xmlPath ++ " is empty")
      else
        let invalid :=
          Err ("failed to parse XML file " ++ xmlPath
               ++ ": invalid JUnit format or no test cases found") in
        let single :=
          match as_testsuite with
          | Some suite =>
              match JUnitTestSuite.TestCases suite with
              | [] => invalid
              | cases => Ok cases
              end
          | None => invalid
          end in
        match as_testsuites with
        | Some [] | None => single
        | Some suites => Ok (concat (map JUnitTestSuite.TestCases suites))
        end
  end.

Definition buildTestID (classname name : string) : string :=
  let classname := GoStrings.TrimSpace classname in
  let name := GoStrings.TrimSpace name in
  if (classname =? "") || (name =? "") then ""
  else classname ++ "::" ++ name.

Definition determineOutcome (tc : JUnitTestCase.t) : Outcome :=
  if bool_decide (JUnitTestCase.Skipped tc <> None) then OutcomeSkip
  else if bool_decide (JUnitTestCase.Failure tc <> None)
          || bool_decide (JUnitTestCase.Error tc <> None) then OutcomeFail
  else OutcomePass.

Definition extractFailureMessage (message content : string) : string :=
  let msg := GoStrings.TrimSpace message in
  let msg := if msg =? "" then GoStrings.TrimSpace content else msg in
  if (500 <? GoStrings.len msg)%Z then GoStrings.prefix 500 msg ++ "..." else msg.

(** [time.Second] in nanoseconds, as a [float64]. *)
Definition second : float := 1000000000%float.

(** The body of the loop over the test cases of one file. *)
Definition record_case (xmlFile : string) (tc : JUnitTestCase.t)
    (testMap : gmap string TestResult.t) : result (gmap string TestResult.t) :=
  let testID := buildTestID (JUnitTestCase.Classname tc) (JUnitTestCase.Name tc) in
  if testID =? "" then
    Err ("invalid test case in " ++ xmlFile ++ ": missing classname or name attribute")
  else
    let failureMessage :=
      match JUnitTestCase.Failure tc, JUnitTestCase.Error tc with
      | Some f, _ =>
          extractFailureMessage (JUnitFailure.Message f) (JUnitFailure.Content f)
      | None, Some e =>
          extractFailureMessage (JUnitError.Message e) (JUnitError.Content e)
      | None, None => ""
      end in
    let result :=
      TestResult.mk testID (determineOutcome tc)
        (GoFloat.to_int64 (JUnitTestCase.Time tc * second)%float) failureMessage in
    Ok (<[testID := result]> testMap).

Fixpoint record_cases (xmlFile : string) (testCases : list JUnitTestCase.t)
    (testMap : gmap string TestResult.t) : result (gmap string TestResult.t) :=
  match testCases with
  | [] => Ok testMap
  | tc :: rest =>
      match record_case xmlFile tc testMap with
      | Ok testMap => record_cases xmlFile rest testMap
      | Err e => Err e
      end
  end.

(** The loop over the files. *)
Fixpoint record_files (read : string -> xml_file) (xmlFiles : list string)
    (testMap : gmap string TestResult.t) : result (gmap string TestResult.t) :=
  match xmlFiles with
  | [] => Ok testMap
  | xmlFile :: rest =>
      match parseXMLFile read xmlFile with
      | Err e => Err e
      | Ok testCases =>
          match record_cases xmlFile testCases testMap with
          | Ok testMap => record_files read rest testMap
          | Err e => Err e
          end
      end
  end.

(** The zero value of [model.TestResult], read from a map at a missing key.
    The zero [Outcome] is the empty string, which is none of the three
    constants; it is never read, the keys being those of the map. *)
Definition zero_TestResult : TestResult.t := TestResult.mk "" OutcomePass 0 "".

(** [Parse], given the result of [filepath.Glob] (the paths matching
    [runDir/*.xml], in the order the directory is enumerated) and the order
    [keys] in which the keys of [testMap] are visited. *)
Definition Parse_in_order (read : string -> xml_file) (runDir : string)
    (glob : result (list string))
    (keys : gmap string TestResult.t -> list string) : result RunResult.t :=
  match glob with
  | Err err => Err ("failed to glob XML files in " ++ runDir ++ ": " ++ err)
  | Ok [] =>
      Err ("no XML files found in " ++ runDir
           ++ ": ensure Cypress is configured with JUnit reporter")
  | Ok xmlFiles =>
      let xmlFiles := GoSort.Strings xmlFiles in
      match record_files read xmlFiles ∅ with
      | Err e => Err e
      | Ok testMap =>
          let testIDs := GoSort.Strings (keys testMap) in
          let tests := map (fun id => default zero_TestResult (testMap !! id)) testIDs in
          Ok (RunResult.mk 0 tests "")
      end
  end.

Definition map_keys (testMap : gmap string TestResult.t) : list string :=
  map fst (map_to_list testMap).

Definition Parse (read : string -> xml_file) (runDir : string)
    (glob : result (list string)) : result RunResult.t :=
  Parse_in_order read runDir glob map_keys.

Definition BuildCommand (runDir : string) (userCmd : list string) : list string :=
  match userCmd with
  | [] => []
  | _ =>
      let reporterOpts := "mochaFile=" ++ runDir ++ "/[hash].xml" in
      (userCmd ++ ["--reporter"; "junit"] ++ ["--reporter-options"; reporterOpts])%list
  end.

Definition ExpectedArtifact (runDir : string) : string := runDir.

End cypress.

(* ===================================================================== *)
(** ** Package [jest]: [Parse] *)
(* ===================================================================== *)

Module jest.

Local Open Scope string_scope.

Definition artifactFilename : string := "jest.json".

Module AssertionResult.
Record t := mk {
  FullName : string;
  Status : string;
  Title : string;
  Duration : Z;                       (* int64, milliseconds *)
  FailureMessages : list string;
}.
End AssertionResult.

Module TestResult.
Record t := mk {
  Name : string;
  Status : string;
  AssertionResults : list AssertionResult.t;
}.
End TestResult.

Module JestOutput.
Record t := mk { TestResults : list TestResult.t }.
End JestOutput.

Module ParseError.
Record t := mk { File : string; Message : string; Action : string }.
Definition Error (e : t) : string :=
  "parse error in " ++ File e ++ ": " ++ Message e ++ ". " ++ Action e.
End ParseError.

(** What [os.ReadFile] and [json.Unmarshal] make of the artifact: it cannot be
    read, or it holds [size] bytes that decode to [decoded]. *)
Inductive artifact :=
| Unreadable (err : string)
| Readable (size : Z) (decoded : result JestOutput.t).

Definition mapStatus (status : string) : result Outcome :=
  if status =? "passed" then Ok OutcomePass
  else if status =? "failed" then Ok OutcomeFail
  else if (status =? "pending") || (status =? "skipped") || (status =? "todo")
          || (status =? "disabled") then Ok OutcomeSkip
  else Err ("unknown status: " ++ status).

(** [time.Millisecond] in nanoseconds. *)
Definition millisecond : Z := 1000000.

(** The verb [%q] of [fmt], for a status without characters to escape. *)
Definition quoted (s : string) : string :=
  String (ascii_of_N 34) s ++ String (ascii_of_N 34) "".

Definition at_index (what : string) (i : Z) : string :=
  what ++ "[" ++ GoStrings.format_d i ++ "]".

(** The inner loop of [extractTests], over the assertions of file [i]. *)
Fixpoint extract_assertions (artifactPath : string) (i : Z) (name : string)
    (j : Z) (assertions : list AssertionResult.t)
    (tests : list model.TestResult.t)
  : ParseError.t + list model.TestResult.t :=
  match assertions with
  | [] => inr tests
  | assertion :: rest =>
      let here := at_index "testResults" i ++ "." ++ at_index "assertionResults" j in
      if AssertionResult.FullName assertion =? "" then
        inl (ParseError.mk artifactPath (here ++ ".fullName is missing or empty")
               "Jest output is malformed. Each assertion result must have a 'fullName' field.")
      else if AssertionResult.Status assertion =? "" then
        inl (ParseError.mk artifactPath (here ++ ".status is missing or empty")
               "Jest output is malformed. Each assertion result must have a 'status' field.")
      else
        let testID := name ++ "::" ++ AssertionResult.FullName assertion in
        match mapStatus (AssertionResult.Status assertion) with
        | Err _ =>
            inl (ParseError.mk artifactPath
                   (here ++ ".status has unknown value: "
                    ++ quoted (AssertionResult.Status assertion))
                   "Jest produced an unexpected status value. Expected: 'passed', 'failed', 'pending', or 'skipped'.")
        | Ok outcome =>
            let duration :=
              GoInt.wrap64 (AssertionResult.Duration assertion * millisecond) in
            let failureMsg :=
              match AssertionResult.FailureMessages assertion with
              | [] => ""
              | msgs => GoStrings.Join msgs (String "010"%char "")
              end in
            extract_assertions artifactPath i name (j + 1) rest
              (tests ++ [model.TestResult.mk testID outcome duration failureMsg])
        end
  end.

(** The outer loop of [extractTests], over the test files. *)
Fixpoint extract_files (artifactPath : string) (i : Z)
    (testResults : list TestResult.t) (tests : list model.TestResult.t)
  : ParseError.t + list model.TestResult.t :=
  match testResults with
  | [] => inr tests
  | testResult :: rest =>
      if TestResult.Name testResult =? "" then
        inl (ParseError.mk artifactPath
               (at_index "testResults" i ++ ".name is missing or empty")
               "Jest output is malformed. Each test result must have a 'name' field containing the file path.")
      else
        match extract_assertions artifactPath i (TestResult.Name testResult) 0
                (TestResult.AssertionResults testResult) tests with
        | inl e => inl e
        | inr tests => extract_files artifactPath (i + 1) rest tests
        end
  end.

Definition extractTests (output : JestOutput.t) (artifactPath : string)
  : ParseError.t + list model.TestResult.t :=
  extract_files artifactPath 0 (JestOutput.TestResults output) [].

(** [Parse], given what the artifact of the run directory holds. *)
Definition Parse (art : artifact) (runDir : string) : ParseError.t + RunResult.t :=
  let artifactPath := filepath_Join runDir artifactFilename in
  match art with
  | Unreadable err =>
      inl (ParseError.mk artifactPath ("failed to read file: " ++ err)
             "Ensure Jest completed and produced output. Check that --outputFile was used correctly.")
  | Readable size decoded =>
      if (size =? 0)%Z then
        inl (ParseError.mk artifactPath "file is empty"
               "Ensure Jest completed successfully. The JSON output file should not be empty.")
      else
        match decoded with
        | Err err =>
            inl (ParseError.mk artifactPath ("invalid JSON: " ++ err)
                   "Ensure Jest produced valid JSON output. The file may be corrupted or incomplete.")
        | Ok jestOutput =>
            match extractTests jestOutput artifactPath with
            | inl e => inl e
            | inr tests =>
                let tests :=
                  GoSort.Slice
                    (fun a b =>
                       GoStrings.lt (model.TestResult.TestID a) (model.TestResult.TestID b))
                    tests in
                inr (RunResult.mk 0 tests "")
            end
        end
  end.

Definition ExpectedArtifact (runDir : string) : string :=
  filepath_Join runDir artifactFilename.

End jest.

(* ===================================================================== *)
(** ** Package [runner] *)
(* ===================================================================== *)

Module runner.

Local Open Scope string_scope.

(** The two operations of [model.Adapter] that do not read the file system;
    what [Parse] returns for a run is part of the environment below. *)
Record Adapter := mkAdapter {
  BuildCommand : string -> list string -> list string;
  ExpectedArtifact : string -> string;
}.

Record Config := mkConfig {
  Runs : Z;
  Timeout : Z;                   (* time.Duration; 0: no timeout *)
  OutDir : string;
  KeepRuns : Z;
  Tool : string;
  Command : list string;
  Adapter_ : option Adapter;     (* [None] is the nil interface *)
}.

Record Result := mkResult {
  RunResults : list RunResult.t;
  RunsExecuted : Z;
  LatestDir : string;
}.

(** What the operating system, the child processes and the user do during
    a session; [None] is a nil error.  Run [i] is the [i]-th turn of the
    loop. *)
Record Env := mkEnv {
  clean_error : option string;           (* os.RemoveAll(latestDir) *)
  mkruns_error : option string;          (* os.MkdirAll(runsDir) *)
  mkdir_error : Z -> option string;      (* os.MkdirAll(runDir) of run i *)
  stdout_error : Z -> option string;     (* os.Create(stdout.txt) of run i *)
  stderr_error : Z -> option string;     (* os.Create(stderr.txt) of run i *)
  child_time : Z -> Z;                   (* wall-clock time the child of run i takes *)
  interrupted : Z -> bool;               (* the signal arrives while run i executes *)
  artifact_missing : Z -> bool;          (* os.Stat says the artifact does not exist *)
  parse : Z -> result RunResult.t;       (* Adapter.Parse(runDir) after run i *)
  readdir_error : option string;         (* os.ReadDir(runsDir) *)
  remove_error : string -> option string (* os.RemoveAll of a run directory *)
}.

(** What the session did, in order: kept for the statements, not by the code. *)
Inductive event :=
| Started (i : Z) (elapsed : Z) (cancel_requested : bool)
| Removed (dir : string).

Record World := mkWorld {
  now : Z;                    (* time.Now() *)
  cancelled : bool;           (* ctx.Err() != nil *)
  dirs : list string;         (* the directories in runsDir, in the order created *)
  warnings : list string;     (* what Run wrote to os.Stderr *)
  events : list event;
}.

Definition executeRun (env : Env) (cfg : Config) (adapter : Adapter)
    (runDir : string) (runIndex : Z) (w : World) : result RunResult.t * World :=
  let cmdArgs := BuildCommand adapter runDir (Command cfg) in
  match cmdArgs with
  | [] => (Err "adapter returned empty command", w)
  | _ :: _ =>
      match stdout_error env runIndex with
      | Some err => (Err ("failed to create stdout.txt: " ++ err), w)
      | None =>
      match stderr_error env runIndex with
      | Some err => (Err ("failed to create stderr.txt: " ++ err), w)
      | None =>
          (* cmd.Run(): the exit status is ignored *)
          let w := mkWorld (now w + child_time env runIndex)
                           (cancelled w || interrupted env runIndex)
                           (dirs w) (warnings w) (events w) in
          let artifactPath := ExpectedArtifact adapter runDir in
          if artifact_missing env runIndex then
            (Err ("expected artifact not found: " ++ artifactPath
                  ++ ". Ensure the test command produces the required output file"), w)
          else
            match parse env runIndex with
            | Err err => (Err ("failed to parse run results: " ++ err), w)
            | Ok result =>
                (Ok (RunResult.mk runIndex (RunResult.Tests result)
                                  (RunResult.Error result)), w)
            end
      end
      end
  end.

(** [os.MkdirAll] of a run directory that succeeds. *)
Definition mkdir (name : string) (w : World) : World :=
  mkWorld (now w) (cancelled w)
          (if bool_decide (name ∈ dirs w) then dirs w else (dirs w ++ [name])%list)
          (warnings w) (events w).

Definition log (e : event) (w : World) : World :=
  mkWorld (now w) (cancelled w) (dirs w) (warnings w) (events w ++ [e])%list.

(** The loop [for i := 1; i <= cfg.Runs; i++]; [fuel] is the number of turns
    left, [cfg.Runs] at the start.  (The counter cannot overflow before the
    loop ends, unless [cfg.Runs] is the largest [int].) *)
Fixpoint run_loop (fuel : nat) (env : Env) (cfg : Config) (adapter : Adapter)
    (runsDir : string) (startTime : Z) (i : Z) (runResults : list RunResult.t)
    (w : World) : result (list RunResult.t) * World :=
  match fuel with
  | O => (Ok runResults, w)
  | S fuel' =>
      if negb (i <=? Runs cfg)%Z then (Ok runResults, w)
      else if (0 <? Timeout cfg)%Z && (Timeout cfg <=? now w - startTime)%Z
      then (Ok runResults, w)                                   (* break *)
      else if cancelled w then (Ok runResults, w)               (* break *)
      else
        let name := GoStrings.format_03d i in
        let runDir := filepath_Join runsDir name in
        match mkdir_error env i with
        | Some err =>
            (Err ("failed to create run directory " ++ runDir ++ ": " ++ err), w)
        | None =>
            let w := log (Started i (now w - startTime) (cancelled w)) (mkdir name w) in
            let '(r, w) := executeRun env cfg adapter runDir i w in
            let result :=
              match r with
              | Ok result => result
              | Err err => RunResult.mk i [] err
              end in
            run_loop fuel' env cfg adapter runsDir startTime (i + 1)
                     (runResults ++ [result])%list w
        end
  end.

(** The loop of [cleanupOldRuns] over [toRemove]. *)
Fixpoint remove_all (env : Env) (runsDir : string) (toRemove : list string)
    (w : World) : option string * World :=
  match toRemove with
  | [] => (None, w)
  | dir :: rest =>
      let path := filepath_Join runsDir dir in
      match remove_error env dir with
      | Some err => (Some ("failed to remove " ++ path ++ ": " ++ err), w)
      | None =>
          let w := mkWorld (now w) (cancelled w)
                     (List.filter (fun d => negb (d =? dir)) (dirs w))
                     (warnings w) (events w ++ [Removed dir])%list in
          remove_all env runsDir rest w
      end
  end.

Definition cleanupOldRuns (env : Env) (runsDir : string) (keepRuns : Z)
    (w : World) : option string * World :=
  match readdir_error env with
  | Some err => (Some err, w)
  | None =>
      (* os.ReadDir returns the entries sorted by file name; all are directories *)
      let entries := GoSort.Strings (dirs w) in
      let dirs := GoSort.Strings entries in
      if (keepRuns <? Z.of_nat (length dirs))%Z then
        let toRemove := firstn (length dirs - Z.to_nat keepRuns) dirs in
        remove_all env runsDir toRemove w
      else (None, w)
  end.

Definition Run (env : Env) (cfg : Config) (w : World) : result Result * World :=
  if (Runs cfg <=? 0)%Z then
    (Err ("--runs must be a positive integer, got " ++ GoStrings.format_d (Runs cfg)), w)
  else match Command cfg with
  | [] => (Err "test command is required after --", w)
  | _ :: _ =>
  match Adapter_ cfg with
  | None => (Err "adapter is required", w)
  | Some adapter =>
      let latestDir := filepath_Join (OutDir cfg) "latest" in
      let runsDir := filepath_Join latestDir "runs" in
      match clean_error env with
      | Some err =>
          (Err ("failed to clean output directory " ++ latestDir ++ ": " ++ err), w)
      | None =>
      let w := mkWorld (now w) (cancelled w) [] (warnings w) (events w) in
      match mkruns_error env with
      | Some err =>
          (Err ("failed to create runs directory " ++ runsDir ++ ": " ++ err), w)
      | None =>
          let startTime := now w in
          match run_loop (Z.to_nat (Runs cfg)) env cfg adapter runsDir startTime 1 [] w with
          | (Err err, w) => (Err err, w)
          | (Ok runResults, w) =>
              let w :=
                if (0 <? KeepRuns cfg)%Z
                   && (KeepRuns cfg <? Z.of_nat (length runResults))%Z
                then
                  match cleanupOldRuns env runsDir (KeepRuns cfg) w with
                  | (Some err, w) =>
                      mkWorld (now w) (cancelled w) (dirs w)
                        (warnings w ++ [("warning: failed to cleanup old runs: " ++ err)%string])%list
                        (events w)
                  | (None, w) => w
                  end
                else w in
              (Ok (mkResult runResults (Z.of_nat (length runResults)) latestDir), w)
          end
      end
      end
  end
  end.

End runner.

(* ===================================================================== *)
(** ** Package [jest]: [BuildCommand] *)
(* ===================================================================== *)

Module jest_command.

Local Open Scope string_scope.

Definition executionModeFlags : list string :=
  ["--runInBand"; "--maxWorkers"; "-w"; "--workerThreads"].

(** [strings.HasPrefix(arg, flag) || arg == "-i"] for some [flag] of the
    list: the inner loop of [BuildCommand]. *)
Fixpoint matches_flag (arg : string) (flags : list string) : bool :=
  match flags with
  | [] => false
  | flag :: rest =>
      if String.prefix flag arg || (arg =? "-i") then true
      else matches_flag arg rest
  end.

(** The outer loop, over the arguments of the user. *)
Fixpoint hasExecutionMode (userCmd : list string) : bool :=
  match userCmd with
  | [] => false
  | arg :: rest =>
      if matches_flag arg executionModeFlags then true else hasExecutionMode rest
  end.

Definition BuildCommand (runDir : string) (userCmd : list string) : list string :=
  match userCmd with
  | [] => []
  | _ :: _ =>
      let outputPath := filepath_Join runDir jest.artifactFilename in
      let result := userCmd in
      let result :=
        if negb (hasExecutionMode userCmd) then (result ++ ["--runInBand"])%list
        else result in
      (result ++ ["--json"; "--outputFile"; outputPath])%list
  end.

End jest_command.

Example jest_BuildCommand_basic :
  jest_command.BuildCommand "/tmp/runs/001" ["npx"; "jest"]%string
  = ["npx"; "jest"; "--runInBand"; "--json"; "--outputFile"; "/tmp/runs/001/jest.json"]%string.
Proof. reflexivity. Qed.

Example jest_BuildCommand_workers :
  jest_command.BuildCommand "/tmp/runs/001" ["npx"; "jest"; "--maxWorkers=4"]%string
  = ["npx"; "jest"; "--maxWorkers=4"; "--json"; "--outputFile"; "/tmp/runs/001/jest.json"]%string.
Proof. reflexivity. Qed.

(* ===================================================================== *)
(** ** Package [report]: [sortedSignatures] *)
(* ===================================================================== *)

Module report.

Module signatureCount.
Record t := mk { Name : string; Count : Z }.
End signatureCount.

(** The comparison function of [sortedSignatures]. *)
Definition less (a b : signatureCount.t) : bool :=
  if negb (signatureCount.Count a =? signatureCount.Count b)%Z
  then (signatureCount.Count b <? signatureCount.Count a)%Z
  else GoStrings.lt (signatureCount.Name a) (signatureCount.Name b).

(** [sortedSignatures], the entries of the map being visited in the order
    [entries]. *)
Definition sortedSignatures_in_order (entries : list (string * Z)) : list signatureCount.t :=
  GoSort.Slice less (map (fun e => signatureCount.mk e.1 e.2) entries).

Definition sortedSignatures (summary : gmap string Z) : list signatureCount.t :=
  sortedSignatures_in_order (map_to_list summary).

(** Every list the Go function may return: some order of visit, some sorted
    rearrangement. *)
Definition sortedSignatures_may_return (summary : gmap string Z)
    (out : list signatureCount.t) : Prop :=
  exists entries,
    Permutation entries (map_to_list summary) /\
    GoSort.is_sorting_of less (map (fun e => signatureCount.mk e.1 e.2) entries) out.

(** [classificationOrder]; the three constants are the only values of the
    model, so that the [default] case is not reached. *)
Definition classificationOrder (c : Classification) : Z :=
  match c with
  | ClassificationFlaky => 0
  | ClassificationDeterministicFail => 1
  | ClassificationStable => 2
  end.

(** [formatRunIndices]. *)
Definition formatRunIndices (indices : list Z) : string :=
  match indices with
  | [] => ""%string
  | _ :: _ => GoStrings.Join (map GoStrings.format_d indices) ", "
  end.

End report.

Example TestSortedSignatures :
  map report.signatureCount.Name
      (report.sortedSignatures
         (list_to_map [("TIMEOUT", 3); ("NETWORK", 5); ("SELECTOR", 3)]%string))
  = ["NETWORK"; "SELECTOR"; "TIMEOUT"]%string.
Proof. vm_compute. reflexivity. Qed.

(* ===================================================================== *)
(** ** Package [main]: [buildReport], [findSeparator], the exit status *)
(* ===================================================================== *)

Module main.

Local Open Scope string_scope.

Definition exitSuccess : Z := 0.
Definition exitError : Z := 1.
Definition exitFlakeFound : Z := 2.

Module Report.
Record t := mk {
  Tool : string;
  Target : string;
  RunsExecuted : Z;
  FlakyCount : Z;
  StableCount : Z;
  DetFailCount : Z;
  Tests : list AggregatedTest.t;
  TopFlakes : list AggregatedTest.t;
  SignatureSummary : gmap string Z;
}.
End Report.

(** The counting loop of [buildReport]: the three counters after the tests
    [tests], from the counters [counts] (flaky, stable, deterministic fail). *)
Definition count_test (counts : Z * Z * Z) (t : AggregatedTest.t) : Z * Z * Z :=
  let '(flakyCount, stableCount, detFailCount) := counts in
  match AggregatedTest.Classification t with
  | ClassificationFlaky => (GoInt.incr flakyCount, stableCount, detFailCount)
  | ClassificationStable => (flakyCount, GoInt.incr stableCount, detFailCount)
  | ClassificationDeterministicFail => (flakyCount, stableCount, GoInt.incr detFailCount)
  end.

Definition buildReport (tool target : string) (runsExecuted : Z)
    (tests : list AggregatedTest.t) : Report.t :=
  let '(flakyCount, stableCount, detFailCount) := fold_left count_test tests (0, 0, 0)%Z in
  let topFlakes := classify.TopFlakes tests 10 in
  let signatureSummary := classify.SignatureSummary tests in
  Report.mk tool target runsExecuted flakyCount stableCount detFailCount
            tests topFlakes signatureSummary.

(** [findSeparator]: the index of the first [--], or [-1]. *)
Fixpoint findSeparator_from (i : Z) (args : list string) : Z :=
  match args with
  | [] => -1
  | arg :: rest => if arg =? "--" then i else findSeparator_from (i + 1) rest
  end.

Definition findSeparator (args : list string) : Z := findSeparator_from 0 args.

(** The exit status [execute] returns once [runner.Run] has returned: the
    reports it writes in between only print warnings. *)
Definition exit_status (failOnFlake : bool) (tool target : string)
    (run : result runner.Result) : Z :=
  match run with
  | Err _ => exitError
  | Ok result =>
      let aggregatedTests := classify.Aggregate (runner.RunResults result) in
      let rpt := buildReport tool target (runner.RunsExecuted result) aggregatedTests in
      if failOnFlake && (0 <? Report.FlakyCount rpt)%Z then exitFlakeFound
      else exitSuccess
  end.

End main.

(* ===================================================================== *)
(** * Properties *)
(* ===================================================================== *)

(** ** Machine integers *)

Lemma wrap64_small z : GoInt.in_int64 z -> GoInt.wrap64 z = z.
Proof.
  unfold GoInt.in_int64, GoInt.min_int64, GoInt.max_int64, GoInt.wrap64. intros H.
  rewrite Z.mod_small; lia.
Qed.

Lemma wrap64_range z : GoInt.in_int64 (GoInt.wrap64 z).
Proof.
  unfold GoInt.in_int64, GoInt.min_int64, GoInt.max_int64, GoInt.wrap64.
  pose proof (Z.mod_pos_bound (z + 2 ^ 63) (2 ^ 64) ltac:(lia)). lia.
Qed.

Lemma wrap64_add_l a b : GoInt.wrap64 (GoInt.wrap64 a + b) = GoInt.wrap64 (a + b).
Proof.
  unfold GoInt.wrap64. f_equal.
  replace ((a + 2 ^ 63) mod 2 ^ 64 - 2 ^ 63 + b + 2 ^ 63)
    with ((a + 2 ^ 63) mod 2 ^ 64 + b) by lia.
  rewrite Zplus_mod_idemp_l. f_equal. lia.
Qed.

Lemma wrap64_add_r a b : GoInt.wrap64 (a + GoInt.wrap64 b) = GoInt.wrap64 (a + b).
Proof. rewrite (Z.add_comm a), wrap64_add_l. f_equal. lia. Qed.

(** ** Sorting *)

Section SliceFacts.
Context {A : Type} (less : A -> A -> bool).

Lemma insert_Permutation x l : Permutation (GoSort.insert less x l) (x :: l).
Proof.
  induction l as [|y l IH]; simpl; [reflexivity|].
  destruct (less x y); [reflexivity|].
  rewrite IH. apply perm_swap.
Qed.

Lemma Slice_acc_Permutation l acc :
  Permutation (fold_left (fun acc x => GoSort.insert less x acc) l acc) (acc ++ l).
Proof.
  revert acc. induction l as [|x l IH]; intros acc; simpl.
  - rewrite app_nil_r. reflexivity.
  - rewrite IH, insert_Permutation.
    change (x :: acc) with ([x] ++ acc). rewrite (Permutation_app_comm [x] acc).
    rewrite <- app_assoc. reflexivity.
Qed.

Lemma Slice_Permutation l : Permutation (GoSort.Slice less l) l.
Proof. unfold GoSort.Slice. rewrite Slice_acc_Permutation. reflexivity. Qed.

Lemma Slice_elem_of x l : x ∈ GoSort.Slice less l <-> x ∈ l.
Proof. rewrite (Slice_Permutation l). reflexivity. Qed.

Lemma Slice_length l : length (GoSort.Slice less l) = length l.
Proof. apply Permutation_length, Slice_Permutation. Qed.

(** A strict order on a carrier [P] that decides every two distinct
    elements of the carrier. *)
Record strict_total_on (P : A -> Prop) : Prop := {
  sto_irrefl : forall a, P a -> less a a = false;
  sto_trans : forall a b c, P a -> P b -> P c ->
      less a b = true -> less b c = true -> less a c = true;
  sto_total : forall a b, P a -> P b -> a <> b -> less a b = true \/ less b a = true;
}.

Context (P : A -> Prop) (Hsto : strict_total_on P).

Lemma sto_asym a b : P a -> P b -> less a b = true -> less b a = false.
Proof.
  intros Ha Hb Hab. destruct (less b a) eqn:Hba; [|reflexivity].
  pose proof (sto_trans P Hsto a b a Ha Hb Ha Hab Hba) as Haa.
  rewrite (sto_irrefl P Hsto a Ha) in Haa. discriminate.
Qed.

Definition ascending (l : list A) : Prop :=
  StronglySorted (fun a b => less a b = true) l.

Lemma insert_ascending x l :
  P x -> Forall P l -> x ∉ l -> ascending l -> ascending (GoSort.insert less x l).
Proof.
  intros Hx HP Hnin Hs. induction Hs as [|y l Hs IH Hy]; simpl.
  - repeat constructor.
  - apply Forall_cons in HP as [HPy HPl].
    apply not_elem_of_cons in Hnin as [Hxy Hnin].
    destruct (less x y) eqn:Hlt.
    + constructor; [constructor; assumption|].
      constructor; [assumption|].
      rewrite Forall_forall in Hy, HPl |- *. intros z Hz.
      eapply (sto_trans P Hsto x y z); eauto.
    + destruct (sto_total P Hsto x y Hx HPy Hxy) as [Hc|Hyx]; [congruence|].
      constructor; [apply IH; assumption|].
      rewrite Forall_forall in Hy |- *. intros z Hz.
      rewrite (insert_Permutation x l) in Hz.
      apply elem_of_cons in Hz as [->|Hz]; [assumption|]. apply Hy, Hz.
Qed.

Lemma Slice_acc_ascending l acc :
  Forall P (acc ++ l) -> NoDup (acc ++ l) -> ascending acc ->
  ascending (fold_left (fun acc x => GoSort.insert less x acc) l acc).
Proof.
  revert acc. induction l as [|x l IH]; intros acc HP Hnd Hs; simpl; [assumption|].
  assert (Hperm : Permutation (acc ++ x :: l) (GoSort.insert less x acc ++ l)).
  { rewrite insert_Permutation. symmetry. apply Permutation_middle. }
  apply IH.
  - rewrite <- Hperm. assumption.
  - rewrite <- Hperm. assumption.
  - apply Forall_app in HP as [HPa HPl]. apply Forall_cons in HPl as [HPx _].
    apply NoDup_app in Hnd as (_ & Hdisj & _).
    apply insert_ascending; try assumption.
    intros Hin. apply (Hdisj x Hin). left.
Qed.

(** The sort of a duplicate-free list of the carrier is strictly ascending. *)
Lemma Slice_ascending l : Forall P l -> NoDup l -> ascending (GoSort.Slice less l).
Proof. intros HP Hnd. apply Slice_acc_ascending; [assumption|assumption|constructor]. Qed.

Lemma ascending_unique l1 l2 :
  Forall P l1 -> Permutation l1 l2 -> ascending l1 -> ascending l2 -> l1 = l2.
Proof.
  intros HP Hperm H1 H2.
  apply (StronglySorted_unique_strong (fun a b => less a b = true)); try assumption.
  intros x1 x2 Hx1 Hx2 H12 H21.
  assert (P x1) by (rewrite Forall_forall in HP; auto).
  assert (P x2) by (rewrite Forall_forall in HP; apply HP; rewrite Hperm; auto).
  rewrite (sto_asym x1 x2) in H21 by assumption. discriminate.
Qed.

(** Whatever [sort.Slice] returns for such a list (see
    [GoSort.is_sorting_of]), it is the list [GoSort.Slice] computes. *)
Lemma sorting_unique l l' :
  Forall P l -> NoDup l -> GoSort.is_sorting_of less l l' -> l' = GoSort.Slice less l.
Proof.
  intros HP Hnd [Hperm Hsorted].
  assert (HP' : Forall P l') by (rewrite <- Hperm; assumption).
  assert (Hnd' : NoDup l') by (rewrite <- Hperm; assumption).
  apply ascending_unique.
  - assumption.
  - rewrite <- Hperm. symmetry. apply Slice_Permutation.
  - clear Hperm. unfold ascending.
    assert (Hadj : Sorted (fun a b => less a b = true) l').
    { induction Hsorted as [|a l0 Hs IH Hhd]; [constructor|].
      apply Forall_cons in HP' as [HPa HPl]. apply NoDup_cons in Hnd' as [Hnin Hnd0].
      constructor; [apply IH; assumption|].
      destruct Hhd as [|b l1 Hba]; constructor.
      apply Forall_cons in HPl as [HPb _].
      destruct (sto_total P Hsto a b HPa HPb) as [Hab|Hc]; [|assumption|congruence].
      intros ->. apply Hnin. left. }
    clear Hsorted. induction Hadj as [|a l0 Hs IH Hhd]; [constructor|].
    apply Forall_cons in HP' as [HPa HPl]. apply NoDup_cons in Hnd' as [Hnin Hnd0].
    specialize (IH HPl Hnd0). constructor; [assumption|].
    destruct Hhd as [|b l1 Hab]; [constructor|].
    constructor; [assumption|].
    apply StronglySorted_inv in IH as [_ Hb].
    apply Forall_cons in HPl as [HPb HPl1].
    rewrite Forall_forall in Hb, HPl1 |- *. intros z Hz.
    eapply (sto_trans P Hsto a b z); eauto.
  - apply Slice_ascending; assumption.
Qed.

End SliceFacts.

(** ** Aggregation: what the accumulation loop computes *)

(** Every test result of the session with the index of its run, in the order
    the two loops of [Aggregate] visit them. *)
Definition all_tests (runs : list RunResult.t) : list (Z * TestResult.t) :=
  concat (map (fun run => map (pair (RunResult.RunIndex run)) (RunResult.Tests run)) runs).

(** The number of results of test [id] with outcome [o]. *)
Definition tally (id : string) (o : Outcome) (l : list (Z * TestResult.t)) : nat :=
  length (filter (fun p => TestResult.TestID p.2 = id /\ TestResult.Outcome p.2 = o) l).

(** The number of results of test [id]. *)
Definition occurrences (id : string) (l : list (Z * TestResult.t)) : nat :=
  length (filter (fun p => TestResult.TestID p.2 = id) l).

(** The number of runs in which test [id] appears. *)
Definition runs_with (id : string) (runs : list RunResult.t) : nat :=
  length (filter (fun run => id ∈ map TestResult.TestID (RunResult.Tests run)) runs).

(** The session is one the counters can count: fewer than [2^63] results. *)
Definition countable (runs : list RunResult.t) : Prop :=
  Z.of_nat (length (all_tests runs)) < 2 ^ 63.

Definition step (m : gmap string classify.testAggregator) (p : Z * TestResult.t) :=
  classify.accumulate p.1 m p.2.

Lemma accumulate_runs_flat runs :
  classify.accumulate_runs runs = fold_left step (all_tests runs) ∅.
Proof.
  unfold classify.accumulate_runs, all_tests. generalize (∅ : gmap string classify.testAggregator).
  induction runs as [|run runs IH]; intros m; simpl; [reflexivity|].
  rewrite fold_left_app, IH. f_equal.
  unfold classify.accumulate_run. generalize (RunResult.Tests run) as tests. clear.
  intros tests. revert m. induction tests as [|t tests IH]; intros m; simpl; [reflexivity|].
  apply IH.
Qed.

Lemma tally_snoc id o l p :
  tally id o (l ++ [p]) =
  (tally id o l +
   if bool_decide (TestResult.TestID p.2 = id /\ TestResult.Outcome p.2 = o) then 1 else 0)%nat.
Proof.
  unfold tally. rewrite filter_app, length_app. f_equal.
  rewrite filter_cons, filter_nil. case_bool_decide; case_decide; simpl; tauto || lia.
Qed.

Lemma occurrences_snoc id l p :
  occurrences id (l ++ [p]) =
  (occurrences id l + if bool_decide (TestResult.TestID p.2 = id) then 1 else 0)%nat.
Proof.
  unfold occurrences. rewrite filter_app, length_app. f_equal.
  rewrite filter_cons, filter_nil. case_bool_decide; case_decide; simpl; tauto || lia.
Qed.

Lemma occurrences_tally id l :
  occurrences id l =
  (tally id OutcomePass l + tally id OutcomeFail l + tally id OutcomeSkip l)%nat.
Proof.
  induction l as [|p l IH] using rev_ind; [reflexivity|].
  rewrite occurrences_snoc, !tally_snoc, IH.
  destruct (TestResult.Outcome p.2) eqn:Ho;
    repeat case_bool_decide; try lia; intuition congruence.
Qed.

Lemma tally_le id o l : (tally id o l <= length l)%nat.
Proof. apply length_filter. Qed.

Lemma occurrences_le id l : (occurrences id l <= length l)%nat.
Proof. apply length_filter. Qed.

(** What the aggregator of test [id] holds after the results [l]. *)
Record aggregates (id : string) (l : list (Z * TestResult.t))
    (agg : classify.testAggregator) : Prop := {
  agg_id : classify.testID agg = id;
  agg_pass : classify.passCount agg = GoInt.wrap64 (Z.of_nat (tally id OutcomePass l));
  agg_fail : classify.failCount agg = GoInt.wrap64 (Z.of_nat (tally id OutcomeFail l));
  agg_skip : classify.skipCount agg = GoInt.wrap64 (Z.of_nat (tally id OutcomeSkip l));
  agg_dur : classify.durationCount agg =
            GoInt.wrap64 (Z.of_nat (tally id OutcomePass l + tally id OutcomeFail l));
  agg_evidence : length (classify.failureEvidence agg) = tally id OutcomeFail l;
  agg_seen : (0 < occurrences id l)%nat;
}.

Lemma tally_snoc_hit id o l p :
  TestResult.TestID p.2 = id -> TestResult.Outcome p.2 = o ->
  tally id o (l ++ [p]) = S (tally id o l).
Proof. intros. rewrite tally_snoc. rewrite bool_decide_true by auto. lia. Qed.

Lemma tally_snoc_miss id o l p :
  TestResult.TestID p.2 <> id \/ TestResult.Outcome p.2 <> o ->
  tally id o (l ++ [p]) = tally id o l.
Proof. intros. rewrite tally_snoc. rewrite bool_decide_false by tauto. lia. Qed.

Lemma incr_wrap64_S n : GoInt.incr (GoInt.wrap64 (Z.of_nat n)) = GoInt.wrap64 (Z.of_nat (S n)).
Proof. unfold GoInt.incr. rewrite wrap64_add_l. f_equal. lia. Qed.

Ltac tally_step Ho :=
  repeat first
    [ rewrite tally_snoc_hit by (simpl; congruence)
    | rewrite tally_snoc_miss
        by (simpl; rewrite ?Ho; (left; congruence) || (right; congruence)) ].

Lemma accumulate_aggregates l :
  forall id,
    match fold_left step l ∅ !! id with
    | Some agg => aggregates id l agg
    | None => occurrences id l = 0%nat
    end.
Proof.
  induction l as [|[i t] l IH] using rev_ind; intros id.
  - simpl. rewrite lookup_empty. reflexivity.
  - rewrite fold_left_app. simpl. set (m := fold_left step l ∅) in *.
    unfold step at 1, classify.accumulate. simpl.
    destruct (decide (id = TestResult.TestID t)) as [->|Hne].
    + rewrite lookup_insert_eq. specialize (IH (TestResult.TestID t)).
      destruct (m !! TestResult.TestID t) as [agg|] eqn:Hm.
      * destruct IH as [Hid Hp Hf Hs Hd He Hseen].
        destruct (TestResult.Outcome t) eqn:Ho; constructor; simpl; tally_step Ho;
          rewrite ?occurrences_snoc, ?length_app, ?Hp, ?Hf, ?Hs, ?Hd, ?He, ?incr_wrap64_S; simpl;
          rewrite ?bool_decide_true by reflexivity;
          try assumption; try reflexivity; try lia; try (f_equal; lia).
      * pose proof (occurrences_tally (TestResult.TestID t) l) as Hocc.
        rewrite IH in Hocc.
        assert (Hp : tally (TestResult.TestID t) OutcomePass l = 0%nat) by lia.
        assert (Hf : tally (TestResult.TestID t) OutcomeFail l = 0%nat) by lia.
        assert (Hs : tally (TestResult.TestID t) OutcomeSkip l = 0%nat) by lia.
        destruct (TestResult.Outcome t) eqn:Ho; constructor; simpl; tally_step Ho;
          rewrite ?occurrences_snoc, ?Hp, ?Hf, ?Hs; simpl;
          rewrite ?bool_decide_true by reflexivity; try reflexivity; try lia.
    + rewrite lookup_insert_ne by congruence. specialize (IH id).
      assert (Hocc : occurrences id (l ++ [(i, t)]) = occurrences id l).
      { rewrite occurrences_snoc, bool_decide_false by (simpl; congruence). lia. }
      destruct (m !! id) as [agg|] eqn:Hm; [|congruence].
      destruct IH as [Hid Hp Hf Hs Hd He Hseen].
      constructor; rewrite ?Hocc, ?tally_snoc_miss by (left; simpl; congruence); assumption.
Qed.

(** ** Aggregation: the tests [Aggregate] returns *)

Lemma Aggregate_in_order_elem runs order t :
  t ∈ classify.Aggregate_in_order runs order <->
  runs <> [] /\
  exists agg, agg ∈ order /\
    t = classify.buildAggregatedTest agg (Z.of_nat (length runs)).
Proof.
  unfold classify.Aggregate_in_order. destruct runs as [|run runs].
  - split; [intros H; inversion H|intros [H _]; congruence].
  - unfold classify.sortAggregatedTests. rewrite Slice_elem_of, list_elem_of_fmap.
    split.
    + intros (agg & -> & Hin). split; [discriminate|]. eauto.
    + intros (_ & agg & Hin & ->). eauto.
Qed.

Lemma Aggregate_elem runs t :
  t ∈ classify.Aggregate runs <->
  runs <> [] /\
  exists id agg, classify.accumulate_runs runs !! id = Some agg /\
    t = classify.buildAggregatedTest agg (Z.of_nat (length runs)).
Proof.
  unfold classify.Aggregate. rewrite Aggregate_in_order_elem.
  split; intros (Hne & H); (split; [assumption|]).
  - destruct H as (agg & Hin & ->).
    apply list_elem_of_fmap in Hin as ([id agg'] & -> & Hin).
    apply elem_of_map_to_list in Hin. eauto.
  - destruct H as (id & agg & Hm & ->). exists agg. split; [|reflexivity].
    apply list_elem_of_fmap. exists (id, agg). split; [reflexivity|].
    apply elem_of_map_to_list. assumption.
Qed.

Lemma countable_wrap runs n :
  countable runs -> (n <= length (all_tests runs))%nat ->
  GoInt.wrap64 (Z.of_nat n) = Z.of_nat n.
Proof.
  unfold countable. intros Hc Hn. apply wrap64_small.
  unfold GoInt.in_int64, GoInt.min_int64, GoInt.max_int64. lia.
Qed.

(** The counts of an aggregated test, in a session the counters can count. *)
Lemma Aggregate_counts runs t :
  countable runs -> t ∈ classify.Aggregate runs ->
  let l := all_tests runs in
  let id := AggregatedTest.TestID t in
  AggregatedTest.PassCount t = Z.of_nat (tally id OutcomePass l) /\
  AggregatedTest.FailCount t = Z.of_nat (tally id OutcomeFail l) /\
  AggregatedTest.SkipCount t = Z.of_nat (tally id OutcomeSkip l) /\
  AggregatedTest.TotalRuns t = AggregatedTest.PassCount t + AggregatedTest.FailCount t /\
  length (AggregatedTest.FailureEvidence t) = tally id OutcomeFail l /\
  (0 < occurrences id l)%nat.
Proof.
  intros Hc Hin. apply Aggregate_elem in Hin as (Hne & id & agg & Hm & ->).
  rewrite accumulate_runs_flat in Hm.
  pose proof (accumulate_aggregates (all_tests runs) id) as Hagg. rewrite Hm in Hagg.
  destruct Hagg as [Hid Hp Hf Hs Hd He Hseen]. simpl. rewrite Hid.
  pose proof (occurrences_tally id (all_tests runs)) as Hocc.
  pose proof (occurrences_le id (all_tests runs)) as Hle.
  rewrite (countable_wrap runs) in Hp, Hf, Hs by (assumption || lia).
  rewrite Hp, Hf, Hs, Slice_length. repeat split; try assumption.
  unfold GoInt.add. rewrite <- Nat2Z.inj_add. apply (countable_wrap runs); [assumption|lia].
Qed.

Lemma classify_spec pass fail :
  0 <= pass -> 0 <= fail ->
  let c := classify.classify pass fail (pass + fail) in
  (c = ClassificationFlaky <-> 1 <= pass /\ 1 <= fail) /\
  (c = ClassificationDeterministicFail <-> fail = pass + fail /\ 0 < pass + fail) /\
  (c = ClassificationStable <->
     ~ (1 <= pass /\ 1 <= fail) /\ ~ (fail = pass + fail /\ 0 < pass + fail)).
Proof.
  intros Hp Hf. unfold classify.classify. simpl.
  destruct (Z.eqb_spec (pass + fail) 0) as [H0|H0].
  { repeat split; try discriminate; intros; lia. }
  destruct (Z.leb_spec 1 pass), (Z.leb_spec 1 fail); simpl;
    try (repeat split; try discriminate; intros; lia).
  all: destruct (Z.eqb_spec fail (pass + fail));
    repeat split; try discriminate; intros; lia.
Qed.

(** C1.  Every test that [Aggregate] returns carries exactly one of the
    three classifications (they are the three constructors of
    [Classification]); it is Flaky iff it passed and failed at least once,
    DeterministicFail iff its failures are all of its non-skip runs and there
    is at least one, and Stable in every other case, the case of no non-skip
    run included. *)
Theorem classification_total_and_exclusive runs t :
  countable runs -> t ∈ classify.Aggregate runs ->
  let pass := AggregatedTest.PassCount t in
  let fail := AggregatedTest.FailCount t in
  let total := AggregatedTest.TotalRuns t in
  let c := AggregatedTest.Classification t in
  total = pass + fail /\
  (c = ClassificationFlaky <-> 1 <= pass /\ 1 <= fail) /\
  (c = ClassificationDeterministicFail <-> fail = total /\ 0 < total) /\
  (c = ClassificationStable <->
     ~ (1 <= pass /\ 1 <= fail) /\ ~ (fail = total /\ 0 < total)) /\
  (total = 0 -> c = ClassificationStable) /\
  ~ ((1 <= pass /\ 1 <= fail) /\ (fail = total /\ 0 < total)).
Proof.
  intros Hc Hin. pose proof (Aggregate_counts runs t Hc Hin) as (Hp & Hf & _ & Ht & _).
  simpl in *.
  apply Aggregate_elem in Hin as (_ & id & agg & _ & ->). simpl in *.
  rewrite Ht.
  pose proof (classify_spec (classify.passCount agg) (classify.failCount agg)
                ltac:(lia) ltac:(lia)) as (HF & HD & HS).
  simpl in *. split; [reflexivity|]. split; [exact HF|]. split; [exact HD|].
  split; [exact HS|]. split; [|lia].
  intros H0. apply HS. lia.
Qed.

(** The flaky test [b.js::test2] of [classify_test.multiple_runs]. *)
Definition multiple_runs_first : AggregatedTest.t :=
  Eval vm_compute in
    nth 0 (classify.Aggregate classify_test.multiple_runs)
      (AggregatedTest.mk "" 0 0 0 0 0 ClassificationStable 0%float 0 []).

Lemma multiple_runs_countable : countable classify_test.multiple_runs.
Proof. vm_compute. reflexivity. Defined.

Lemma multiple_runs_first_elem :
  multiple_runs_first ∈ classify.Aggregate classify_test.multiple_runs.
Proof. vm_compute. apply list_elem_of_here. Defined.

Lemma classification_total_and_exclusive_witness :
  let t := multiple_runs_first in
  AggregatedTest.TotalRuns t = AggregatedTest.PassCount t + AggregatedTest.FailCount t /\
  (AggregatedTest.Classification t = ClassificationFlaky <->
     1 <= AggregatedTest.PassCount t /\ 1 <= AggregatedTest.FailCount t) /\
  (AggregatedTest.Classification t = ClassificationDeterministicFail <->
     AggregatedTest.FailCount t = AggregatedTest.TotalRuns t /\ 0 < AggregatedTest.TotalRuns t) /\
  (AggregatedTest.Classification t = ClassificationStable <->
     ~ (1 <= AggregatedTest.PassCount t /\ 1 <= AggregatedTest.FailCount t) /\
     ~ (AggregatedTest.FailCount t = AggregatedTest.TotalRuns t /\ 0 < AggregatedTest.TotalRuns t)) /\
  (AggregatedTest.TotalRuns t = 0 -> AggregatedTest.Classification t = ClassificationStable) /\
  ~ ((1 <= AggregatedTest.PassCount t /\ 1 <= AggregatedTest.FailCount t) /\
     (AggregatedTest.FailCount t = AggregatedTest.TotalRuns t /\ 0 < AggregatedTest.TotalRuns t)).
Proof.
  exact (classification_total_and_exclusive classify_test.multiple_runs
           multiple_runs_first multiple_runs_countable multiple_runs_first_elem).
Defined.

(** ** Counts and occurrences *)

Lemma occurrences_app id l1 l2 :
  occurrences id (l1 ++ l2) = (occurrences id l1 + occurrences id l2)%nat.
Proof. unfold occurrences. rewrite filter_app, length_app. reflexivity. Qed.

Lemma occurrences_run_zero id i tests :
  id ∉ map TestResult.TestID tests -> occurrences id (map (pair i) tests) = 0%nat.
Proof.
  unfold occurrences. induction tests as [|t tests IH]; intros Hnin; [reflexivity|].
  simpl in Hnin. apply not_elem_of_cons in Hnin as [Hne Hnin].
  simpl. rewrite filter_cons. case_decide; simpl in *; [congruence|auto].
Qed.

(** A run that lists no identity twice adds at most one result per test. *)
Lemma occurrences_run id i tests :
  NoDup (map TestResult.TestID tests) ->
  occurrences id (map (pair i) tests) =
  if bool_decide (id ∈ map TestResult.TestID tests) then 1%nat else 0%nat.
Proof.
  induction tests as [|t tests IH]; intros Hnd.
  - rewrite bool_decide_false; [reflexivity|]. simpl. apply not_elem_of_nil.
  - simpl in Hnd. apply NoDup_cons in Hnd as [Hnin Hnd].
    change (map (pair i) (t :: tests)) with ([(i, t)] ++ map (pair i) tests).
    rewrite occurrences_app. unfold occurrences at 1.
    rewrite filter_cons, filter_nil. simpl.
    destruct (decide (TestResult.TestID t = id)) as [Heq|Hne].
    + subst id. rewrite occurrences_run_zero by assumption.
      rewrite bool_decide_true by left. reflexivity.
    + rewrite IH by assumption. simpl.
      case_bool_decide as H1; case_bool_decide as H2; try reflexivity.
      * exfalso. apply H2. right. assumption.
      * exfalso. apply elem_of_cons in H2 as [H2|H2]; [congruence|tauto].
Qed.

Lemma occurrences_runs_with id runs :
  Forall (fun run => NoDup (map TestResult.TestID (RunResult.Tests run))) runs ->
  occurrences id (all_tests runs) = runs_with id runs.
Proof.
  unfold runs_with, all_tests. induction 1 as [|run runs Hnd _ IH]; [reflexivity|].
  simpl. rewrite occurrences_app, IH, occurrences_run by assumption.
  rewrite filter_cons. case_bool_decide; case_decide; simpl; tauto || lia.
Qed.

Lemma Aggregate_has_test runs id :
  (0 < occurrences id (all_tests runs))%nat ->
  exists t, t ∈ classify.Aggregate runs /\ AggregatedTest.TestID t = id.
Proof.
  intros Hocc.
  pose proof (accumulate_aggregates (all_tests runs) id) as Hagg.
  rewrite <- accumulate_runs_flat in Hagg.
  destruct (classify.accumulate_runs runs !! id) as [agg|] eqn:Hm; [|lia].
  exists (classify.buildAggregatedTest agg (Z.of_nat (length runs))). split.
  - apply Aggregate_elem. split; [|eauto].
    intros ->. simpl in Hocc. unfold occurrences in Hocc. simpl in Hocc. lia.
  - simpl. apply Hagg.
Qed.

Lemma Aggregate_test_unique runs t t' :
  t ∈ classify.Aggregate runs -> t' ∈ classify.Aggregate runs ->
  AggregatedTest.TestID t = AggregatedTest.TestID t' -> t = t'.
Proof.
  intros (_ & id & agg & Hm & ->)%Aggregate_elem (_ & id' & agg' & Hm' & ->)%Aggregate_elem.
  simpl. intros Heq.
  pose proof (accumulate_aggregates (all_tests runs) id) as Hagg.
  pose proof (accumulate_aggregates (all_tests runs) id') as Hagg'.
  rewrite <- accumulate_runs_flat in Hagg, Hagg'. rewrite Hm in Hagg. rewrite Hm' in Hagg'.
  destruct Hagg as [Hid _ _ _ _ _ _], Hagg' as [Hid' _ _ _ _ _ _].
  assert (id = id') by congruence. subst id'. congruence.
Qed.

(** C5, as the code has it.  Every identity that appears in the session has
    one aggregate, and its pass, fail and skip counts add up to the number of
    test results that carry the identity.  That is the number of runs in
    which the identity appears whenever no run lists an identity twice. *)
Theorem counts_add_up_to_occurrences runs id :
  countable runs -> (0 < occurrences id (all_tests runs))%nat ->
  exists t,
    t ∈ classify.Aggregate runs /\ AggregatedTest.TestID t = id /\
    (forall t', t' ∈ classify.Aggregate runs -> AggregatedTest.TestID t' = id -> t' = t) /\
    AggregatedTest.PassCount t + AggregatedTest.FailCount t + AggregatedTest.SkipCount t
      = Z.of_nat (occurrences id (all_tests runs)) /\
    (Forall (fun run => NoDup (map TestResult.TestID (RunResult.Tests run))) runs ->
     AggregatedTest.PassCount t + AggregatedTest.FailCount t + AggregatedTest.SkipCount t
       = Z.of_nat (runs_with id runs)).
Proof.
  intros Hc Hocc. destruct (Aggregate_has_test runs id Hocc) as (t & Hin & Hid).
  exists t. split; [assumption|]. split; [assumption|].
  split. { intros t' Hin' Hid'. apply (Aggregate_test_unique runs); congruence. }
  pose proof (Aggregate_counts runs t Hc Hin) as (Hp & Hf & Hs & _). simpl in *.
  rewrite Hid in *.
  assert (Hsum : AggregatedTest.PassCount t + AggregatedTest.FailCount t
                 + AggregatedTest.SkipCount t = Z.of_nat (occurrences id (all_tests runs))).
  { rewrite occurrences_tally. lia. }
  split; [assumption|]. intros Hnd. rewrite <- occurrences_runs_with; assumption.
Qed.

(** A run in which one identity is listed twice, as the jest adapter returns
    for two tests of one file that share their full name. *)
Definition duplicate_runs : list RunResult.t :=
  [ RunResult.mk 1
      [ TestResult.mk "a.test.js::t" OutcomeFail 0 "";
        TestResult.mk "a.test.js::t" OutcomePass 0 "" ] "" ].

Lemma duplicate_runs_countable : countable duplicate_runs.
Proof. vm_compute. reflexivity. Defined.

Lemma duplicate_runs_occurs : (0 < occurrences "a.test.js::t" (all_tests duplicate_runs))%nat.
Proof. vm_compute. lia. Defined.

Lemma counts_add_up_to_occurrences_witness :
  exists t,
    t ∈ classify.Aggregate duplicate_runs /\ AggregatedTest.TestID t = "a.test.js::t"%string /\
    (forall t', t' ∈ classify.Aggregate duplicate_runs ->
                AggregatedTest.TestID t' = "a.test.js::t"%string -> t' = t) /\
    AggregatedTest.PassCount t + AggregatedTest.FailCount t + AggregatedTest.SkipCount t
      = Z.of_nat (occurrences "a.test.js::t" (all_tests duplicate_runs)) /\
    (Forall (fun run => NoDup (map TestResult.TestID (RunResult.Tests run))) duplicate_runs ->
     AggregatedTest.PassCount t + AggregatedTest.FailCount t + AggregatedTest.SkipCount t
       = Z.of_nat (runs_with "a.test.js::t" duplicate_runs)).
Proof.
  exact (counts_add_up_to_occurrences duplicate_runs "a.test.js::t"
           duplicate_runs_countable duplicate_runs_occurs).
Defined.

(** C5 as stated fails: in [duplicate_runs] the identity appears in one run
    and its counts add up to two. *)
Lemma counts_are_not_runs :
  ~ (forall runs t, countable runs -> t ∈ classify.Aggregate runs ->
       AggregatedTest.PassCount t + AggregatedTest.FailCount t + AggregatedTest.SkipCount t
       = Z.of_nat (runs_with (AggregatedTest.TestID t) runs)).
Proof.
  intros H.
  destruct (Aggregate_has_test duplicate_runs "a.test.js::t" duplicate_runs_occurs)
    as (t & Hin & Hid).
  specialize (H duplicate_runs t duplicate_runs_countable Hin).
  pose proof (Aggregate_counts duplicate_runs t duplicate_runs_countable Hin)
    as (Hp & Hf & Hs & _).
  simpl in *. rewrite Hid in *. rewrite Hp, Hf, Hs in H. vm_compute in H. discriminate.
Qed.

(** ** The signature summary *)

(** The sum of a list of integers. *)
Definition Zsum (l : list Z) : Z := foldr Z.add 0 l.

(** The sum of the counts of a summary. *)
Definition summary_total (summary : gmap string Z) : Z :=
  Zsum (map snd (map_to_list summary)).

(** All the evidence of a list of aggregated tests. *)
Definition all_evidence (tests : list AggregatedTest.t) : list FailureEvidence.t :=
  concat (map AggregatedTest.FailureEvidence tests).

Lemma Zsum_app l1 l2 : Zsum (l1 ++ l2) = Zsum l1 + Zsum l2.
Proof. unfold Zsum. induction l1 as [|x l1 IH]; simpl; lia. Qed.

Lemma Zsum_Permutation l1 l2 : Permutation l1 l2 -> Zsum l1 = Zsum l2.
Proof. unfold Zsum. induction 1; simpl; lia. Qed.

Lemma summary_total_empty : summary_total ∅ = 0.
Proof. unfold summary_total. rewrite map_to_list_empty. reflexivity. Qed.

Lemma summary_total_insert_fresh (m : gmap string Z) k v :
  m !! k = None -> summary_total (<[k := v]> m) = v + summary_total m.
Proof.
  intros Hk. unfold summary_total.
  rewrite (Zsum_Permutation _ (map snd ((k, v) :: map_to_list m))); [reflexivity|].
  apply Permutation_map, map_to_list_insert. assumption.
Qed.

Lemma summary_total_insert (m : gmap string Z) k v :
  summary_total (<[k := v]> m) = v + summary_total m - default 0 (m !! k).
Proof.
  destruct (m !! k) as [v0|] eqn:Hk; simpl.
  - rewrite <- (insert_delete_eq m k v).
    rewrite summary_total_insert_fresh by apply lookup_delete_eq.
    rewrite <- (insert_delete_id m k v0 Hk) at 2.
    rewrite summary_total_insert_fresh by apply lookup_delete_eq. lia.
  - rewrite summary_total_insert_fresh by assumption. lia.
Qed.

(** Counting [n] keys one at a time, [n] below [2^63], leaves a summary
    whose counts are between [0] and [n] and add up to [n]. *)
Lemma bump_total keys :
  Z.of_nat (length keys) < 2 ^ 63 ->
  let m := fold_left classify.bump keys ∅ in
  summary_total m = Z.of_nat (length keys) /\
  forall k v, m !! k = Some v -> 0 <= v <= Z.of_nat (length keys).
Proof.
  induction keys as [|k keys IH] using rev_ind; intros Hlen; simpl.
  - split; [apply summary_total_empty|]. intros k v. rewrite lookup_empty. discriminate.
  - rewrite length_app in Hlen |- *. simpl in *.
    destruct IH as [Htot Hrange]; [lia|].
    rewrite fold_left_app. simpl. set (m := fold_left classify.bump keys ∅) in *.
    unfold classify.bump.
    assert (Hv : 0 <= default 0 (m !! k) <= Z.of_nat (length keys)).
    { destruct (m !! k) as [v|] eqn:Hk; simpl; [eauto|lia]. }
    assert (Hincr : GoInt.incr (default 0 (m !! k)) = default 0 (m !! k) + 1).
    { apply wrap64_small. unfold GoInt.in_int64, GoInt.min_int64, GoInt.max_int64. lia. }
    rewrite Hincr. split.
    + rewrite summary_total_insert. lia.
    + intros k' v'. destruct (decide (k = k')) as [->|Hne].
      * rewrite lookup_insert_eq. intros [= <-]. lia.
      * rewrite lookup_insert_ne by assumption. intros Hk'.
        specialize (Hrange k' v' Hk'). lia.
Qed.

Lemma SignatureSummary_flat tests :
  classify.SignatureSummary tests =
  fold_left classify.bump
    (map (fun ev => FailureSignature_string (FailureEvidence.Signature ev))
         (all_evidence tests)) ∅.
Proof.
  unfold classify.SignatureSummary, all_evidence. generalize (∅ : gmap string Z).
  induction tests as [|t tests IH]; intros m; simpl; [reflexivity|].
  rewrite map_app, fold_left_app, IH. f_equal.
  generalize (AggregatedTest.FailureEvidence t) as evs. clear. intros evs. revert m.
  induction evs as [|ev evs IH]; intros m; simpl; [reflexivity|]. apply IH.
Qed.

(** The identities of the aggregated tests are pairwise distinct. *)
Lemma Aggregate_in_order_NoDup runs order :
  NoDup (map classify.testID order) ->
  NoDup (map AggregatedTest.TestID (classify.Aggregate_in_order runs order)).
Proof.
  intros Hnd. unfold classify.Aggregate_in_order. destruct runs; [constructor|].
  unfold classify.sortAggregatedTests.
  rewrite (Permutation_map _ (Slice_Permutation _ _)).
  rewrite map_map. simpl. assumption.
Qed.

Lemma accumulate_runs_keys runs :
  map classify.testID (map snd (map_to_list (classify.accumulate_runs runs)))
  = map fst (map_to_list (classify.accumulate_runs runs)).
Proof.
  rewrite map_map. apply map_ext_in. intros [id agg] Hin%list_elem_of_In.
  apply elem_of_map_to_list in Hin. simpl.
  pose proof (accumulate_aggregates (all_tests runs) id) as Hagg.
  rewrite <- accumulate_runs_flat, Hin in Hagg. apply Hagg.
Qed.

Lemma Aggregate_NoDup runs :
  NoDup (map AggregatedTest.TestID (classify.Aggregate runs)).
Proof.
  apply Aggregate_in_order_NoDup. rewrite accumulate_runs_keys.
  apply NoDup_fst_map_to_list.
Qed.

(** Distinct identities share no test result. *)
Lemma occurrences_NoDup_le ids l :
  NoDup ids -> (Zsum (map (fun id => Z.of_nat (occurrences id l)) ids) <= Z.of_nat (length l)).
Proof.
  intros Hnd. induction l as [|p l IH] using rev_ind.
  - unfold occurrences. simpl. induction ids; simpl; [lia|].
    apply NoDup_cons in Hnd as [_ Hnd]. specialize (IHids Hnd). unfold Zsum in *. simpl. lia.
  - rewrite length_app. simpl.
    assert (Hstep : Zsum (map (fun id => Z.of_nat (occurrences id (l ++ [p]))) ids)
                    <= Zsum (map (fun id => Z.of_nat (occurrences id l)) ids) + 1);
      [|lia].
    clear IH. induction ids as [|id ids IHids]; [simpl; lia|].
    apply NoDup_cons in Hnd as [Hnin Hnd]. specialize (IHids Hnd).
    unfold Zsum in *. simpl. rewrite occurrences_snoc.
    case_bool_decide as Hid; [|lia].
    assert (Hrest : foldr Z.add 0 (map (fun id => Z.of_nat (occurrences id (l ++ [p]))) ids)
                    = foldr Z.add 0 (map (fun id => Z.of_nat (occurrences id l)) ids)).
    { f_equal. apply map_ext_in. intros id' Hin%list_elem_of_In.
      rewrite occurrences_snoc, bool_decide_false; [f_equal; lia|].
      intros Heq. apply Hnin. congruence. }
    lia.
Qed.

Lemma evidence_counts runs tests :
  countable runs -> Forall (fun t => t ∈ classify.Aggregate runs) tests ->
  Z.of_nat (length (all_evidence tests)) = Zsum (map AggregatedTest.FailCount tests) /\
  Z.of_nat (length (all_evidence tests))
    <= Zsum (map (fun id => Z.of_nat (occurrences id (all_tests runs)))
                 (map AggregatedTest.TestID tests)).
Proof.
  intros Hc. unfold all_evidence. induction 1 as [|t tests Hin _ IH]; [simpl; lia|].
  pose proof (Aggregate_counts runs t Hc Hin) as (_ & Hf & _ & _ & He & _). simpl in *.
  pose proof (occurrences_tally (AggregatedTest.TestID t) (all_tests runs)).
  rewrite length_app, He, Hf. unfold Zsum in *. simpl. lia.
Qed.

(** C10.  The counts of the signature summary of what [Aggregate] returns
    add up to the number of evidence entries of all tests, which is the sum
    of the fail counts of all tests. *)
Theorem signature_summary_conserves_failures runs :
  countable runs ->
  let tests := classify.Aggregate runs in
  summary_total (classify.SignatureSummary tests) = Z.of_nat (length (all_evidence tests)) /\
  Z.of_nat (length (all_evidence tests)) = Zsum (map AggregatedTest.FailCount tests).
Proof.
  intros Hc tests.
  assert (Hall : Forall (fun t => t ∈ classify.Aggregate runs) tests)
    by (apply Forall_forall; auto).
  destruct (evidence_counts runs tests Hc Hall) as [Hfail Hle].
  split; [|assumption].
  rewrite SignatureSummary_flat.
  pose proof (occurrences_NoDup_le (map AggregatedTest.TestID tests) (all_tests runs)
                (Aggregate_NoDup runs)) as Hocc.
  unfold countable in Hc.
  edestruct (bump_total
               (map (fun ev => FailureSignature_string (FailureEvidence.Signature ev))
                    (all_evidence tests))) as [Htot _].
  - rewrite length_map. lia.
  - rewrite Htot, length_map. reflexivity.
Qed.

Lemma signature_summary_conserves_failures_witness :
  let tests := classify.Aggregate classify_test.multiple_runs in
  summary_total (classify.SignatureSummary tests) = Z.of_nat (length (all_evidence tests)) /\
  Z.of_nat (length (all_evidence tests)) = Zsum (map AggregatedTest.FailCount tests).
Proof.
  exact (signature_summary_conserves_failures classify_test.multiple_runs
           multiple_runs_countable).
Defined.

Example TestSignatureSummary_multiple :
  map_to_list (classify.SignatureSummary (classify.Aggregate classify_test.multiple_runs))
  ≡ₚ [("TIMEOUT", 1); ("ASSERTION", 2)]%string.
Proof. vm_compute. apply perm_swap || reflexivity. Qed.

(** ** Wasted time *)

(** C2.  For every test that [Aggregate] returns from the runs [runs]:
    its flake rate is [failCount / (passCount + failCount)], and [0] when the
    denominator is [0]; when it is Flaky its wasted time is the product
    [flakeRate * averageDuration * N], [N] the number of runs given to
    [Aggregate], computed in [float64] and truncated to a [time.Duration];
    when it is Stable or DeterministicFail its wasted time is [0]. *)
Theorem wasted_time_only_when_flaky runs t :
  countable runs -> t ∈ classify.Aggregate runs ->
  let N := Z.of_nat (length runs) in
  let denominator := AggregatedTest.PassCount t + AggregatedTest.FailCount t in
  AggregatedTest.FlakeRate t =
    (if denominator =? 0 then 0%float
     else (GoFloat.of_int (AggregatedTest.FailCount t) / GoFloat.of_int denominator)%float) /\
  (AggregatedTest.Classification t = ClassificationFlaky ->
   AggregatedTest.WastedTime t =
     GoFloat.to_int64 (AggregatedTest.FlakeRate t
                       * GoFloat.of_int (AggregatedTest.AvgDuration t)
                       * GoFloat.of_int N)%float) /\
  (AggregatedTest.Classification t <> ClassificationFlaky ->
   AggregatedTest.WastedTime t = 0).
Proof.
  intros Hc Hin. pose proof (Aggregate_counts runs t Hc Hin) as (Hp & Hf & _ & Ht & _).
  simpl in *.
  apply Aggregate_elem in Hin as (_ & id & agg & _ & ->). simpl in *.
  rewrite Ht.
  set (pass := classify.passCount agg) in *. set (fail := classify.failCount agg) in *.
  assert (Hnn : 0 <= pass + fail) by lia.
  split; [|split].
  - destruct (Z.eqb_spec (pass + fail) 0) as [H0|H0].
    + rewrite H0. reflexivity.
    + destruct (Z.ltb_spec 0 (pass + fail)); [reflexivity|lia].
  - intros Hflaky. rewrite Hflaky.
    rewrite bool_decide_true by reflexivity. simpl.
    destruct (Z.ltb_spec 0 (pass + fail)) as [Hpos|Hz]; [reflexivity|].
    exfalso. assert (H0 : pass + fail = 0) by lia.
    unfold classify.classify in Hflaky. rewrite H0 in Hflaky. simpl in Hflaky. discriminate.
  - intros Hnot. rewrite bool_decide_false by assumption. reflexivity.
Qed.

Lemma wasted_time_only_when_flaky_witness :
  let t := multiple_runs_first in
  AggregatedTest.FlakeRate t =
    (if AggregatedTest.PassCount t + AggregatedTest.FailCount t =? 0 then 0%float
     else (GoFloat.of_int (AggregatedTest.FailCount t)
           / GoFloat.of_int (AggregatedTest.PassCount t + AggregatedTest.FailCount t))%float) /\
  (AggregatedTest.Classification t = ClassificationFlaky ->
   AggregatedTest.WastedTime t =
     GoFloat.to_int64 (AggregatedTest.FlakeRate t
                       * GoFloat.of_int (AggregatedTest.AvgDuration t)
                       * GoFloat.of_int (Z.of_nat (length classify_test.multiple_runs)))%float) /\
  (AggregatedTest.Classification t <> ClassificationFlaky ->
   AggregatedTest.WastedTime t = 0).
Proof.
  exact (wasted_time_only_when_flaky classify_test.multiple_runs
           multiple_runs_first multiple_runs_countable multiple_runs_first_elem).
Defined.

(** The flaky test of [classify_test.multiple_runs]: one failure in two
    runs of 200ms on average, two runs in the session. *)
Example wasted_time_multiple_runs :
  (AggregatedTest.Classification multiple_runs_first,
   AggregatedTest.WastedTime multiple_runs_first)
  = (ClassificationFlaky, classify_test.ms 200).
Proof. vm_compute. reflexivity. Qed.

(** ** Comparison of float64 numbers *)

(** A rank of the numbers among the floats: two numbers compare as their
    ranks do in the lexicographic order. *)
Definition SFrank (x : spec_float) : Z * Z * Z :=
  match x with
  | S754_zero _ | S754_nan => (0, 0, 0)
  | S754_infinity s => (if s then -2 else 2, 0, 0)
  | S754_finite s m e => if s then (-1, - e, Z.neg m) else (1, e, Z.pos m)
  end.

Definition rank_lt (a b : Z * Z * Z) : Prop :=
  a.1.1 < b.1.1 \/
  (a.1.1 = b.1.1 /\ (a.1.2 < b.1.2 \/ (a.1.2 = b.1.2 /\ a.2 < b.2))).

Lemma SFcompare_rank x y :
  x <> S754_nan -> y <> S754_nan ->
  exists c, SFcompare x y = Some c /\
    match c with
    | Lt => rank_lt (SFrank x) (SFrank y)
    | Eq => SFrank x = SFrank y
    | Gt => rank_lt (SFrank y) (SFrank x)
    end.
Proof.
  intros Hx Hy. unfold rank_lt.
  destruct x as [sx|sx| |sx mx ex], y as [sy|sy| |sy my ey]; try congruence;
    try destruct sx; try destruct sy; simpl; eexists; (split; [reflexivity|]);
    simpl; try reflexivity; try lia.
  - destruct (Z.compare_spec ex ey) as [->|Hlt|Hgt]; simpl; [|lia|lia].
    change (PosDef.Pos.compare_cont Eq mx my) with (Pos.compare mx my).
    destruct (Pos.compare_spec mx my) as [->|Hm|Hm]; simpl; [reflexivity|lia|lia].
  - destruct (Z.compare_spec ex ey) as [->|Hlt|Hgt]; simpl; [|lia|lia].
    change (PosDef.Pos.compare_cont Eq mx my) with (Pos.compare mx my).
    destruct (Pos.compare_spec mx my) as [->|Hm|Hm]; simpl; [reflexivity|lia|lia].
Qed.

Definition frank (x : float) : Z * Z * Z := SFrank (Prim2SF x).

Lemma float_ltb_rank x y :
  GoFloat.is_number x -> GoFloat.is_number y ->
  ((x <? y)%float = true <-> rank_lt (frank x) (frank y)).
Proof.
  intros Hx Hy. rewrite FloatAxioms.ltb_spec. unfold SFltb, frank.
  destruct (SFcompare_rank _ _ Hx Hy) as (c & -> & Hc).
  destruct c; split; intros H; try discriminate; try reflexivity; try assumption.
  - rewrite Hc in H. unfold rank_lt in H. lia.
  - unfold rank_lt in *. lia.
Qed.

Lemma float_eqb_rank x y :
  GoFloat.is_number x -> GoFloat.is_number y ->
  ((x =? y)%float = true <-> frank x = frank y).
Proof.
  intros Hx Hy. rewrite FloatAxioms.eqb_spec. unfold SFeqb, frank.
  destruct (SFcompare_rank _ _ Hx Hy) as (c & -> & Hc).
  destruct c; split; intros H; try discriminate; try reflexivity; try assumption.
  - rewrite H in Hc. unfold rank_lt in Hc. lia.
  - rewrite H in Hc. unfold rank_lt in Hc. lia.
Qed.

Lemma rank_trichotomy a b : rank_lt a b \/ a = b \/ rank_lt b a.
Proof.
  destruct a as [[a1 a2] a3], b as [[b1 b2] b3]. unfold rank_lt. simpl.
  destruct (Z.lt_trichotomy a1 b1) as [?|[->|?]]; [lia| |lia].
  destruct (Z.lt_trichotomy a2 b2) as [?|[->|?]]; [lia| |lia].
  destruct (Z.lt_trichotomy a3 b3) as [?|[->|?]]; [lia| |lia].
  right. left. reflexivity.
Qed.

Lemma rank_lt_irrefl a : ~ rank_lt a a.
Proof. unfold rank_lt. lia. Qed.

Lemma rank_lt_trans a b c : rank_lt a b -> rank_lt b c -> rank_lt a c.
Proof. unfold rank_lt. lia. Qed.

(** ** Rounding to float64 never invents a NaN *)

Lemma Zdigits2_log2 m : 0 < m -> Zdigits2 m = Z.log2 m + 1.
Proof.
  destruct m as [|p|p]; try lia. intros _. simpl.
  assert (Hsize : forall q, digits2_pos q = Pos.size q).
  { induction q; simpl; congruence. }
  rewrite Hsize. destruct p; simpl; lia.
Qed.

Lemma shr_1_m mrs : 0 <= shr_m mrs -> shr_m (shr_1 mrs) = shr_m mrs / 2.
Proof.
  destruct mrs as [m r s]. simpl. intros Hm.
  destruct m as [|p|p]; try lia; [reflexivity|].
  destruct p; simpl.
  - rewrite Pos2Z.inj_xI. apply Z.div_unique with 1; lia.
  - rewrite Pos2Z.inj_xO. apply Z.div_unique with 0; lia.
  - reflexivity.
Qed.

Lemma iter_shr_1_m p mrs :
  0 <= shr_m mrs -> shr_m (SpecFloat.iter_pos shr_1 p mrs) = shr_m mrs / 2 ^ Z.pos p.
Proof.
  revert mrs. induction p as [p IH|p IH|]; intros mrs Hm; simpl SpecFloat.iter_pos.
  - assert (H1 : 0 <= shr_m (shr_1 mrs)) by (rewrite shr_1_m by lia; apply Z.div_pos; lia).
    assert (H2 : 0 <= shr_m (SpecFloat.iter_pos shr_1 p (shr_1 mrs)))
      by (rewrite IH by lia; apply Z.div_pos; lia).
    rewrite IH, IH, shr_1_m by lia.
    rewrite !Z.div_div by lia. f_equal.
    rewrite Pos2Z.inj_xI, Z.pow_add_r, Z.pow_mul_r by lia.
    change (2 ^ 2) with 4. rewrite Z.pow_1_r.
    replace (2 ^ Z.pos p * 2 ^ Z.pos p) with ((2 ^ Z.pos p) ^ 2) by (rewrite Z.pow_2_r; lia).
    rewrite <- Z.pow_mul_r by lia. rewrite (Z.mul_comm (Z.pos p) 2), Z.pow_mul_r by lia.
    change (2 ^ 2) with 4. lia.
  - assert (H2 : 0 <= shr_m (SpecFloat.iter_pos shr_1 p mrs))
      by (rewrite IH by lia; apply Z.div_pos; lia).
    rewrite IH, IH by lia. rewrite Z.div_div by lia. f_equal.
    rewrite Pos2Z.inj_xO, <- Z.pow_add_r by lia. f_equal. lia.
  - rewrite shr_1_m by lia. reflexivity.
Qed.

Lemma shr_record_of_loc_m m l : shr_m (shr_record_of_loc m l) = m.
Proof. destruct l as [|[]]; reflexivity. Qed.

(** The mantissa and the exponent [shr_fexp] returns. *)
Lemma shr_fexp_m m e l mrs e' :
  0 <= m -> shr_fexp prec emax m e l = (mrs, e') ->
  (fexp prec emax (Zdigits2 m + e) - e <= 0 -> shr_m mrs = m /\ e' = e) /\
  (0 < fexp prec emax (Zdigits2 m + e) - e ->
   shr_m mrs = m / 2 ^ (fexp prec emax (Zdigits2 m + e) - e)
   /\ e' = e + (fexp prec emax (Zdigits2 m + e) - e)).
Proof.
  intros Hm. unfold shr_fexp, shr.
  generalize (fexp prec emax (Zdigits2 m + e) - e). intros n Heq.
  destruct n as [|p|p]; inversion Heq; subst; clear Heq.
  - split; [|lia]. intros _. rewrite shr_record_of_loc_m. auto.
  - split; [lia|]. intros _. rewrite iter_shr_1_m by (rewrite shr_record_of_loc_m; lia).
    rewrite shr_record_of_loc_m. auto.
  - split; [|lia]. intros _. rewrite shr_record_of_loc_m. auto.
Qed.

Lemma round_nearest_even_range m l :
  m <= round_nearest_even m l <= m + 1.
Proof.
  unfold round_nearest_even. destruct l as [|[]]; try lia.
  destruct (IntDef.Z.even m); lia.
Qed.

(** Rounding a non-negative mantissa gives a number. *)
Lemma binary_round_aux_number sx mx ex lx :
  0 <= mx -> binary_round_aux prec emax sx mx ex lx <> S754_nan.
Proof.
  intros Hm. unfold binary_round_aux.
  destruct (shr_fexp prec emax mx ex lx) as [mrs1 e1] eqn:H1.
  pose proof (shr_fexp_m mx ex lx mrs1 e1 Hm H1) as [H1a H1b]. simpl in H1a, H1b.
  assert (Hm1 : 0 <= shr_m mrs1).
  { destruct (Z_le_gt_dec (fexp prec emax (Zdigits2 mx + ex) - ex) 0) as [Hn|Hn].
    - destruct (H1a Hn) as [-> _]. assumption.
    - destruct (H1b ltac:(lia)) as [-> _]. apply Z.div_pos; [lia|]. apply Z.pow_pos_nonneg; lia. }
  pose proof (round_nearest_even_range (shr_m mrs1) (loc_of_shr_record mrs1)) as Hr.
  set (m2 := round_nearest_even (shr_m mrs1) (loc_of_shr_record mrs1)) in *.
  destruct (shr_fexp prec emax m2 e1 loc_Exact) as [mrs2 e2] eqn:H2.
  pose proof (shr_fexp_m m2 e1 loc_Exact mrs2 e2 ltac:(lia) H2) as [H2a H2b].
  simpl in H2a, H2b.
  assert (Hm2 : 0 <= shr_m mrs2).
  { destruct (Z_le_gt_dec (fexp prec emax (Zdigits2 m2 + e1) - e1) 0) as [Hn|Hn].
    - destruct (H2a Hn) as [-> _]. lia.
    - destruct (H2b ltac:(lia)) as [-> _]. apply Z.div_pos; [lia|]. apply Z.pow_pos_nonneg; lia. }
  destruct (shr_m mrs2) as [|p|p]; try lia; try discriminate.
  destruct (e2 <=? emax - prec); discriminate.
Qed.

Lemma div_pow2_log2 a n :
  0 < a -> 0 <= n <= Z.log2 a -> 0 < a / 2 ^ n /\ Z.log2 (a / 2 ^ n) = Z.log2 a - n.
Proof.
  intros Ha Hn. rewrite <- Z.shiftr_div_pow2 by lia. split.
  - assert (H0 : 0 <= Z.shiftr a n) by (apply Z.shiftr_nonneg; lia).
    assert (H1 : Z.shiftr a n <> 0) by (rewrite Z.shiftr_eq_0_iff; lia).
    lia.
  - rewrite Z.log2_shiftr by assumption. lia.
Qed.

(** Rounding a positive mantissa whose magnitude is within the range of
    float64 gives a finite, non-zero number. *)
Lemma binary_round_aux_finite sx mx ex lx :
  0 < mx -> -1074 < Zdigits2 mx + ex < 1024 -> ex <= 971 ->
  exists m e, binary_round_aux prec emax sx mx ex lx = S754_finite sx m e.
Proof.
  intros Hm HD Hex. unfold binary_round_aux.
  rewrite Zdigits2_log2 in HD by assumption.
  destruct (shr_fexp prec emax mx ex lx) as [mrs1 e1] eqn:H1.
  pose proof (shr_fexp_m mx ex lx mrs1 e1 ltac:(lia) H1) as [H1a H1b].
  rewrite Zdigits2_log2 in H1a, H1b by assumption.
  unfold fexp, SpecFloat.emin, prec, emax in H1a, H1b.
  change IntDef.Z.max with Z.max in *.
  set (m1 := shr_m mrs1) in *.
  assert (Hm1 : 0 < m1 /\ Z.log2 m1 + 1 + e1 = Z.log2 mx + 1 + ex /\ e1 <= 971).
  { destruct (Z_le_gt_dec (Z.max (Z.log2 mx + 1 + ex - 53) (3 - 1024 - 53) - ex) 0) as [Hn|Hn].
    - destruct (H1a Hn) as [-> ->]. lia.
    - destruct (H1b ltac:(lia)) as [-> ->].
      pose proof (Z.log2_nonneg mx).
      destruct (div_pow2_log2 mx (Z.max (Z.log2 mx + 1 + ex - 53) (3 - 1024 - 53) - ex))
        as [Hpos Hlog]; [assumption|lia|]. rewrite Hlog. lia. }
  destruct Hm1 as (Hm1 & HD1 & He1). clear H1a H1b H1.
  pose proof (round_nearest_even_range m1 (loc_of_shr_record mrs1)) as Hr.
  set (m2 := round_nearest_even m1 (loc_of_shr_record mrs1)) in *.
  assert (Hlog2 : Z.log2 m1 <= Z.log2 m2 <= Z.log2 m1 + 1).
  { split; [apply Z.log2_le_mono; lia|].
    transitivity (Z.log2 (Z.succ m1)); [apply Z.log2_le_mono; lia|].
    apply Z.log2_succ_le. }
  destruct (shr_fexp prec emax m2 e1 loc_Exact) as [mrs2 e2] eqn:H2.
  pose proof (shr_fexp_m m2 e1 loc_Exact mrs2 e2 ltac:(lia) H2) as [H2a H2b].
  rewrite Zdigits2_log2 in H2a, H2b by lia.
  unfold fexp, SpecFloat.emin, prec, emax in H2a, H2b.
  change IntDef.Z.max with Z.max in *.
  assert (Hm3 : 0 < shr_m mrs2 /\ e2 <= 971).
  { destruct (Z_le_gt_dec (Z.max (Z.log2 m2 + 1 + e1 - 53) (3 - 1024 - 53) - e1) 0) as [Hn|Hn].
    - destruct (H2a Hn) as [-> ->]. lia.
    - destruct (H2b ltac:(lia)) as [-> ->].
      pose proof (Z.log2_nonneg m2).
      destruct (div_pow2_log2 m2 (Z.max (Z.log2 m2 + 1 + e1 - 53) (3 - 1024 - 53) - e1))
        as [Hpos Hlog]; [lia|lia|]. lia. }
  destruct Hm3 as [Hm3 He2].
  destruct (shr_m mrs2) as [|p|p]; try lia.
  unfold prec, emax. destruct (Z.leb_spec e2 (1024 - 53)); [eauto|lia].
Qed.

(** The same for [binary_normalize] of an integer below [2^64]. *)
Lemma binary_normalize_finite z :
  z <> 0 -> Z.abs z < 2 ^ 64 ->
  exists m e, binary_normalize prec emax z 0 false = S754_finite (z <? 0) m e.
Proof.
  intros Hz Habs.
  assert (Hround : forall s p, Z.pos p < 2 ^ 64 ->
            exists m e, binary_round prec emax s p 0 = S754_finite s m e).
  { intros s p Hp. unfold binary_round.
    assert (Hd : Z.pos (digits2_pos p) = Z.log2 (Z.pos p) + 1)
      by (apply (Zdigits2_log2 (Z.pos p)); lia).
    assert (Hlog : 0 <= Z.log2 (Z.pos p) < 64).
    { split; [apply Z.log2_nonneg|]. apply Z.log2_lt_pow2; lia. }
    rewrite Hd. unfold shl_align, fexp, SpecFloat.emin, prec, emax.
    change IntDef.Z.max with Z.max.
    destruct (Z.max (Z.log2 (Z.pos p) + 1 + 0 - 53) (3 - 1024 - 53) - 0) as [|q|q] eqn:Hn.
    - apply binary_round_aux_finite; rewrite ?Zdigits2_log2; lia.
    - apply binary_round_aux_finite; rewrite ?Zdigits2_log2; lia.
    - assert (Hshift : Z.pos (PosDef.Pos.iter xO p q) = Z.pos p * 2 ^ Z.pos q).
      { change (PosDef.Pos.iter xO p q) with (shift_pos q p).
        rewrite shift_pos_correct, Z.pow_pos_fold. lia. }
      apply binary_round_aux_finite; rewrite ?Zdigits2_log2, ?Hshift; try lia.
      rewrite Z.log2_mul_pow2 by lia. lia. }
  destruct z as [|p|p]; [congruence| |]; simpl; apply Hround; lia.
Qed.

Lemma of_int_zero : Prim2SF (GoFloat.of_int 0) = S754_zero false.
Proof. vm_compute. reflexivity. Qed.

(** [float64(z)] of a non-zero [int] is a finite non-zero number. *)
Lemma of_int_finite z :
  GoInt.in_int64 z -> z <> 0 ->
  exists m e, Prim2SF (GoFloat.of_int z) = S754_finite (z <? 0) m e.
Proof.
  unfold GoInt.in_int64, GoInt.min_int64, GoInt.max_int64. intros Hr Hz.
  unfold GoFloat.of_int, GoInt.min_int64.
  destruct (Z.eqb_spec z (- 2 ^ 63)) as [->|Hmin].
  { vm_compute. eauto. }
  assert (HwB : wB = 2 ^ 63) by reflexivity.
  destruct (Z.ltb_spec z 0) as [Hneg|Hpos].
  - rewrite FloatAxioms.opp_spec, FloatAxioms.of_uint63_spec, Uint63.of_Z_spec, HwB, Z.mod_small by lia.
    destruct (binary_normalize_finite (- z)) as (m & e & ->); [lia|lia|].
    destruct (Z.ltb_spec (- z) 0); [lia|]. simpl. eauto.
  - rewrite FloatAxioms.of_uint63_spec, Uint63.of_Z_spec, HwB, Z.mod_small by lia.
    destruct (binary_normalize_finite z) as (m & e & ->); [lia|lia|].
    destruct (Z.ltb_spec z 0); [lia|]. eauto.
Qed.

Lemma SFdiv_finite_number sx mx ex sy my ey :
  SFdiv prec emax (S754_finite sx mx ex) (S754_finite sy my ey) <> S754_nan.
Proof.
  unfold SFdiv, SFdiv_core_binary.
  set (e' := IntDef.Z.min _ _). set (m' := match ex - ey - e' with 0 => _ | _ => _ end).
  assert (Hm' : 0 <= m').
  { unfold m'. destruct (ex - ey - e') as [|p|p] eqn:Hs; try lia.
    change IntDef.Z.shiftl with Z.shiftl. apply Z.shiftl_nonneg. lia. }
  change IntDef.Z.div_eucl with Z.div_eucl.
  destruct (Z.div_eucl m' (Z.pos my)) as [q r] eqn:Hdiv.
  apply binary_round_aux_number.
  assert (Hq : q = m' / Z.pos my) by (unfold Z.div; rewrite Hdiv; reflexivity).
  rewrite Hq. apply Z.div_pos; lia.
Qed.

(** The quotient of two [int]s converted to [float64] is a number when the
    divisor is not [0]. *)
Lemma of_int_div_number a b :
  GoInt.in_int64 a -> GoInt.in_int64 b -> b <> 0 ->
  GoFloat.is_number (GoFloat.of_int a / GoFloat.of_int b)%float.
Proof.
  intros Ha Hb Hb0. unfold GoFloat.is_number. rewrite FloatAxioms.div_spec. unfold SF64div.
  destruct (of_int_finite b Hb Hb0) as (mb & eb & ->).
  destruct (Z.eq_dec a 0) as [->|Ha0].
  - rewrite of_int_zero. simpl. discriminate.
  - destruct (of_int_finite a Ha Ha0) as (ma & ea & ->). apply SFdiv_finite_number.
Qed.

Lemma zero_number : GoFloat.is_number 0%float.
Proof. unfold GoFloat.is_number. vm_compute. discriminate. Qed.

(** ** The order of Go strings *)

Lemma ascii_compare_lt_trans a b c :
  Ascii.compare a b = Lt -> Ascii.compare b c = Lt -> Ascii.compare a c = Lt.
Proof. unfold Ascii.compare. rewrite !N.compare_lt_iff. lia. Qed.

Lemma string_compare_refl s : String.compare s s = Eq.
Proof.
  induction s as [|c s IH]; simpl; [reflexivity|].
  unfold Ascii.compare. rewrite N.compare_refl. assumption.
Qed.

Lemma string_compare_lt_trans s1 s2 s3 :
  String.compare s1 s2 = Lt -> String.compare s2 s3 = Lt -> String.compare s1 s3 = Lt.
Proof.
  revert s2 s3. induction s1 as [|c1 s1 IH]; intros [|c2 s2] [|c3 s3]; simpl;
    try discriminate; try reflexivity.
  destruct (Ascii.compare c1 c2) eqn:H12; try discriminate;
    destruct (Ascii.compare c2 c3) eqn:H23; try discriminate; intros Ha Hb.
  - apply Ascii.compare_eq_iff in H12, H23. subst.
    unfold Ascii.compare. rewrite N.compare_refl. eauto.
  - apply Ascii.compare_eq_iff in H12. subst. rewrite H23. reflexivity.
  - apply Ascii.compare_eq_iff in H23. subst. rewrite H12. reflexivity.
  - rewrite (ascii_compare_lt_trans c1 c2 c3) by assumption. reflexivity.
Qed.

Lemma string_lt_irrefl s : GoStrings.lt s s = false.
Proof. unfold GoStrings.lt, String.ltb. rewrite string_compare_refl. reflexivity. Qed.

Lemma string_lt_trans s1 s2 s3 :
  GoStrings.lt s1 s2 = true -> GoStrings.lt s2 s3 = true -> GoStrings.lt s1 s3 = true.
Proof.
  unfold GoStrings.lt, String.ltb.
  destruct (String.compare s1 s2) eqn:H12; try discriminate.
  destruct (String.compare s2 s3) eqn:H23; try discriminate.
  rewrite (string_compare_lt_trans s1 s2 s3) by assumption. reflexivity.
Qed.

Lemma string_lt_total s1 s2 :
  s1 <> s2 -> GoStrings.lt s1 s2 = true \/ GoStrings.lt s2 s1 = true.
Proof.
  intros Hne. unfold GoStrings.lt, String.ltb.
  rewrite (String.compare_antisym s2 s1).
  destruct (String.compare s1 s2) eqn:H12; simpl; auto.
  apply String.compare_eq_iff in H12. contradiction.
Qed.

Lemma string_lt_strict_total (P : string -> Prop) : strict_total_on GoStrings.lt P.
Proof.
  constructor.
  - intros. apply string_lt_irrefl.
  - intros a b c _ _ _. apply string_lt_trans.
  - intros a b _ _. apply string_lt_total.
Qed.

(** ** The ranking of aggregated tests *)

(** The order of the claim, key by key: wasted time descending, then flake
    rate descending, then fail count descending, then identity ascending. *)
Definition ranks_before (a b : AggregatedTest.t) : Prop :=
  AggregatedTest.WastedTime a > AggregatedTest.WastedTime b \/
  (AggregatedTest.WastedTime a = AggregatedTest.WastedTime b /\
   ((AggregatedTest.FlakeRate b <? AggregatedTest.FlakeRate a)%float = true \/
    ((AggregatedTest.FlakeRate a =? AggregatedTest.FlakeRate b)%float = true /\
     (AggregatedTest.FailCount a > AggregatedTest.FailCount b \/
      (AggregatedTest.FailCount a = AggregatedTest.FailCount b /\
       GoStrings.lt (AggregatedTest.TestID a) (AggregatedTest.TestID b) = true))))).

(** A list of tests as [Aggregate] builds them: identities pairwise distinct,
    flake rates that are numbers. *)
Definition rankable (l : list AggregatedTest.t) : Prop :=
  NoDup (map AggregatedTest.TestID l) /\
  Forall (fun t => GoFloat.is_number (AggregatedTest.FlakeRate t)) l.

Lemma less_ranks_before a b :
  GoFloat.is_number (AggregatedTest.FlakeRate a) ->
  GoFloat.is_number (AggregatedTest.FlakeRate b) ->
  (classify.less a b = true <-> ranks_before a b).
Proof.
  intros Ha Hb. unfold classify.less, ranks_before, GoFloat.neq, GoFloat.gt.
  pose proof (float_ltb_rank _ _ Hb Ha) as Hlt.
  pose proof (float_eqb_rank _ _ Ha Hb) as Heq.
  destruct (Z.eqb_spec (AggregatedTest.WastedTime a) (AggregatedTest.WastedTime b)) as [Hw|Hw];
    simpl.
  2: { rewrite Z.ltb_lt. lia. }
  destruct ((AggregatedTest.FlakeRate a =? AggregatedTest.FlakeRate b)%float) eqn:Hfr; simpl.
  - assert (Hnlt : (AggregatedTest.FlakeRate b <? AggregatedTest.FlakeRate a)%float = false).
    { destruct (AggregatedTest.FlakeRate b <? AggregatedTest.FlakeRate a)%float eqn:H;
        [|reflexivity].
      apply proj1 in Hlt. specialize (Hlt eq_refl). apply proj1 in Heq.
      rewrite (Heq eq_refl) in Hlt. apply rank_lt_irrefl in Hlt. contradiction. }
    rewrite Hnlt.
    destruct (Z.eqb_spec (AggregatedTest.FailCount a) (AggregatedTest.FailCount b)) as [Hf|Hf];
      simpl.
    + split; [intros H; right; split; [assumption|]; right; split; [reflexivity|];
              right; split; assumption|].
      intros [?|[_ [?|[_ [?|[_ ?]]]]]]; try lia; try discriminate; assumption.
    + rewrite Z.ltb_lt. split; [intros H; right; split; [assumption|]; right;
                                split; [reflexivity|]; left; lia|].
      intros [?|[_ [?|[_ [?|[? ?]]]]]]; try lia; try discriminate.
  - split; [intros H; right; split; [assumption|]; left; assumption|].
    intros [?|[_ [?|[? _]]]]; try lia; try discriminate; assumption.
Qed.

Lemma NoDup_map_inj {A B} (f : A -> B) (l : list A) a b :
  NoDup (map f l) -> a ∈ l -> b ∈ l -> f a = f b -> a = b.
Proof.
  induction l as [|x l IH]; simpl; intros Hnd Ha Hb Hf; [inversion Ha|].
  apply NoDup_cons in Hnd as [Hnin Hnd].
  apply elem_of_cons in Ha as [->|Ha]; apply elem_of_cons in Hb as [->|Hb]; auto.
  - exfalso. apply Hnin. rewrite Hf. apply list_elem_of_fmap. eauto.
  - exfalso. apply Hnin. rewrite <- Hf. apply list_elem_of_fmap. eauto.
Qed.

(** [ranks_before] with the flake rates compared through their ranks. *)
Definition ranks_before_by_rank (a b : AggregatedTest.t) : Prop :=
  AggregatedTest.WastedTime a > AggregatedTest.WastedTime b \/
  (AggregatedTest.WastedTime a = AggregatedTest.WastedTime b /\
   (rank_lt (frank (AggregatedTest.FlakeRate b)) (frank (AggregatedTest.FlakeRate a)) \/
    (frank (AggregatedTest.FlakeRate a) = frank (AggregatedTest.FlakeRate b) /\
     (AggregatedTest.FailCount a > AggregatedTest.FailCount b \/
      (AggregatedTest.FailCount a = AggregatedTest.FailCount b /\
       GoStrings.lt (AggregatedTest.TestID a) (AggregatedTest.TestID b) = true))))).

Lemma ranks_before_rank a b :
  GoFloat.is_number (AggregatedTest.FlakeRate a) ->
  GoFloat.is_number (AggregatedTest.FlakeRate b) ->
  (ranks_before a b <-> ranks_before_by_rank a b).
Proof.
  intros Ha Hb. unfold ranks_before, ranks_before_by_rank.
  rewrite (float_ltb_rank _ _ Hb Ha), (float_eqb_rank _ _ Ha Hb). reflexivity.
Qed.

Lemma ranks_before_by_rank_irrefl a : ~ ranks_before_by_rank a a.
Proof.
  unfold ranks_before_by_rank. rewrite string_lt_irrefl.
  pose proof (rank_lt_irrefl (frank (AggregatedTest.FlakeRate a))).
  intros [?|[_ [?|[_ [?|[_ ?]]]]]]; try lia; try contradiction; discriminate.
Qed.

Lemma ranks_before_by_rank_trans a b c :
  ranks_before_by_rank a b -> ranks_before_by_rank b c -> ranks_before_by_rank a c.
Proof.
  unfold ranks_before_by_rank.
  pose proof (string_lt_trans (AggregatedTest.TestID a) (AggregatedTest.TestID b)
                (AggregatedTest.TestID c)) as Hs.
  pose proof (rank_lt_trans (frank (AggregatedTest.FlakeRate c))
                (frank (AggregatedTest.FlakeRate b)) (frank (AggregatedTest.FlakeRate a))) as Hr.
  intros [Hab|[Hwab [Hab|[Hfab [Hab|[Hcab Hab]]]]]] [Hbc|[Hwbc [Hbc|[Hfbc [Hbc|[Hcbc Hbc]]]]]];
    try (left; lia); right; (split; [lia|]);
    try (left; auto; fail);
    try (left; rewrite Hfab; assumption);
    try (left; rewrite <- Hfbc; assumption);
    right; (split; [congruence|]); try (left; lia).
  right. split; [lia|]. auto.
Qed.

Lemma ranks_before_by_rank_total a b :
  AggregatedTest.TestID a <> AggregatedTest.TestID b ->
  ranks_before_by_rank a b \/ ranks_before_by_rank b a.
Proof.
  intros Hid. unfold ranks_before_by_rank.
  destruct (Z.lt_trichotomy (AggregatedTest.WastedTime a) (AggregatedTest.WastedTime b))
    as [?|[Hw|?]]; [right; left; lia| |left; left; lia].
  destruct (rank_trichotomy (frank (AggregatedTest.FlakeRate a))
              (frank (AggregatedTest.FlakeRate b))) as [?|[Hf|?]];
    [right; right; split; [lia|]; left; assumption |
    |left; right; split; [lia|]; left; assumption].
  destruct (Z.lt_trichotomy (AggregatedTest.FailCount a) (AggregatedTest.FailCount b))
    as [?|[Hc|?]];
    [right; right; split; [lia|]; right; split; [congruence|]; left; lia |
    |left; right; split; [lia|]; right; split; [congruence|]; left; lia].
  destruct (string_lt_total _ _ Hid) as [Hs|Hs];
    [left|right]; right; (split; [lia|]); right; (split; [congruence|]);
    right; (split; [lia|]); assumption.
Qed.

Lemma less_strict_total l :
  rankable l -> strict_total_on classify.less (fun t => t ∈ l).
Proof.
  intros [Hnd Hnum]. rewrite Forall_forall in Hnum.
  constructor.
  - intros a Ha. destruct (classify.less a a) eqn:Hl; [|reflexivity].
    apply less_ranks_before, ranks_before_rank in Hl; auto.
    apply ranks_before_by_rank_irrefl in Hl. contradiction.
  - intros a b c Ha Hb Hc Hab Hbc.
    apply less_ranks_before, ranks_before_rank in Hab, Hbc; auto.
    apply less_ranks_before, ranks_before_rank; auto.
    eapply ranks_before_by_rank_trans; eauto.
  - intros a b Ha Hb Hne.
    destruct (ranks_before_by_rank_total a b) as [H|H].
    + intros Hid. apply Hne. eapply NoDup_map_inj; eauto.
    + left. apply less_ranks_before, ranks_before_rank; auto.
    + right. apply less_ranks_before, ranks_before_rank; auto.
Qed.

(** ** The order of the aggregated result list *)

Lemma buildAggregatedTest_number agg numRuns :
  GoInt.in_int64 (classify.failCount agg) ->
  GoFloat.is_number (AggregatedTest.FlakeRate (classify.buildAggregatedTest agg numRuns)).
Proof.
  intros Hf. simpl.
  destruct (Z.ltb_spec 0 (GoInt.add (classify.passCount agg) (classify.failCount agg)));
    [|apply zero_number].
  apply of_int_div_number; [assumption|apply wrap64_range|lia].
Qed.

Lemma aggregators_in_range runs agg :
  agg ∈ map snd (map_to_list (classify.accumulate_runs runs)) ->
  GoInt.in_int64 (classify.failCount agg).
Proof.
  intros ([id agg'] & -> & Hin)%list_elem_of_fmap. apply elem_of_map_to_list in Hin.
  pose proof (accumulate_aggregates (all_tests runs) id) as Hagg.
  rewrite <- accumulate_runs_flat, Hin in Hagg. simpl.
  rewrite (agg_fail _ _ _ Hagg). apply wrap64_range.
Qed.

(** The results built from the aggregators, in any order, are rankable. *)
Lemma results_rankable runs order numRuns :
  Permutation order (map snd (map_to_list (classify.accumulate_runs runs))) ->
  rankable (map (fun agg => classify.buildAggregatedTest agg numRuns) order).
Proof.
  intros Hperm. split.
  - rewrite map_map. simpl. rewrite (Permutation_map classify.testID Hperm).
    rewrite accumulate_runs_keys. apply NoDup_fst_map_to_list.
  - apply Forall_forall. intros t (agg & -> & Hin)%list_elem_of_fmap.
    apply buildAggregatedTest_number, (aggregators_in_range runs).
    rewrite <- Hperm. assumption.
Qed.

Lemma rankable_NoDup l : rankable l -> NoDup l.
Proof. intros [Hnd _]. eapply NoDup_fmap_1. exact Hnd. Qed.

Lemma rankable_Permutation l l' : Permutation l l' -> rankable l -> rankable l'.
Proof. intros Hperm [Hnd Hnum]. split; rewrite <- Hperm; assumption. Qed.

Lemma strict_total_on_Permutation {A} (less : A -> A -> bool) (l l' : list A) :
  Permutation l l' ->
  strict_total_on less (fun t => t ∈ l) -> strict_total_on less (fun t => t ∈ l').
Proof.
  intros Hperm [Hi Ht Htot].
  constructor; intros *; rewrite <- !Hperm; eauto.
Qed.

Lemma Aggregate_rankable runs : rankable (classify.Aggregate runs).
Proof.
  unfold classify.Aggregate, classify.Aggregate_in_order. destruct runs as [|run runs].
  - split; constructor.
  - unfold classify.sortAggregatedTests.
    eapply rankable_Permutation; [symmetry; apply Slice_Permutation|].
    apply (results_rankable (run :: runs)). reflexivity.
Qed.

(** Whatever order the aggregators are visited in and whatever sorted
    rearrangement [sort.Slice] returns, the result is [Aggregate runs]. *)
Lemma Aggregate_may_return_unique runs out :
  classify.Aggregate_may_return runs out -> out = classify.Aggregate runs.
Proof.
  unfold classify.Aggregate_may_return, classify.Aggregate, classify.Aggregate_in_order.
  destruct runs as [|run runs]; [auto|].
  intros (order & Hperm & Hsort). unfold classify.sortAggregatedTests.
  set (n := Z.of_nat (length (run :: runs))) in *.
  set (build := fun agg => classify.buildAggregatedTest agg n) in *.
  pose proof (results_rankable (run :: runs) order n Hperm) as Hrank. fold build in Hrank.
  pose proof (results_rankable (run :: runs) _ n (Permutation_refl _)) as Hrank0.
  fold build in Hrank0.
  pose proof (less_strict_total _ Hrank) as Hsto.
  assert (Hall : forall l : list AggregatedTest.t, Forall (fun t => t ∈ l) l)
    by (intros l; apply Forall_forall; auto).
  rewrite (sorting_unique classify.less _ Hsto _ out (Hall _) (rankable_NoDup _ Hrank) Hsort).
  apply (ascending_unique classify.less _ Hsto).
  - apply Forall_forall. intros t. apply Slice_elem_of.
  - rewrite !Slice_Permutation. apply Permutation_map. assumption.
  - apply (Slice_ascending classify.less _ Hsto);
      [apply Hall|apply rankable_NoDup; assumption].
  - apply (Slice_ascending classify.less _ (less_strict_total _ Hrank0));
      [apply Hall|apply rankable_NoDup; assumption].
Qed.

(** C3.  The list [Aggregate] returns is sorted by wasted time descending,
    then flake rate descending, then fail count descending, then identity
    ascending; on the tests of the list this order is a strict total order;
    so the list is the only result the Go function can return, whatever the
    order in which the map of aggregators is visited and whatever the
    rearrangement the (unstable) sort picks.  Three tests with equal wasted
    time and flake rate come out by identity. *)
Theorem aggregate_order_total_and_reproducible runs :
  let out := classify.Aggregate runs in
  StronglySorted ranks_before out /\
  (forall a, a ∈ out -> ~ ranks_before a a) /\
  (forall a b c, a ∈ out -> b ∈ out -> c ∈ out ->
     ranks_before a b -> ranks_before b c -> ranks_before a c) /\
  (forall a b, a ∈ out -> b ∈ out -> a <> b -> ranks_before a b \/ ranks_before b a) /\
  (forall out', classify.Aggregate_may_return runs out' -> out' = out) /\
  map AggregatedTest.TestID (classify.Aggregate classify_test.sorting_runs)
    = ["a::t"; "m::t"; "z::t"]%string.
Proof.
  intros out.
  pose proof (Aggregate_rankable runs) as Hrank. fold out in Hrank.
  pose proof (less_strict_total out Hrank) as [Hirr Htr Htot].
  assert (Hnum : forall a, a ∈ out -> GoFloat.is_number (AggregatedTest.FlakeRate a)).
  { destruct Hrank as [_ Hnum]. rewrite Forall_forall in Hnum. exact Hnum. }
  split; [|split; [|split; [|split; [|split]]]].
  - assert (Hasc : ascending classify.less out).
    { unfold out, classify.Aggregate, classify.Aggregate_in_order.
      destruct runs as [|run runs]; [constructor|].
      unfold classify.sortAggregatedTests.
      pose proof (results_rankable (run :: runs) _ (Z.of_nat (length (run :: runs)))
                    (Permutation_refl _)) as Hr.
      apply (Slice_ascending classify.less _ (less_strict_total _ Hr)).
      - apply Forall_forall. auto.
      - apply rankable_NoDup. assumption. }
    assert (Hgen : forall l, Forall (fun t => t ∈ out) l ->
              ascending classify.less l -> StronglySorted ranks_before l).
    { intros l Hl Hs. induction Hs as [|a l0 Hs IH Ha]; [constructor|].
      apply Forall_cons in Hl as [Hain Hl]. constructor; [apply IH; assumption|].
      rewrite Forall_forall in Ha, Hl |- *. intros b Hb.
      apply less_ranks_before; auto. }
    apply Hgen; [apply Forall_forall; auto|assumption].
  - intros a Ha Hrb. apply less_ranks_before in Hrb; auto.
    rewrite (Hirr a Ha) in Hrb. discriminate.
  - intros a b c Ha Hb Hc Hab Hbc.
    apply less_ranks_before in Hab, Hbc; auto. apply less_ranks_before; auto.
    exact (Htr a b c Ha Hb Hc Hab Hbc).
  - intros a b Ha Hb Hne.
    destruct (Htot a b Ha Hb Hne) as [H|H]; [left|right]; apply less_ranks_before; auto.
  - intros out'. apply Aggregate_may_return_unique.
  - vm_compute. reflexivity.
Qed.

(** ** Signature detection *)

(** The patterns of a category, from the table of the source. *)
Definition patterns_of (sig : FailureSignature) : list regexp.Regexp :=
  concat (map snd (List.filter (fun rule => bool_decide (rule.1 = sig))
                               classify.signaturePatterns)).

(** The message carries a cue of the category: one of its patterns matches. *)
Definition category_matches (sig : FailureSignature) (message : string) : Prop :=
  exists pattern, pattern ∈ patterns_of sig /\ regexp.MatchString pattern message = true.

Lemma any_pattern_spec patterns message :
  classify.any_pattern patterns message = true <->
  exists pattern, pattern ∈ patterns /\ regexp.MatchString pattern message = true.
Proof.
  induction patterns as [|p ps IH]; simpl.
  - split; [discriminate|]. intros (p & Hin & _). inversion Hin.
  - destruct (regexp.MatchString p message) eqn:Hp.
    + split; [|reflexivity]. intros _. exists p. split; [left|assumption].
    + rewrite IH. split.
      * intros (q & Hin & Hq). exists q. split; [right|]; assumption.
      * intros (q & Hin & Hq). apply elem_of_cons in Hin as [->|Hin]; [congruence|eauto].
Qed.

Lemma category_matches_any sig message :
  category_matches sig message <->
  classify.any_pattern (patterns_of sig) message = true.
Proof. unfold category_matches. rewrite any_pattern_spec. reflexivity. Qed.

Lemma no_pattern_matches_empty sig : ~ category_matches sig "".
Proof.
  rewrite category_matches_any. destruct sig; vm_compute; discriminate.
Qed.

Lemma signaturePatterns_table :
  classify.signaturePatterns =
  [ (SignatureTimeout, patterns_of SignatureTimeout);
    (SignatureSelector, patterns_of SignatureSelector);
    (SignatureNetwork, patterns_of SignatureNetwork);
    (SignatureDOMDetach, patterns_of SignatureDOMDetach);
    (SignatureAssertion, patterns_of SignatureAssertion) ].
Proof. vm_compute. reflexivity. Qed.

(** The two loops of [DetectSignature], category by category. *)
Lemma DetectSignature_cases message :
  message <> ""%string ->
  classify.DetectSignature message =
    if classify.any_pattern (patterns_of SignatureTimeout) message then SignatureTimeout
    else if classify.any_pattern (patterns_of SignatureSelector) message then SignatureSelector
    else if classify.any_pattern (patterns_of SignatureNetwork) message then SignatureNetwork
    else if classify.any_pattern (patterns_of SignatureDOMDetach) message
         then SignatureDOMDetach
    else if classify.any_pattern (patterns_of SignatureAssertion) message
         then SignatureAssertion
    else SignatureUnknown.
Proof.
  intros Hne. unfold classify.DetectSignature.
  destruct (String.eqb_spec message "") as [->|_]; [congruence|].
  rewrite signaturePatterns_table. cbn [classify.detect_in]. reflexivity.
Qed.

Lemma spec_message_cues :
  category_matches SignatureTimeout "expect(response).timeout exceeded" /\
  category_matches SignatureAssertion "expect(response).timeout exceeded" /\
  classify.DetectSignature "expect(response).timeout exceeded" = SignatureTimeout.
Proof.
  rewrite !category_matches_any. vm_compute. auto.
Qed.

(** C4.  [DetectSignature] is a function from messages to the six
    signatures.  The categories are tried in the order Timeout, Selector,
    Network, DomDetach, Assertion and the first one a pattern of which
    matches is the result, so that a message with a Timeout cue is a Timeout
    whatever other cues it carries; the empty message and a message that no
    pattern matches are Unknown.  The message of the specification carries a
    Timeout cue and an Assertion cue and is a Timeout. *)
Theorem detect_signature_by_priority (message : string) :
  map fst classify.signaturePatterns
    = [SignatureTimeout; SignatureSelector; SignatureNetwork;
       SignatureDOMDetach; SignatureAssertion] /\
  (category_matches SignatureTimeout message ->
   classify.DetectSignature message = SignatureTimeout) /\
  (~ category_matches SignatureTimeout message ->
   category_matches SignatureSelector message ->
   classify.DetectSignature message = SignatureSelector) /\
  (~ category_matches SignatureTimeout message ->
   ~ category_matches SignatureSelector message ->
   category_matches SignatureNetwork message ->
   classify.DetectSignature message = SignatureNetwork) /\
  (~ category_matches SignatureTimeout message ->
   ~ category_matches SignatureSelector message ->
   ~ category_matches SignatureNetwork message ->
   category_matches SignatureDOMDetach message ->
   classify.DetectSignature message = SignatureDOMDetach) /\
  (~ category_matches SignatureTimeout message ->
   ~ category_matches SignatureSelector message ->
   ~ category_matches SignatureNetwork message ->
   ~ category_matches SignatureDOMDetach message ->
   category_matches SignatureAssertion message ->
   classify.DetectSignature message = SignatureAssertion) /\
  ((forall sig, ~ category_matches sig message) ->
   classify.DetectSignature message = SignatureUnknown) /\
  (message = ""%string -> classify.DetectSignature message = SignatureUnknown) /\
  (category_matches SignatureTimeout "expect(response).timeout exceeded" /\
   category_matches SignatureAssertion "expect(response).timeout exceeded" /\
   classify.DetectSignature "expect(response).timeout exceeded" = SignatureTimeout).
Proof.
  split; [vm_compute; reflexivity|].
  assert (Hempty : message = ""%string -> classify.DetectSignature message = SignatureUnknown).
  { intros ->. vm_compute. reflexivity. }
  assert (Hunknown : (forall sig, ~ category_matches sig message) ->
            classify.DetectSignature message = SignatureUnknown).
  { intros Hall. destruct (String.eqb_spec message "") as [Hm|Hm]; [auto|].
    rewrite (DetectSignature_cases message Hm).
    assert (Hf : forall sig, classify.any_pattern (patterns_of sig) message = false).
    { intros sig. specialize (Hall sig). rewrite category_matches_any in Hall.
      destruct (classify.any_pattern (patterns_of sig) message); [congruence|reflexivity]. }
    rewrite !Hf. reflexivity. }
  assert (Hne : forall sig, category_matches sig message -> message <> ""%string).
  { intros sig Hc ->. exact (no_pattern_matches_empty sig Hc). }
  repeat (split; [|try exact Hunknown; try exact Hempty; try exact spec_message_cues]);
    try exact Hunknown; try exact Hempty; try exact spec_message_cues;
    intros;
    match goal with
    | H : category_matches _ message |- _ =>
        rewrite (DetectSignature_cases message (Hne _ H))
    end;
    repeat match goal with
    | H : category_matches _ message |- _ =>
        apply category_matches_any in H; rewrite H; clear H
    | H : ~ category_matches _ message |- _ =>
        rewrite category_matches_any in H; apply not_true_is_false in H;
        rewrite H; clear H
    end; reflexivity.
Qed.

(** ** The run loop *)

Module runner_test.

Import runner.
Local Open Scope string_scope.

Definition second : Z := 1000000000.

Definition adapter : Adapter :=
  mkAdapter (fun runDir userCmd => (userCmd ++ ["--json"; "--outputFile"; jest.ExpectedArtifact runDir])%list)
            jest.ExpectedArtifact.

(** Every operation succeeds, every run takes one second and reports one
    passing test. *)
Definition quiet : Env :=
  mkEnv None None (fun _ => None) (fun _ => None) (fun _ => None)
        (fun _ => second) (fun _ => false) (fun _ => false)
        (fun _ => Ok (RunResult.mk 0 [TestResult.mk "a.test.js::t" OutcomePass 5 ""] ""))
        None (fun _ => None).

(** As [quiet], but no run leaves an artifact. *)
Definition no_artifact : Env :=
  mkEnv None None (fun _ => None) (fun _ => None) (fun _ => None)
        (fun _ => second) (fun _ => false) (fun _ => true)
        (fun _ => Err "unreachable") None (fun _ => None).

(** As [quiet], but the directory of run 2 cannot be created. *)
Definition no_directory : Env :=
  mkEnv None None (fun i => if (i =? 2)%Z then Some "permission denied" else None)
        (fun _ => None) (fun _ => None)
        (fun _ => second) (fun _ => false) (fun _ => false)
        (fun _ => Ok (RunResult.mk 0 [TestResult.mk "a.test.js::t" OutcomePass 5 ""] ""))
        None (fun _ => None).

(** As [quiet], but the user interrupts during run 3. *)
Definition interrupted_in_3 : Env :=
  mkEnv None None (fun _ => None) (fun _ => None) (fun _ => None)
        (fun _ => second) (fun i => (i =? 3)%Z) (fun _ => false)
        (fun _ => Ok (RunResult.mk 0 [TestResult.mk "a.test.js::t" OutcomePass 5 ""] ""))
        None (fun _ => None).

Definition config (runs timeout keepRuns : Z) : Config :=
  mkConfig runs timeout ".flakehunt" keepRuns "jest" ["npx"; "jest"] (Some adapter).

Definition start : World := mkWorld 0 false [] [] [].

End runner_test.

(** Scenario C: ten runs asked for, a timeout of four seconds, one second
    per run. *)
Example scenario_C :
  let '(r, w) := runner.Run runner_test.quiet (runner_test.config 10 (4 * runner_test.second) 0)
                   runner_test.start in
  (match r with
   | Ok res => Some (runner.RunsExecuted res, map RunResult.RunIndex (runner.RunResults res))
   | Err _ => None
   end,
   runner.events w, runner.dirs w)
  = (Some (4, [1; 2; 3; 4]),
     [runner.Started 1 0 false; runner.Started 2 runner_test.second false;
      runner.Started 3 (2 * runner_test.second) false;
      runner.Started 4 (3 * runner_test.second) false],
     ["001"; "002"; "003"; "004"]%string).
Proof. vm_compute. reflexivity. Qed.

Example interrupted_session :
  let '(r, w) := runner.Run runner_test.interrupted_in_3 (runner_test.config 10 0 0)
                   runner_test.start in
  match r with
  | Ok res => Some (runner.RunsExecuted res)
  | Err _ => None
  end = Some 3.
Proof. vm_compute. reflexivity. Qed.

Example keep_two_of_five :
  let '(r, w) := runner.Run runner_test.quiet (runner_test.config 5 0 2) runner_test.start in
  (is_ok r, runner.dirs w, runner.events w)
  = (true, ["004"; "005"]%string,
     [runner.Started 1 0 false; runner.Started 2 runner_test.second false;
      runner.Started 3 (2 * runner_test.second) false;
      runner.Started 4 (3 * runner_test.second) false;
      runner.Started 5 (4 * runner_test.second) false;
      runner.Removed "001"; runner.Removed "002"; runner.Removed "003"]).
Proof. vm_compute. reflexivity. Qed.

(** The indices [i, i+1, ...] of [k] consecutive runs. *)
Fixpoint Zseq (i : Z) (k : nat) : list Z :=
  match k with
  | O => []
  | S k' => i :: Zseq (i + 1) k'
  end.

(** The runs a list of events says were started. *)
Definition started_runs (E : list runner.event) : list Z :=
  omap (fun e => match e with runner.Started i _ _ => Some i | runner.Removed _ => None end) E.

(** The two conditions the loop checks before a run. *)
Definition stop_requested (cfg : runner.Config) (startTime : Z) (w : runner.World) : bool :=
  ((0 <? runner.Timeout cfg) && (runner.Timeout cfg <=? runner.now w - startTime))
  || runner.cancelled w.

(** A run was started with the timeout not elapsed and no cancellation
    requested. *)
Definition started_in_time (cfg : runner.Config) (e : runner.event) : Prop :=
  match e with
  | runner.Started _ elapsed cancel_requested =>
      cancel_requested = false /\
      ~ (0 < runner.Timeout cfg /\ runner.Timeout cfg <= elapsed)
  | runner.Removed _ => True
  end.

(** What [executeRun] returns for run [j]; it does not depend on the clock
    or on the state of the output tree. *)
Definition run_outcome (env : runner.Env) (cfg : runner.Config) (adapter : runner.Adapter)
    (runsDir : string) (j : Z) : result RunResult.t :=
  (runner.executeRun env cfg adapter
     (filepath_Join runsDir (GoStrings.format_03d j)) j (runner.mkWorld 0 false [] [] [])).1.

(** What the loop records for run [j]. *)
Definition recorded (env : runner.Env) (cfg : runner.Config) (adapter : runner.Adapter)
    (runsDir : string) (j : Z) : RunResult.t :=
  match run_outcome env cfg adapter runsDir j with
  | Ok result => result
  | Err err => RunResult.mk j [] err
  end.

Lemma Zseq_length i k : length (Zseq i k) = k.
Proof. revert i. induction k; intros i; simpl; auto. Qed.

Lemma Zseq_snoc i k : Zseq i (S k) = Zseq i k ++ [i + Z.of_nat k].
Proof.
  revert i. induction k as [|k IH]; intros i.
  - simpl. f_equal. lia.
  - change (Zseq i (S (S k))) with (i :: Zseq (i + 1) (S k)).
    rewrite IH. simpl. do 3 f_equal. lia.
Qed.

Lemma Zseq_elem i k j : j ∈ Zseq i k <-> i <= j < i + Z.of_nat k.
Proof.
  revert i. induction k as [|k IH]; intros i; simpl.
  - split; [intros H; inversion H|lia].
  - rewrite elem_of_cons, IH. lia.
Qed.

Lemma executeRun_outcome env cfg adapter runDir j w w0 :
  (runner.executeRun env cfg adapter runDir j w).1
  = (runner.executeRun env cfg adapter runDir j w0).1.
Proof.
  unfold runner.executeRun.
  destruct (runner.BuildCommand adapter runDir (runner.Command cfg)); [reflexivity|].
  destruct (runner.stdout_error env j); [reflexivity|].
  destruct (runner.stderr_error env j); [reflexivity|].
  destruct (runner.artifact_missing env j); [reflexivity|].
  destruct (runner.parse env j); reflexivity.
Qed.

(** [executeRun] starts no run and removes nothing; it lets time pass and
    the cancellation arrive. *)
Lemma executeRun_world env cfg adapter runDir j w :
  let w' := (runner.executeRun env cfg adapter runDir j w).2 in
  runner.events w' = runner.events w /\ runner.dirs w' = runner.dirs w /\
  runner.warnings w' = runner.warnings w.
Proof.
  unfold runner.executeRun.
  destruct (runner.BuildCommand adapter runDir (runner.Command cfg)); [simpl; auto|].
  destruct (runner.stdout_error env j); [simpl; auto|].
  destruct (runner.stderr_error env j); [simpl; auto|].
  destruct (runner.artifact_missing env j); [simpl; auto|].
  destruct (runner.parse env j); simpl; auto.
Qed.

Lemma recorded_RunIndex env cfg adapter runsDir j :
  RunResult.RunIndex (recorded env cfg adapter runsDir j) = j.
Proof.
  unfold recorded, run_outcome, runner.executeRun.
  destruct (runner.BuildCommand adapter _ (runner.Command cfg)); [reflexivity|].
  destruct (runner.stdout_error env j); [reflexivity|].
  destruct (runner.stderr_error env j); [reflexivity|].
  destruct (runner.artifact_missing env j); [reflexivity|].
  destruct (runner.parse env j); reflexivity.
Qed.

(** What the loop does from run [i] on. *)
Lemma run_loop_spec env cfg adapter runsDir startTime fuel :
  forall i acc w r w',
  runner.run_loop fuel env cfg adapter runsDir startTime i acc w = (r, w') ->
  exists (k : nat) (E : list runner.event),
    (k <= fuel)%nat /\
    runner.events w' = (runner.events w ++ E)%list /\
    started_runs E = Zseq i k /\
    length E = k /\
    Forall (started_in_time cfg) E /\
    (forall j, j ∈ Zseq i k -> j <= runner.Runs cfg /\ runner.mkdir_error env j = None) /\
    match r with
    | Ok runResults =>
        runResults = (acc ++ map (recorded env cfg adapter runsDir) (Zseq i k))%list /\
        (k = fuel \/ runner.Runs cfg < i + Z.of_nat k
         \/ stop_requested cfg startTime w' = true)
    | Err _ =>
        i + Z.of_nat k <= runner.Runs cfg /\
        runner.mkdir_error env (i + Z.of_nat k) <> None
    end.
Proof.
  induction fuel as [|fuel IH]; intros i acc w r w'; simpl.
  - intros [= <- <-]. exists 0%nat, []. rewrite !app_nil_r. simpl.
    do 5 (split; [auto|]). split; [intros j Hj; inversion Hj|]. auto.
  - destruct (Z.leb_spec i (runner.Runs cfg)) as [Hle|Hgt]; simpl.
    2: { intros [= <- <-]. exists 0%nat, []. rewrite !app_nil_r. simpl.
         split; [lia|]. do 4 (split; [auto|]). split; [intros j Hj; inversion Hj|].
         split; [reflexivity|]. right. left. lia. }
    destruct ((0 <? runner.Timeout cfg) && (runner.Timeout cfg <=? runner.now w - startTime))
      eqn:Htimeout.
    { intros [= <- <-]. exists 0%nat, []. rewrite !app_nil_r. simpl.
      split; [lia|]. do 4 (split; [auto|]). split; [intros j Hj; inversion Hj|].
      split; [reflexivity|].
      right. right. unfold stop_requested. rewrite Htimeout. reflexivity. }
    destruct (runner.cancelled w) eqn:Hcancel.
    { intros [= <- <-]. exists 0%nat, []. rewrite !app_nil_r. simpl.
      split; [lia|]. do 4 (split; [auto|]). split; [intros j Hj; inversion Hj|].
      split; [reflexivity|].
      right. right. unfold stop_requested. rewrite Hcancel. apply orb_true_r. }
    destruct (runner.mkdir_error env i) as [err|] eqn:Hmkdir.
    { intros [= <- <-]. exists 0%nat, []. rewrite !app_nil_r, Z.add_0_r. simpl.
      split; [lia|]. do 4 (split; [auto|]). split; [intros j Hj; inversion Hj|].
      split; [lia|congruence]. }
    set (w1 := runner.log _ _).
    destruct (runner.executeRun env cfg adapter _ i w1) as [r1 w2] eqn:Hexec.
    intros Hloop. apply IH in Hloop as (k & E & Hk & Hev & Hst & Hlen & Hin & Hmk & Hr).
    pose proof (executeRun_world env cfg adapter
                  (filepath_Join runsDir (GoStrings.format_03d i)) i w1) as (Hev2 & _).
    rewrite Hexec in Hev2. simpl in Hev2.
    exists (S k), (runner.Started i (runner.now w - startTime) false :: E).
    split; [lia|]. split.
    { rewrite Hev, Hev2. unfold w1. simpl. rewrite <- app_assoc. reflexivity. }
    split; [simpl; rewrite Hst; reflexivity|].
    split; [simpl; lia|].
    split.
    { constructor; [|assumption]. simpl. split; [reflexivity|].
      apply andb_false_iff in Htimeout as [H|H]; [apply Z.ltb_ge in H|apply Z.leb_gt in H]; lia. }
    split.
    { intros j Hj. simpl in Hj. apply elem_of_cons in Hj as [->|Hj]; [auto|]. apply Hmk, Hj. }
    assert (Hrec : match r1 with Ok result => result | Err err => RunResult.mk i [] err end
                   = recorded env cfg adapter runsDir i).
    { unfold recorded, run_outcome.
      rewrite (executeRun_outcome env cfg adapter _ i _ w1), Hexec. reflexivity. }
    destruct r as [runResults|err].
    + destruct Hr as [-> Hstop]. split.
      * simpl. rewrite <- app_assoc. simpl. rewrite Hrec. reflexivity.
      * destruct Hstop as [->|[H|H]]; [left; reflexivity|right; left; lia|right; right; assumption].
    + destruct Hr as [Hle' Hne]. replace (i + Z.of_nat (S k)) with (i + 1 + Z.of_nat k) by lia.
      auto.
Qed.

(** [cleanupOldRuns] leaves the clock and the cancellation alone and only
    adds removals to the events. *)
Lemma remove_all_world env runsDir toRemove :
  forall w,
  let w' := (runner.remove_all env runsDir toRemove w).2 in
  runner.now w' = runner.now w /\ runner.cancelled w' = runner.cancelled w /\
  exists removed, runner.events w' = (runner.events w ++ map runner.Removed removed)%list.
Proof.
  induction toRemove as [|dir rest IH]; intros w; simpl.
  - repeat split. exists []. rewrite app_nil_r. reflexivity.
  - destruct (runner.remove_error env dir).
    + simpl. repeat split. exists []. rewrite app_nil_r. reflexivity.
    + specialize (IH (runner.mkWorld (runner.now w) (runner.cancelled w)
                        (List.filter (fun d => negb (d =? dir)%string) (runner.dirs w))
                        (runner.warnings w) (runner.events w ++ [runner.Removed dir]))).
      simpl in IH. destruct IH as (Hn & Hc & removed & He).
      repeat split; [assumption|assumption|]. exists (dir :: removed).
      rewrite He, <- app_assoc. reflexivity.
Qed.

Lemma cleanupOldRuns_world env runsDir keepRuns w :
  let w' := (runner.cleanupOldRuns env runsDir keepRuns w).2 in
  runner.now w' = runner.now w /\ runner.cancelled w' = runner.cancelled w /\
  exists removed, runner.events w' = (runner.events w ++ map runner.Removed removed)%list.
Proof.
  unfold runner.cleanupOldRuns.
  destruct (runner.readdir_error env).
  { simpl. repeat split. exists []. rewrite app_nil_r. reflexivity. }
  destruct (keepRuns <? _).
  - apply remove_all_world.
  - simpl. repeat split. exists []. rewrite app_nil_r. reflexivity.
Qed.

Lemma started_runs_app E1 E2 : started_runs (E1 ++ E2) = (started_runs E1 ++ started_runs E2)%list.
Proof. unfold started_runs. apply omap_app. Qed.

Lemma started_runs_Removed removed : started_runs (map runner.Removed removed) = [].
Proof. induction removed; simpl; auto. Qed.

Lemma started_in_time_Removed cfg removed :
  Forall (started_in_time cfg) (map runner.Removed removed).
Proof. induction removed; constructor; simpl; auto. Qed.

(** A session whose configuration is valid and whose output tree can be
    prepared: what [Run] returns and what it did. *)
Lemma Run_spec env cfg adapter w :
  0 < runner.Runs cfg -> runner.Command cfg <> [] -> runner.Adapter_ cfg = Some adapter ->
  runner.clean_error env = None -> runner.mkruns_error env = None ->
  let runsDir := filepath_Join (filepath_Join (runner.OutDir cfg) "latest") "runs" in
  let r := (runner.Run env cfg w).1 in
  let w' := (runner.Run env cfg w).2 in
  exists (k : nat) (E : list runner.event),
    Z.of_nat k <= runner.Runs cfg /\
    runner.events w' = (runner.events w ++ E)%list /\
    started_runs E = Zseq 1 k /\
    Forall (started_in_time cfg) E /\
    (forall j, j ∈ Zseq 1 k -> runner.mkdir_error env j = None) /\
    match r with
    | Ok res =>
        runner.RunResults res = map (recorded env cfg adapter runsDir) (Zseq 1 k) /\
        runner.RunsExecuted res = Z.of_nat k /\
        (Z.of_nat k = runner.Runs cfg \/ stop_requested cfg (runner.now w) w' = true)
    | Err _ =>
        1 + Z.of_nat k <= runner.Runs cfg /\
        runner.mkdir_error env (1 + Z.of_nat k) <> None
    end.
Proof.
  intros Hruns Hcmd Hadapter Hclean Hmk runsDir. unfold runner.Run.
  destruct (Z.leb_spec (runner.Runs cfg) 0) as [?|_]; [lia|].
  destruct (runner.Command cfg) as [|c cmd] eqn:Hc; [congruence|].
  rewrite Hadapter, Hclean, Hmk. fold runsDir.
  set (w0 := runner.mkWorld (runner.now w) (runner.cancelled w) [] (runner.warnings w)
               (runner.events w)).
  destruct (runner.run_loop (Z.to_nat (runner.Runs cfg)) env cfg adapter runsDir
              (runner.now w0) 1 [] w0) as [r1 w1] eqn:Hloop.
  destruct (run_loop_spec _ _ _ _ _ _ _ _ _ _ _ Hloop)
    as (k & E & Hk & Hev & Hst & Hlen & Hin & Hmkdir & Hr).
  destruct r1 as [runResults|err]; simpl.
  - destruct Hr as [-> Hstop]. simpl in *.
    set (w2 := if _ : bool then _ else w1).
    assert (Hw2 : runner.now w2 = runner.now w1 /\ runner.cancelled w2 = runner.cancelled w1 /\
              exists removed, runner.events w2 = (runner.events w1 ++ map runner.Removed removed)%list).
    { unfold w2. destruct (_ && _).
      - pose proof (cleanupOldRuns_world env runsDir (runner.KeepRuns cfg) w1) as H.
        destruct (runner.cleanupOldRuns env runsDir (runner.KeepRuns cfg) w1) as [[e|] w3];
          simpl in *; exact H.
      - repeat split. exists []. rewrite app_nil_r. reflexivity. }
    destruct Hw2 as (Hn2 & Hc2 & removed & He2).
    exists k, (E ++ map runner.Removed removed)%list.
    split; [lia|]. split; [rewrite He2, Hev, app_assoc; reflexivity|].
    split; [rewrite started_runs_app, started_runs_Removed, app_nil_r; assumption|].
    split; [apply Forall_app; split; [assumption|apply started_in_time_Removed]|].
    split; [intros j Hj; apply Hmkdir, Hj|].
    rewrite length_map, Zseq_length. repeat split.
    destruct Hstop as [->|[H|H]]; [left; lia|left; lia|right].
    unfold stop_requested in *. rewrite Hn2, Hc2. exact H.
  - exists k, E. destruct Hr as [Hle Hne].
    repeat split; try assumption; try lia. intros j Hj. apply Hmkdir, Hj.
Qed.

Lemma map_recorded_RunIndex env cfg adapter runsDir l :
  map RunResult.RunIndex (map (recorded env cfg adapter runsDir) l) = l.
Proof.
  induction l as [|j l IH]; simpl; [reflexivity|].
  rewrite recorded_RunIndex, IH. reflexivity.
Qed.

(** C6.  Every run the orchestrator starts was started with the timeout (if
    one is configured) not elapsed and no cancellation requested: both are
    checked before each run.  The runs started are the runs 1 to
    [RunsExecuted], the result holds exactly their records, and when fewer
    runs than configured were executed the timeout had elapsed or the
    cancellation had been requested.  With ten runs configured and a timeout
    that elapses after run 4, four runs are executed and none of the runs 5
    to 10 is started. *)
Theorem no_run_after_timeout_or_cancel env cfg w :
  let r := (runner.Run env cfg w).1 in
  let w' := (runner.Run env cfg w).2 in
  (exists E,
     runner.events w' = (runner.events w ++ E)%list /\
     (forall i elapsed cancel_requested,
        runner.Started i elapsed cancel_requested ∈ E ->
        cancel_requested = false /\
        ~ (0 < runner.Timeout cfg /\ runner.Timeout cfg <= elapsed)) /\
     forall res, r = Ok res ->
       runner.RunsExecuted res = Z.of_nat (length (runner.RunResults res)) /\
       runner.RunsExecuted res <= runner.Runs cfg /\
       started_runs E = Zseq 1 (length (runner.RunResults res)) /\
       map RunResult.RunIndex (runner.RunResults res)
         = Zseq 1 (length (runner.RunResults res)) /\
       (runner.RunsExecuted res < runner.Runs cfg ->
        stop_requested cfg (runner.now w) w' = true)) /\
  (let session :=
     runner.Run runner_test.quiet (runner_test.config 10 (4 * runner_test.second) 0)
       runner_test.start in
   match session.1 with
   | Ok res => runner.RunsExecuted res = 4
   | Err _ => False
   end /\
   started_runs (runner.events session.2) = [1; 2; 3; 4]).
Proof.
  intros r w'. split.
  2: { split; vm_compute; reflexivity. }
  assert (Hnone : forall msg, runner.Run env cfg w = (Err msg, w) ->
            exists E, runner.events w' = (runner.events w ++ E)%list /\
              (forall i elapsed cancel_requested,
                 runner.Started i elapsed cancel_requested ∈ E ->
                 cancel_requested = false /\
                 ~ (0 < runner.Timeout cfg /\ runner.Timeout cfg <= elapsed)) /\
              forall res, r = Ok res ->
                runner.RunsExecuted res = Z.of_nat (length (runner.RunResults res)) /\
                runner.RunsExecuted res <= runner.Runs cfg /\
                started_runs E = Zseq 1 (length (runner.RunResults res)) /\
                map RunResult.RunIndex (runner.RunResults res)
                  = Zseq 1 (length (runner.RunResults res)) /\
                (runner.RunsExecuted res < runner.Runs cfg ->
                 stop_requested cfg (runner.now w) w' = true)).
  { intros msg Hrun. unfold r, w'. rewrite Hrun. simpl. exists []. rewrite app_nil_r.
    split; [reflexivity|]. split; [intros i el cr Hin; inversion Hin|]. discriminate. }
  destruct (Z.leb_spec (runner.Runs cfg) 0) as [Hruns|Hruns].
  { eapply Hnone. unfold runner.Run. destruct (Z.leb_spec (runner.Runs cfg) 0); [reflexivity|lia]. }
  destruct (runner.Command cfg) as [|c cmd] eqn:Hcmd.
  { eapply Hnone. unfold runner.Run. rewrite Hcmd.
    destruct (Z.leb_spec (runner.Runs cfg) 0); [lia|reflexivity]. }
  destruct (runner.Adapter_ cfg) as [adapter|] eqn:Hadapter.
  2: { eapply Hnone. unfold runner.Run. rewrite Hcmd, Hadapter.
       destruct (Z.leb_spec (runner.Runs cfg) 0); [lia|reflexivity]. }
  destruct (runner.clean_error env) as [err|] eqn:Hclean.
  { eapply Hnone. unfold runner.Run. rewrite Hcmd, Hadapter, Hclean.
    destruct (Z.leb_spec (runner.Runs cfg) 0); [lia|reflexivity]. }
  destruct (runner.mkruns_error env) as [err|] eqn:Hmk.
  { unfold r, w', runner.Run. rewrite Hcmd, Hadapter, Hclean, Hmk.
    destruct (Z.leb_spec (runner.Runs cfg) 0); [lia|]. simpl.
    exists []. rewrite app_nil_r.
    split; [reflexivity|]. split; [intros i el cr Hin; inversion Hin|]. discriminate. }
  clear Hnone.
  destruct (Run_spec env cfg adapter w Hruns ltac:(congruence) Hadapter Hclean Hmk)
    as (k & E & Hk & Hev & Hst & Hin & _ & Hr).
  exists E. split; [exact Hev|]. split.
  { intros i el cr Hi. rewrite Forall_forall in Hin. exact (Hin _ Hi). }
  intros res Hres. fold r in Hr. rewrite Hres in Hr. destruct Hr as (Hrs & Hexec & Hstop).
  rewrite Hrs, length_map, Zseq_length, map_recorded_RunIndex, Hexec.
  repeat split; try assumption; try lia.
  intros Hlt. destruct Hstop as [?|H]; [lia|exact H].
Qed.

(** ** Bad runs *)

(** When [executeRun] fails: the adapter builds no command, a capture file
    cannot be created, the artifact is missing after the run, or it cannot
    be parsed. *)
Lemma run_outcome_error env cfg adapter runsDir j :
  is_ok (run_outcome env cfg adapter runsDir j) = false <->
  runner.BuildCommand adapter (filepath_Join runsDir (GoStrings.format_03d j))
    (runner.Command cfg) = []
  \/ runner.stdout_error env j <> None
  \/ runner.stderr_error env j <> None
  \/ runner.artifact_missing env j = true
  \/ is_ok (runner.parse env j) = false.
Proof.
  unfold run_outcome, runner.executeRun.
  destruct (runner.BuildCommand adapter _ (runner.Command cfg)) as [|c cmd]; simpl;
    [tauto|].
  destruct (runner.stdout_error env j); simpl.
  { split; [intros _; right; left; discriminate|reflexivity]. }
  destruct (runner.stderr_error env j); simpl.
  { split; [intros _; right; right; left; discriminate|reflexivity]. }
  destruct (runner.artifact_missing env j); simpl; [tauto|].
  destruct (runner.parse env j); simpl;
    (split; [try discriminate; tauto|]);
    intros [?|[?|[?|[?|?]]]]; congruence.
Qed.

(** The record of a failed run: its index, no test data, the error. *)
Lemma recorded_error env cfg adapter runsDir j :
  is_ok (run_outcome env cfg adapter runsDir j) = false ->
  exists err, recorded env cfg adapter runsDir j = RunResult.mk j [] err /\ err <> ""%string.
Proof.
  unfold recorded, run_outcome, runner.executeRun.
  destruct (runner.BuildCommand adapter _ (runner.Command cfg)) as [|c cmd]; simpl.
  { intros _. eexists. split; [reflexivity|discriminate]. }
  destruct (runner.stdout_error env j); simpl.
  { intros _. eexists. split; [reflexivity|discriminate]. }
  destruct (runner.stderr_error env j); simpl.
  { intros _. eexists. split; [reflexivity|discriminate]. }
  destruct (runner.artifact_missing env j); simpl.
  { intros _. eexists. split; [reflexivity|discriminate]. }
  destruct (runner.parse env j); simpl; [discriminate|].
  intros _. eexists. split; [reflexivity|discriminate].
Qed.

Lemma Aggregate_no_tests runs :
  Forall (fun run => RunResult.Tests run = []) runs -> classify.Aggregate runs = [].
Proof.
  intros Hall.
  assert (Hacc : classify.accumulate_runs runs = ∅).
  { rewrite accumulate_runs_flat. unfold all_tests.
    replace (concat _) with (@nil (Z * TestResult.t)); [reflexivity|].
    induction Hall as [|run runs Hrun _ IH]; simpl; [reflexivity|].
    rewrite Hrun. simpl. exact IH. }
  unfold classify.Aggregate. rewrite Hacc, map_to_list_empty. simpl.
  destruct runs; reflexivity.
Qed.

(** C7, as the code has it.  In a session whose run directories can be
    created, [Run] returns a result; the record of every run started is what
    [executeRun] returned or, when it failed (no command from the adapter, a
    capture file that cannot be created, a missing artifact, a parse error),
    a record with the index of the run, no test data and the error; the loop
    goes on to the next run, so that all the configured runs are recorded
    unless the timeout elapses or the session is cancelled.  When every run
    fails, the aggregation of the records has no test. *)
Theorem bad_runs_are_recorded env cfg adapter w :
  0 < runner.Runs cfg -> runner.Command cfg <> [] -> runner.Adapter_ cfg = Some adapter ->
  runner.clean_error env = None -> runner.mkruns_error env = None ->
  (forall j, 1 <= j <= runner.Runs cfg -> runner.mkdir_error env j = None) ->
  let runsDir := filepath_Join (filepath_Join (runner.OutDir cfg) "latest") "runs" in
  exists res,
    (runner.Run env cfg w).1 = Ok res /\
    runner.RunResults res
      = map (recorded env cfg adapter runsDir) (Zseq 1 (length (runner.RunResults res))) /\
    (runner.RunsExecuted res = runner.Runs cfg \/
     stop_requested cfg (runner.now w) (runner.Run env cfg w).2 = true) /\
    (forall j, 1 <= j <= runner.RunsExecuted res ->
       is_ok (run_outcome env cfg adapter runsDir j) = false ->
       exists err, err <> ""%string /\ RunResult.mk j [] err ∈ runner.RunResults res) /\
    ((forall j, is_ok (run_outcome env cfg adapter runsDir j) = false) ->
     classify.Aggregate (runner.RunResults res) = []).
Proof.
  intros Hruns Hcmd Hadapter Hclean Hmk Hmkdir runsDir.
  destruct (Run_spec env cfg adapter w Hruns Hcmd Hadapter Hclean Hmk)
    as (k & E & Hk & _ & _ & _ & _ & Hr).
  fold runsDir in Hr.
  destruct (runner.Run env cfg w).1 as [res|msg] eqn:Hres.
  2: { destruct Hr as [Hle Hne]. exfalso. apply Hne, Hmkdir. lia. }
  destruct Hr as (Hrs & Hexec & Hstop).
  exists res. split; [reflexivity|].
  assert (Hlen : length (runner.RunResults res) = k)
    by (rewrite Hrs, length_map, Zseq_length; reflexivity).
  rewrite Hlen. split; [exact Hrs|]. split; [rewrite Hexec; exact Hstop|]. split.
  - intros j Hj Hfail. destruct (recorded_error env cfg adapter runsDir j Hfail) as (err & Herr & Hne).
    exists err. split; [assumption|]. rewrite Hrs, <- Herr.
    apply list_elem_of_fmap. exists j. split; [reflexivity|]. apply Zseq_elem. lia.
  - intros Hall. apply Aggregate_no_tests. rewrite Hrs. apply Forall_forall.
    intros run (j & -> & _)%list_elem_of_fmap.
    destruct (recorded_error env cfg adapter runsDir j (Hall j)) as (err & -> & _). reflexivity.
Qed.

Lemma bad_runs_are_recorded_witness :
  let env := runner_test.no_artifact in
  let cfg := runner_test.config 3 0 0 in
  let runsDir := filepath_Join (filepath_Join (runner.OutDir cfg) "latest") "runs" in
  exists res,
    (runner.Run env cfg runner_test.start).1 = Ok res /\
    runner.RunResults res
      = map (recorded env cfg runner_test.adapter runsDir)
            (Zseq 1 (length (runner.RunResults res))) /\
    (runner.RunsExecuted res = runner.Runs cfg \/
     stop_requested cfg (runner.now runner_test.start)
       (runner.Run env cfg runner_test.start).2 = true) /\
    (forall j, 1 <= j <= runner.RunsExecuted res ->
       is_ok (run_outcome env cfg runner_test.adapter runsDir j) = false ->
       exists err, err <> ""%string /\ RunResult.mk j [] err ∈ runner.RunResults res) /\
    ((forall j, is_ok (run_outcome env cfg runner_test.adapter runsDir j) = false) ->
     classify.Aggregate (runner.RunResults res) = []).
Proof.
  apply (bad_runs_are_recorded runner_test.no_artifact (runner_test.config 3 0 0)
           runner_test.adapter runner_test.start);
    [ reflexivity | discriminate | reflexivity | reflexivity | reflexivity
    | intros j _; reflexivity ].
Defined.

(** A session in which no run leaves an artifact: three error records, no
    aggregated test. *)
Example every_run_fails :
  match (runner.Run runner_test.no_artifact (runner_test.config 3 0 0) runner_test.start).1 with
  | Ok res =>
      (runner.RunsExecuted res,
       map (fun run => (RunResult.RunIndex run, RunResult.Tests run,
                        bool_decide (RunResult.Error run = ""%string)))
           (runner.RunResults res),
       classify.Aggregate (runner.RunResults res))
      = (3, [(1, [], false); (2, [], false); (3, [], false)], [])
  | Err _ => False
  end.
Proof. vm_compute. reflexivity. Qed.

(** C7 as stated fails: when the directory of a run cannot be created the
    session ends with an error and no result, whatever the other runs did. *)
Lemma run_directory_failure_aborts :
  ~ (forall env cfg adapter w,
       0 < runner.Runs cfg -> runner.Command cfg <> [] ->
       runner.Adapter_ cfg = Some adapter ->
       runner.clean_error env = None -> runner.mkruns_error env = None ->
       exists res, (runner.Run env cfg w).1 = Ok res).
Proof.
  intros H.
  assert (Hres : exists res,
            (runner.Run runner_test.no_directory (runner_test.config 3 0 0)
               runner_test.start).1 = Ok res).
  { apply (H _ _ runner_test.adapter); [reflexivity|discriminate|reflexivity..]. }
  destruct Hres as (res & Hres). vm_compute in Hres. discriminate.
Qed.

Example run_directory_failure :
  (runner.Run runner_test.no_directory (runner_test.config 3 0 0) runner_test.start).1
  = Err "failed to create run directory .flakehunt/latest/runs/002: permission denied".
Proof. vm_compute. reflexivity. Qed.

(** ** Retention *)

(** The directories a list of events says were removed, in order. *)
Definition removed_dirs (E : list runner.event) : list string :=
  omap (fun e => match e with runner.Removed dir => Some dir | runner.Started _ _ _ => None end) E.

(** C9 at a thousand runs.  The names of the run directories are the run
    indices printed with [%03d]; sorted as strings, [1000] comes before
    [101].  With a thousand runs and one directory to keep, the directory
    kept is that of run 999: the directory of run 1000, the newest, is
    among the 999 removed, and run 999 is not. *)
Theorem cleanup_of_1000_runs_removes_the_newest :
  let session :=
    runner.Run runner_test.quiet (runner_test.config 1000 0 1) runner_test.start in
  match session.1 with
  | Ok res => runner.RunsExecuted res = 1000
  | Err _ => False
  end /\
  runner.dirs session.2 = ["999"]%string /\
  runner.warnings session.2 = [] /\
  length (removed_dirs (runner.events session.2)) = 999%nat /\
  bool_decide ("1000"%string ∈ removed_dirs (runner.events session.2)) = true /\
  bool_decide ("999"%string ∈ removed_dirs (runner.events session.2)) = false /\
  firstn 4 (skipn 99 (GoSort.Strings (map GoStrings.format_03d (Zseq 1 1000))))
    = ["100"; "1000"; "101"; "102"]%string.
Proof. vm_compute. repeat split. Qed.

(** ** The adapters *)

Module adapters_test.

Local Open Scope string_scope.

(** One jest test file in which two tests share their full name; the first
    failed and the second passed. *)
Definition jest_repeated : jest.JestOutput.t :=
  jest.JestOutput.mk
    [ jest.TestResult.mk "a.test.js" "failed"
        [ jest.AssertionResult.mk "t" "failed" "t" 5 ["boom"];
          jest.AssertionResult.mk "t" "passed" "t" 7 [] ] ].

(** The fixture [retries_multifile] of the cypress tests: the test fails in
    [001.xml] and passes in [002.xml]. *)
Definition flaky_case (time : float) (failure : option cypress.JUnitFailure.t)
  : cypress.JUnitTestCase.t :=
  cypress.JUnitTestCase.mk "flaky test" "cypress/e2e/flaky.cy.js" time failure None None.

Definition retries_multifile (path : string) : cypress.xml_file :=
  if path =? "run/001.xml" then
    cypress.Readable 300
      (Some [cypress.JUnitTestSuite.mk "cypress/e2e/flaky.cy.js"
               [flaky_case 1%float
                  (Some (cypress.JUnitFailure.mk "First attempt failed" "Error" "Failed"))]])
      None
  else if path =? "run/002.xml" then
    cypress.Readable 300
      (Some [cypress.JUnitTestSuite.mk "cypress/e2e/flaky.cy.js" [flaky_case 1.5%float None]])
      None
  else cypress.Unreadable "no such file".

End adapters_test.

Example TestParseRetriesFromMultipleFiles :
  match cypress.Parse adapters_test.retries_multifile "run"
          (Ok ["run/002.xml"; "run/001.xml"]%string) with
  | Ok r => map (fun t => (TestResult.TestID t, TestResult.Outcome t, TestResult.Duration t))
                (RunResult.Tests r)
            = [("cypress/e2e/flaky.cy.js::flaky test"%string, OutcomePass, 1500000000)]
  | Err _ => False
  end.
Proof. vm_compute. reflexivity. Qed.

(** C8 for the jest adapter.  The artifact lists the identity
    [a.test.js::t] twice, failed then passed; [Parse] returns both results,
    the failed one and the passed one, where the cypress adapter keeps the
    last. *)
Theorem jest_parse_keeps_every_occurrence :
  match jest.Parse (jest.Readable 100 (Ok adapters_test.jest_repeated)) "run" with
  | inr r =>
      map (fun t => (TestResult.TestID t, TestResult.Outcome t)) (RunResult.Tests r)
      = [("a.test.js::t"%string, OutcomeFail); ("a.test.js::t"%string, OutcomePass)]
  | inl _ => False
  end.
Proof. vm_compute. reflexivity. Qed.

(** The session made of that one jest run: the test is counted twice and
    classified as flaky on a single run. *)
Example jest_repeated_is_flaky :
  match jest.Parse (jest.Readable 100 (Ok adapters_test.jest_repeated)) "run" with
  | inr r =>
      map (fun t => (AggregatedTest.PassCount t, AggregatedTest.FailCount t,
                     AggregatedTest.Classification t))
          (classify.Aggregate [RunResult.mk 1 (RunResult.Tests r) ""])
      = [(1, 1, ClassificationFlaky)]
  | inl _ => False
  end.
Proof. vm_compute. reflexivity. Qed.

(** * Further properties of the code *)

(** ** [Aggregate]: the identities *)

Lemma occurrences_pos_iff id runs :
  (0 < occurrences id (all_tests runs))%nat <->
  exists run, run ∈ runs /\ id ∈ map TestResult.TestID (RunResult.Tests run).
Proof.
  unfold all_tests. induction runs as [|run runs IH]; simpl.
  - split; [unfold occurrences; simpl; lia|]. intros (run & Hin & _). inversion Hin.
  - rewrite occurrences_app. split.
    + intros Hpos.
      destruct (decide (id ∈ map TestResult.TestID (RunResult.Tests run))) as [Hin|Hnin].
      * exists run. split; [left|assumption].
      * rewrite occurrences_run_zero in Hpos by assumption.
        destruct IH as [IH _]. destruct (IH ltac:(lia)) as (run' & Hin' & Hid).
        exists run'. split; [right|]; assumption.
    + intros (run' & Hin & Hid). apply elem_of_cons in Hin as [->|Hin].
      * assert (0 < occurrences id (map (pair (RunResult.RunIndex run)) (RunResult.Tests run)))%nat;
          [|lia].
        unfold occurrences. generalize (RunResult.Tests run) Hid. clear.
        intros tests. induction tests as [|t tests IHt]; simpl; intros Hid; [inversion Hid|].
        rewrite filter_cons. case_decide; simpl in *; [lia|].
        apply elem_of_cons in Hid as [->|Hid]; [congruence|auto].
      * destruct IH as [_ IH]. specialize (IH (ex_intro _ run' (conj Hin Hid))). lia.
Qed.

(** X1.  [Aggregate] returns one test for every identity that appears in some
    run, and no other test: the identities of the result are pairwise
    distinct and are exactly the identities of the runs.  In particular no
    runs, or runs without test data, give the empty list. *)
Theorem aggregate_identities runs :
  NoDup (map AggregatedTest.TestID (classify.Aggregate runs)) /\
  (forall id,
     id ∈ map AggregatedTest.TestID (classify.Aggregate runs) <->
     exists run, run ∈ runs /\ id ∈ map TestResult.TestID (RunResult.Tests run)) /\
  (classify.Aggregate runs = [] <->
   forall run, run ∈ runs -> RunResult.Tests run = []).
Proof.
  split; [apply Aggregate_NoDup|].
  assert (Hids : forall id,
     id ∈ map AggregatedTest.TestID (classify.Aggregate runs) <->
     exists run, run ∈ runs /\ id ∈ map TestResult.TestID (RunResult.Tests run)).
  { intros id. rewrite <- occurrences_pos_iff. split.
    - intros (t & -> & Hin)%list_elem_of_fmap.
      apply Aggregate_elem in Hin as (_ & id & agg & Hm & ->). simpl.
      pose proof (accumulate_aggregates (all_tests runs) id) as Hagg.
      rewrite <- accumulate_runs_flat, Hm in Hagg.
      rewrite (agg_id _ _ _ Hagg). apply (agg_seen _ _ _ Hagg).
    - intros Hocc. destruct (Aggregate_has_test runs id Hocc) as (t & Hin & <-).
      apply list_elem_of_fmap. eauto. }
  split; [exact Hids|]. split.
  - intros Hnil run Hrun. destruct (RunResult.Tests run) as [|t tests] eqn:Ht; [reflexivity|].
    exfalso. destruct (Hids (TestResult.TestID t)) as [_ H].
    rewrite Hnil in H.
    assert (Hin : TestResult.TestID t ∈ map TestResult.TestID (RunResult.Tests run))
      by (rewrite Ht; left).
    specialize (H (ex_intro _ run (conj Hrun Hin))). inversion H.
  - intros Hall. apply Aggregate_no_tests, Forall_forall. exact Hall.
Qed.

(** ** [Aggregate]: failure evidence and average duration *)

(** The evidence [Aggregate] builds for a failing result. *)
Definition evidence_of (p : Z * TestResult.t) : FailureEvidence.t :=
  FailureEvidence.mk p.1
    (classify.truncateExcerpt (TestResult.FailureMessage p.2))
    (classify.DetectSignature (TestResult.FailureMessage p.2)).

(** The failing results of test [id], and its results that are not skips. *)
Definition failures (id : string) (l : list (Z * TestResult.t)) : list (Z * TestResult.t) :=
  filter (fun p => TestResult.TestID p.2 = id /\ TestResult.Outcome p.2 = OutcomeFail) l.

Definition timed (id : string) (l : list (Z * TestResult.t)) : list (Z * TestResult.t) :=
  filter (fun p => TestResult.TestID p.2 = id /\ TestResult.Outcome p.2 <> OutcomeSkip) l.

Definition durations (id : string) (l : list (Z * TestResult.t)) : list Z :=
  map (fun p => TestResult.Duration p.2) (timed id l).

Lemma filter_none_of_id id (l : list (Z * TestResult.t))
    (P : Z * TestResult.t -> Prop) `{!forall p, Decision (P p)} :
  occurrences id l = 0%nat -> (forall p, P p -> TestResult.TestID p.2 = id) ->
  filter P l = [].
Proof.
  unfold occurrences. intros Hocc HP. apply length_zero_iff_nil in Hocc.
  induction l as [|p l IH]; [reflexivity|].
  rewrite filter_cons in Hocc |- *.
  case_decide as Hp; [discriminate|].
  rewrite decide_False by (intros HPp; apply Hp, HP, HPp).
  apply IH. assumption.
Qed.

Lemma accumulate_details l :
  forall id agg,
    fold_left step l ∅ !! id = Some agg ->
    classify.failureEvidence agg = map evidence_of (failures id l) /\
    classify.totalDuration agg = GoInt.wrap64 (Zsum (durations id l)) /\
    classify.durationCount agg = GoInt.wrap64 (Z.of_nat (length (durations id l))).
Proof.
  unfold durations, failures, timed.
  induction l as [|[i t] l IH] using rev_ind; intros id agg.
  - simpl. rewrite lookup_empty. discriminate.
  - rewrite fold_left_app. simpl. set (m := fold_left step l ∅) in *.
    unfold step at 1, classify.accumulate. simpl.
    rewrite !filter_app, !filter_cons, !filter_nil. simpl.
    destruct (decide (id = TestResult.TestID t)) as [->|Hne].
    + rewrite lookup_insert_eq. intros [= <-].
      set (agg0 := match m !! TestResult.TestID t with
                   | Some agg => agg
                   | None => classify.mkAgg (TestResult.TestID t) 0 0 0 0 0 []
                   end).
      assert (Hbase :
                classify.failureEvidence agg0
                  = map evidence_of
                      (filter (fun p => TestResult.TestID p.2 = TestResult.TestID t
                                        /\ TestResult.Outcome p.2 = OutcomeFail) l) /\
                classify.totalDuration agg0
                  = GoInt.wrap64
                      (Zsum (map (fun p => TestResult.Duration p.2)
                               (filter (fun p => TestResult.TestID p.2 = TestResult.TestID t
                                                 /\ TestResult.Outcome p.2 <> OutcomeSkip) l))) /\
                classify.durationCount agg0
                  = GoInt.wrap64
                      (Z.of_nat (length (map (fun p => TestResult.Duration p.2)
                               (filter (fun p => TestResult.TestID p.2 = TestResult.TestID t
                                                 /\ TestResult.Outcome p.2 <> OutcomeSkip) l))))).
      { unfold agg0. destruct (m !! TestResult.TestID t) as [agg1|] eqn:Hm; [apply IH; assumption|].
        pose proof (accumulate_aggregates l (TestResult.TestID t)) as Hocc.
        fold m in Hocc. rewrite Hm in Hocc.
        rewrite !(filter_none_of_id (TestResult.TestID t) l) by (assumption || intros p [Hp _]; exact Hp).
        simpl. auto. }
      clearbody agg0. destruct Hbase as (He & Ht & Hd).
      destruct (TestResult.Outcome t) eqn:Ho; simpl;
        repeat (case_decide; try (intuition congruence));
        simpl; rewrite ?map_app, ?Zsum_app, ?length_app, ?app_nil_r, ?He, ?Ht, ?Hd; simpl;
        unfold GoInt.add, GoInt.incr; rewrite ?wrap64_add_l;
        repeat split; try reflexivity; f_equal; unfold Zsum; simpl; lia.
    + rewrite lookup_insert_ne by congruence. intros Hm.
      destruct (IH id agg Hm) as (He & Ht & Hd).
      rewrite !decide_False by (simpl; intuition congruence).
      rewrite !app_nil_r. auto.
Qed.

(** [sort.Slice] by an integer key puts the keys in non-decreasing order. *)
Lemma insert_by_key {A} (key : A -> Z) x l :
  StronglySorted (fun a b => key a <= key b) l ->
  StronglySorted (fun a b => key a <= key b)
    (GoSort.insert (fun a b => key a <? key b) x l).
Proof.
  intros Hs. induction Hs as [|y l Hs IH Hy]; simpl.
  - repeat constructor.
  - destruct (Z.ltb_spec (key x) (key y)) as [Hlt|Hge].
    + constructor; [constructor; assumption|].
      constructor; [lia|].
      rewrite Forall_forall in Hy |- *. intros z Hz. specialize (Hy z Hz). lia.
    + constructor; [assumption|].
      rewrite Forall_forall in Hy |- *. intros z Hz.
      rewrite (insert_Permutation _ x l) in Hz.
      apply elem_of_cons in Hz as [->|Hz]; [assumption|]. apply Hy, Hz.
Qed.

Lemma Slice_by_key {A} (key : A -> Z) l :
  StronglySorted (fun a b => key a <= key b)
    (GoSort.Slice (fun a b => key a <? key b) l).
Proof.
  unfold GoSort.Slice.
  assert (H : forall acc, StronglySorted (fun a b => key a <= key b) acc ->
            StronglySorted (fun a b => key a <= key b)
              (fold_left (fun acc x => GoSort.insert (fun a b => key a <? key b) x acc) l acc)).
  { induction l as [|x l IH]; intros acc Hacc; simpl; [assumption|].
    apply IH, insert_by_key, Hacc. }
  apply H. constructor.
Qed.

(** X2.  The failure evidence of every test that [Aggregate] returns holds
    one entry for each failing result of the test, with the index of the run
    of that result, the excerpt of its message and the signature detected in
    it, and nothing else; the entries are in non-decreasing order of run
    index. *)
Theorem aggregate_failure_evidence runs :
  Forall (fun t =>
            Permutation (AggregatedTest.FailureEvidence t)
              (map evidence_of (failures (AggregatedTest.TestID t) (all_tests runs))) /\
            StronglySorted
              (fun a b => FailureEvidence.RunIndex a <= FailureEvidence.RunIndex b)
              (AggregatedTest.FailureEvidence t))
    (classify.Aggregate runs).
Proof.
  apply Forall_forall. intros t Hin.
  apply Aggregate_elem in Hin as (Hne & id & agg & Hm & ->).
  rewrite accumulate_runs_flat in Hm.
  pose proof (accumulate_aggregates (all_tests runs) id) as Hagg. rewrite Hm in Hagg.
  destruct (accumulate_details _ _ _ Hm) as (He & _ & _).
  simpl. rewrite (agg_id _ _ _ Hagg). split.
  - rewrite Slice_Permutation, He. reflexivity.
  - apply (Slice_by_key FailureEvidence.RunIndex).
Qed.

Lemma quot_in_int64 a b : GoInt.in_int64 a -> 0 < b -> GoInt.in_int64 (Z.quot a b).
Proof.
  unfold GoInt.in_int64, GoInt.min_int64, GoInt.max_int64. intros Ha Hb.
  destruct (Z.le_gt_cases 0 a) as [H0|H0].
  - pose proof (Z.quot_pos a b H0 Hb). pose proof (Z.quot_le_upper_bound a b a Hb ltac:(nia)). lia.
  - pose proof (Z.quot_opp_l a b ltac:(lia)) as Ho.
    pose proof (Z.quot_pos (- a) b ltac:(lia) Hb).
    pose proof (Z.quot_le_upper_bound (- a) b (- a) Hb ltac:(nia)). lia.
Qed.

(** X3.  The average duration of a test that [Aggregate] returns is the sum
    of the durations of its results that are not skips, divided by their
    number and truncated toward zero; it is [0] when every result is a skip.
    The counters and the sum are assumed not to overflow. *)
Theorem aggregate_average_duration runs t :
  countable runs ->
  GoInt.in_int64 (Zsum (durations (AggregatedTest.TestID t) (all_tests runs))) ->
  t ∈ classify.Aggregate runs ->
  let ds := durations (AggregatedTest.TestID t) (all_tests runs) in
  AggregatedTest.AvgDuration t =
    match ds with
    | [] => 0
    | _ :: _ => Z.quot (Zsum ds) (Z.of_nat (length ds))
    end.
Proof.
  intros Hc Hsum Hin.
  apply Aggregate_elem in Hin as (Hne & id & agg & Hm & ->).
  rewrite accumulate_runs_flat in Hm.
  pose proof (accumulate_aggregates (all_tests runs) id) as Hagg. rewrite Hm in Hagg.
  destruct (accumulate_details _ _ _ Hm) as (_ & Ht & Hd).
  simpl in *. rewrite (agg_id _ _ _ Hagg) in *.
  assert (Hlen : (length (durations id (all_tests runs)) <= length (all_tests runs))%nat).
  { unfold durations, timed. rewrite length_map. apply length_filter. }
  rewrite (countable_wrap runs) in Hd by assumption.
  rewrite wrap64_small in Ht by assumption.
  rewrite Ht, Hd.
  destruct (durations id (all_tests runs)) as [|d ds] eqn:Hds; [reflexivity|].
  replace (0 <? Z.of_nat (length (d :: ds))) with true by (symmetry; apply Z.ltb_lt; simpl; lia).
  unfold GoInt.div. apply wrap64_small, quot_in_int64; [assumption|simpl; lia].
Qed.

Lemma aggregate_average_duration_witness :
  AggregatedTest.AvgDuration multiple_runs_first = classify_test.ms 200.
Proof.
  apply (aggregate_average_duration classify_test.multiple_runs multiple_runs_first).
  - exact multiple_runs_countable.
  - vm_compute. split; discriminate.
  - exact multiple_runs_first_elem.
Defined.

(** ** [FilterByClassification], [TopFlakes] and [buildReport] *)

Lemma FilterByClassification_sublist tests class :
  sublist (classify.FilterByClassification tests class) tests.
Proof.
  unfold classify.FilterByClassification.
  induction tests as [|t tests IH]; simpl; [constructor|].
  destruct (bool_decide _); [apply sublist_skip|apply sublist_cons]; assumption.
Qed.

Lemma FilterByClassification_Forall tests class :
  Forall (fun t => AggregatedTest.Classification t = class)
    (classify.FilterByClassification tests class).
Proof.
  unfold classify.FilterByClassification. apply Forall_forall. intros t Hin.
  apply list_elem_of_In, filter_In in Hin as [_ Hin]. apply bool_decide_eq_true in Hin.
  exact Hin.
Qed.

Lemma top_flakes_firstn tests n :
  0 <= n ->
  classify.TopFlakes tests n
  = firstn (Z.to_nat n) (classify.FilterByClassification tests ClassificationFlaky).
Proof.
  intros Hn. unfold classify.TopFlakes.
  destruct (Z.leb_spec
              (Z.of_nat (length (classify.FilterByClassification tests ClassificationFlaky)))
              n) as [Hle|Hgt]; [|reflexivity].
  symmetry. apply firstn_all2. lia.
Qed.

Lemma top_flakes_length tests n :
  0 <= n ->
  Z.of_nat (length (classify.TopFlakes tests n))
  = Z.min n (Z.of_nat (length (classify.FilterByClassification tests ClassificationFlaky))).
Proof. intros Hn. rewrite top_flakes_firstn, length_firstn by assumption. lia. Qed.

(** X4.  For a count [n] that is not negative, [TopFlakes] returns the
    first [n] flaky tests of the list, in the order of the list, or all of
    them when there are fewer: [min n f] tests, [f] the number of flaky
    tests, each of them flaky. *)
Theorem top_flakes_are_the_first_flaky tests n :
  0 <= n ->
  let flaky := classify.FilterByClassification tests ClassificationFlaky in
  let top := classify.TopFlakes tests n in
  top = firstn (Z.to_nat n) flaky /\
  Z.of_nat (length top) = Z.min n (Z.of_nat (length flaky)) /\
  Forall (fun t => AggregatedTest.Classification t = ClassificationFlaky) top /\
  sublist top tests.
Proof.
  intros Hn flaky top.
  assert (Htop : top = firstn (Z.to_nat n) flaky) by (apply top_flakes_firstn, Hn).
  split; [exact Htop|]. rewrite Htop. split; [|split].
  - rewrite length_firstn. lia.
  - apply Forall_take. apply FilterByClassification_Forall.
  - transitivity flaky; [apply sublist_take|apply FilterByClassification_sublist].
Qed.

Lemma top_flakes_are_the_first_flaky_witness :
  let tests := classify.Aggregate classify_test.multiple_runs in
  classify.TopFlakes tests 10 = [multiple_runs_first].
Proof.
  intros tests.
  rewrite (proj1 (top_flakes_are_the_first_flaky tests 10 ltac:(lia))).
  vm_compute. reflexivity.
Defined.

Lemma FilterByClassification_snoc tests t class :
  classify.FilterByClassification (tests ++ [t]) class =
  (classify.FilterByClassification tests class ++
   if bool_decide (AggregatedTest.Classification t = class) then [t] else [])%list.
Proof.
  unfold classify.FilterByClassification. rewrite List.filter_app. simpl.
  destruct (bool_decide _); reflexivity.
Qed.

Lemma count_test_spec tests :
  fold_left main.count_test tests (0, 0, 0) =
  (GoInt.wrap64
     (Z.of_nat (length (classify.FilterByClassification tests ClassificationFlaky))),
   GoInt.wrap64
     (Z.of_nat (length (classify.FilterByClassification tests ClassificationStable))),
   GoInt.wrap64
     (Z.of_nat (length (classify.FilterByClassification tests
                          ClassificationDeterministicFail)))).
Proof.
  induction tests as [|t tests IH] using rev_ind; [reflexivity|].
  rewrite fold_left_app, IH, !FilterByClassification_snoc. simpl.
  destruct (AggregatedTest.Classification t) eqn:Hc; simpl;
    rewrite ?bool_decide_true by reflexivity;
    rewrite ?bool_decide_false by discriminate;
    rewrite ?app_nil_r, ?length_app; simpl;
    unfold GoInt.incr; rewrite ?wrap64_add_l;
    repeat f_equal; lia.
Qed.

Lemma FilterByClassification_lengths tests :
  (length (classify.FilterByClassification tests ClassificationFlaky)
   + length (classify.FilterByClassification tests ClassificationStable)
   + length (classify.FilterByClassification tests ClassificationDeterministicFail)
   = length tests)%nat.
Proof.
  induction tests as [|t tests IH] using rev_ind; [reflexivity|].
  rewrite !FilterByClassification_snoc, !length_app. simpl.
  destruct (AggregatedTest.Classification t) eqn:Hc;
    rewrite ?bool_decide_true by reflexivity;
    rewrite ?bool_decide_false by discriminate; simpl; lia.
Qed.

(** X5.  The three counts of the report [buildReport] returns are the
    numbers of flaky, stable and deterministically failing tests of the list
    (fewer than [2^63] tests); they add up to the number of tests; the report
    lists at most ten top flakes, all of them when no more than ten tests
    are flaky, and carries the list of tests unchanged. *)
Theorem report_counts_partition_the_tests tool target runsExecuted tests :
  Z.of_nat (length tests) < 2 ^ 63 ->
  let rpt := main.buildReport tool target runsExecuted tests in
  main.Report.FlakyCount rpt
    = Z.of_nat (length (classify.FilterByClassification tests ClassificationFlaky)) /\
  main.Report.StableCount rpt
    = Z.of_nat (length (classify.FilterByClassification tests ClassificationStable)) /\
  main.Report.DetFailCount rpt
    = Z.of_nat (length (classify.FilterByClassification tests
                          ClassificationDeterministicFail)) /\
  main.Report.FlakyCount rpt + main.Report.StableCount rpt + main.Report.DetFailCount rpt
    = Z.of_nat (length tests) /\
  Z.of_nat (length (main.Report.TopFlakes rpt)) = Z.min 10 (main.Report.FlakyCount rpt) /\
  main.Report.Tests rpt = tests.
Proof.
  intros Hlen. unfold main.buildReport. rewrite count_test_spec.
  pose proof (FilterByClassification_lengths tests) as Hsum.
  cbn [main.Report.FlakyCount main.Report.StableCount main.Report.DetFailCount
       main.Report.TopFlakes main.Report.Tests].
  rewrite !wrap64_small
    by (unfold GoInt.in_int64, GoInt.min_int64, GoInt.max_int64; lia).
  split; [reflexivity|]. split; [reflexivity|]. split; [reflexivity|].
  split; [lia|]. split; [|reflexivity].
  pose proof (top_flakes_length tests 10 ltac:(lia)) as H. exact H.
Qed.

Lemma report_counts_partition_the_tests_witness :
  let rpt := main.buildReport "jest" "npx jest" 2
               (classify.Aggregate classify_test.multiple_runs) in
  main.Report.FlakyCount rpt = 1 /\ main.Report.StableCount rpt = 1 /\
  main.Report.DetFailCount rpt = 1.
Proof.
  pose proof (report_counts_partition_the_tests "jest" "npx jest" 2
                (classify.Aggregate classify_test.multiple_runs)
                ltac:(vm_compute; reflexivity)) as (Hf & Hs & Hd & _).
  split; [exact Hf|]. split; [exact Hs|exact Hd].
Defined.

(** [Aggregate] returns no more tests than the runs hold results. *)
Lemma Aggregate_length_le runs :
  (length (classify.Aggregate runs) <= length (all_tests runs))%nat.
Proof.
  rewrite <- (length_map AggregatedTest.TestID (classify.Aggregate runs)).
  rewrite <- (length_map (fun p => TestResult.TestID p.2) (all_tests runs)).
  apply submseteq_length, NoDup_submseteq; [apply Aggregate_NoDup|].
  intros id (t & -> & Hin)%list_elem_of_fmap.
  apply Aggregate_elem in Hin as (_ & id & agg & Hm & ->).
  rewrite accumulate_runs_flat in Hm.
  pose proof (accumulate_aggregates (all_tests runs) id) as Hagg. rewrite Hm in Hagg.
  destruct Hagg as [Hid _ _ _ _ _ Hseen]. simpl. rewrite Hid.
  unfold occurrences in Hseen.
  destruct (filter (fun p => TestResult.TestID p.2 = id) (all_tests runs)) as [|p l] eqn:Hf;
    [simpl in Hseen; lia|].
  assert (Hp : p ∈ filter (fun p => TestResult.TestID p.2 = id) (all_tests runs))
    by (rewrite Hf; left).
  apply list_elem_of_filter in Hp as [Hid' Hp].
  apply list_elem_of_fmap. exists p. split; [symmetry; exact Hid'|exact Hp].
Qed.

(** A test is flaky in what [Aggregate] returns iff some result of it passed
    and some result of it failed. *)
Lemma Aggregate_flaky_iff runs :
  countable runs ->
  (exists t, t ∈ classify.Aggregate runs /\
             AggregatedTest.Classification t = ClassificationFlaky) <->
  (exists id, (0 < tally id OutcomePass (all_tests runs))%nat /\
              (0 < tally id OutcomeFail (all_tests runs))%nat).
Proof.
  intros Hc. split.
  - intros (t & Hin & Hflaky).
    pose proof (Aggregate_counts runs t Hc Hin) as (Hp & Hf & _ & Ht & _). simpl in *.
    apply Aggregate_elem in Hin as (_ & id & agg & _ & ->). simpl in *.
    pose proof (classify_spec (classify.passCount agg) (classify.failCount agg)
                  ltac:(lia) ltac:(lia)) as (HF & _). simpl in HF.
    rewrite Ht in Hflaky.
    apply HF in Hflaky. exists (classify.testID agg). lia.
  - intros (id & Hpass & Hfail).
    pose proof (occurrences_tally id (all_tests runs)) as Hocc.
    destruct (Aggregate_has_test runs id ltac:(lia)) as (t & Hin & Hid).
    exists t. split; [assumption|].
    pose proof (Aggregate_counts runs t Hc Hin) as (Hp & Hf & _ & Ht & _). simpl in *.
    rewrite Hid in *.
    apply Aggregate_elem in Hin as (_ & id' & agg & _ & ->). simpl in *.
    pose proof (classify_spec (classify.passCount agg) (classify.failCount agg)
                  ltac:(lia) ltac:(lia)) as (HF & _). simpl in HF.
    rewrite Ht. apply HF. lia.
Qed.

(** X6.  The exit status is [1] exactly when [runner.Run] returned an
    error, and [2] exactly when a failure on flakes was asked for, [Run]
    returned a result, and some test of the session has a passing and a
    failing result; it is [0] in every other case. *)
Theorem exit_status_tells_flaky_sessions failOnFlake tool target run :
  (forall res, run = Ok res -> countable (runner.RunResults res)) ->
  let status := main.exit_status failOnFlake tool target run in
  (status = main.exitError <-> exists message, run = Err message) /\
  (status = main.exitFlakeFound <->
     failOnFlake = true /\
     exists res id,
       run = Ok res /\
       (0 < tally id OutcomePass (all_tests (runner.RunResults res)))%nat /\
       (0 < tally id OutcomeFail (all_tests (runner.RunResults res)))%nat) /\
  (status <> main.exitError -> status <> main.exitFlakeFound -> status = main.exitSuccess).
Proof.
  intros Hc. unfold main.exit_status, main.exitError, main.exitFlakeFound, main.exitSuccess.
  destruct run as [res|message]; simpl.
  2: { split; [split; [eauto|reflexivity]|]. split; [|congruence].
       split; [discriminate|]. intros (_ & res & id & H & _). discriminate. }
  specialize (Hc res eq_refl).
  pose proof (Aggregate_length_le (runner.RunResults res)) as Hlen.
  assert (Hsmall : Z.of_nat (length (classify.Aggregate (runner.RunResults res))) < 2 ^ 63)
    by (unfold countable in Hc; lia).
  set (tests := classify.Aggregate (runner.RunResults res)) in *.
  assert (Hcount : main.Report.FlakyCount
                     (main.buildReport tool target (runner.RunsExecuted res) tests)
                   = Z.of_nat (length (classify.FilterByClassification tests
                                         ClassificationFlaky))).
  { unfold main.buildReport. rewrite count_test_spec. simpl.
    pose proof (FilterByClassification_lengths tests).
    apply wrap64_small. unfold GoInt.in_int64, GoInt.min_int64, GoInt.max_int64. lia. }
  rewrite Hcount.
  assert (Hpos : 0 < Z.of_nat (length (classify.FilterByClassification tests
                                         ClassificationFlaky)) <->
                 exists id,
                   (0 < tally id OutcomePass (all_tests (runner.RunResults res)))%nat /\
                   (0 < tally id OutcomeFail (all_tests (runner.RunResults res)))%nat).
  { rewrite <- (Aggregate_flaky_iff _ Hc). fold tests.
    pose proof (FilterByClassification_Forall tests ClassificationFlaky) as Hall.
    pose proof (FilterByClassification_sublist tests ClassificationFlaky) as Hsub.
    split.
    - intros Hlt.
      destruct (classify.FilterByClassification tests ClassificationFlaky) as [|t l] eqn:Hf;
        [simpl in Hlt; lia|].
      exists t. split.
      + apply (sublist_submseteq _ _) in Hsub.
        eapply elem_of_submseteq; [|exact Hsub]. left.
      + apply Forall_cons in Hall as [Ht _]. exact Ht.
    - intros (t & Hin & Hflaky).
      assert (Hin' : t ∈ classify.FilterByClassification tests ClassificationFlaky).
      { unfold classify.FilterByClassification. apply list_elem_of_In, filter_In.
        split; [apply list_elem_of_In, Hin|apply bool_decide_eq_true, Hflaky]. }
      destruct (classify.FilterByClassification tests ClassificationFlaky);
        [inversion Hin'|simpl; lia]. }
  destruct (Z.ltb_spec 0 (Z.of_nat (length (classify.FilterByClassification tests
                                              ClassificationFlaky)))) as [Hlt|Hge];
    destruct failOnFlake; simpl.
  - split; [split; [discriminate|intros (m & Hm); discriminate]|].
    split; [|congruence]. split; [|reflexivity].
    intros _. split; [reflexivity|]. apply Hpos in Hlt as (id & H1 & H2). eauto.
  - split; [split; [discriminate|intros (m & Hm); discriminate]|].
    split; [|reflexivity]. split; [discriminate|]. intros (Hf & _). discriminate.
  - split; [split; [discriminate|intros (m & Hm); discriminate]|].
    split; [|reflexivity]. split; [discriminate|].
    intros (_ & res' & id & [= <-] & H1 & H2).
    assert (0 < Z.of_nat (length (classify.FilterByClassification tests
                                     ClassificationFlaky))) by (apply Hpos; eauto).
    lia.
  - split; [split; [discriminate|intros (m & Hm); discriminate]|].
    split; [|reflexivity]. split; [discriminate|]. intros (Hf & _). discriminate.
Qed.

Lemma exit_status_tells_flaky_sessions_witness :
  main.exit_status true "jest" "npx jest"
    (Ok (runner.mkResult classify_test.multiple_runs 2 "out/latest"))
  = main.exitFlakeFound.
Proof.
  apply (exit_status_tells_flaky_sessions true "jest" "npx jest"
           (Ok (runner.mkResult classify_test.multiple_runs 2 "out/latest"))).
  - intros res [= <-]. exact multiple_runs_countable.
  - split; [reflexivity|].
    exists (runner.mkResult classify_test.multiple_runs 2 "out/latest"), "b.js::test2"%string.
    split; [reflexivity|]. split; vm_compute; lia.
Defined.

(** X7.  [findSeparator] returns [-1] when no argument is [--]; otherwise
    it returns the index of the first argument that is [--]. *)
Theorem find_separator_is_the_first args :
  ((("--" : string) ∉ args) /\ main.findSeparator args = -1) \/
  (exists n : nat,
     main.findSeparator args = Z.of_nat n /\
     args !! n = Some "--"%string /\
     forall k : nat, (k < n)%nat -> args !! k <> Some "--"%string).
Proof.
  unfold main.findSeparator.
  assert (H : forall i,
            ((("--" : string) ∉ args) /\ main.findSeparator_from i args = -1) \/
            (exists n : nat,
               main.findSeparator_from i args = i + Z.of_nat n /\
               args !! n = Some "--"%string /\
               forall k : nat, (k < n)%nat -> args !! k <> Some "--"%string)).
  { induction args as [|arg rest IH]; intros i; simpl.
    - left. split; [apply not_elem_of_nil|reflexivity].
    - destruct (String.eqb_spec arg "--") as [->|Hne].
      + right. exists 0%nat. split; [lia|]. split; [reflexivity|]. intros k Hk. lia.
      + destruct (IH (i + 1)) as [[Hnin Heq]|(n & Heq & Hn & Hfirst)].
        * left. split; [|assumption]. apply not_elem_of_cons. split; [congruence|assumption].
        * right. exists (S n). split; [lia|]. split; [exact Hn|].
          intros [|k] Hk; simpl; [congruence|]. apply Hfirst. lia. }
  destruct (H 0) as [Hl|(n & Heq & Hr)]; [left; exact Hl|right].
  exists n. split; [lia|exact Hr].
Qed.

(** ** [SignatureSummary], signature by signature *)

(** The number of evidence entries with signature [sig]. *)
Definition count_signature (sig : FailureSignature) (evs : list FailureEvidence.t) : nat :=
  length (filter (fun ev => FailureEvidence.Signature ev = sig) evs).

Lemma bump_lookup keys (k : string) :
  fold_left classify.bump keys ∅ !! k =
  match length (filter (fun k' => k' = k) keys) with
  | O => None
  | S n => Some (GoInt.wrap64 (Z.of_nat (S n)))
  end.
Proof.
  induction keys as [|k' keys IH] using rev_ind; [apply lookup_empty|].
  rewrite fold_left_app, filter_app, length_app, filter_cons, filter_nil. simpl.
  set (m := fold_left classify.bump keys ∅) in *. unfold classify.bump.
  case_decide as Hk; simpl.
  - subst k'. rewrite lookup_insert_eq, IH.
    destruct (length (filter (fun k' => k' = k) keys)) as [|n]; simpl.
    + reflexivity.
    + replace (n + 1)%nat with (S n) by lia. f_equal.
      unfold GoInt.incr. rewrite wrap64_add_l. f_equal. lia.
  - rewrite lookup_insert_ne by assumption. rewrite IH, Nat.add_0_r. reflexivity.
Qed.

Lemma FailureSignature_string_inj s1 s2 :
  FailureSignature_string s1 = FailureSignature_string s2 -> s1 = s2.
Proof. destruct s1, s2; simpl; intros H; try reflexivity; discriminate. Qed.

Lemma count_signature_keys sig evs :
  length (filter (fun k' => k' = FailureSignature_string sig)
            (map (fun ev => FailureSignature_string (FailureEvidence.Signature ev)) evs))
  = count_signature sig evs.
Proof.
  unfold count_signature. induction evs as [|ev evs IH]; [reflexivity|].
  simpl. rewrite !filter_cons.
  destruct (decide (FailureEvidence.Signature ev = sig)) as [Heq|Hne].
  - rewrite decide_True by (rewrite Heq; reflexivity). simpl. rewrite IH. reflexivity.
  - rewrite decide_False by (intros H; apply Hne, FailureSignature_string_inj, H). exact IH.
Qed.

(** X8.  For tests with fewer than [2^63] evidence entries in all, the
    summary maps the name of a signature to the number of evidence entries
    with that signature; a signature without evidence has no entry, and
    every key of the summary is the name of one of the six signatures. *)
Theorem signature_summary_counts_each_signature tests :
  Z.of_nat (length (all_evidence tests)) < 2 ^ 63 ->
  let summary := classify.SignatureSummary tests in
  (forall sig,
     summary !! FailureSignature_string sig =
     match count_signature sig (all_evidence tests) with
     | O => None
     | S n => Some (Z.of_nat (S n))
     end) /\
  (forall key, is_Some (summary !! key) -> exists sig, key = FailureSignature_string sig).
Proof.
  intros Hlen summary. unfold summary. rewrite SignatureSummary_flat. split.
  - intros sig. rewrite bump_lookup, count_signature_keys.
    pose proof (length_filter (fun ev => FailureEvidence.Signature ev = sig)
                  (all_evidence tests)) as Hle.
    fold (count_signature sig (all_evidence tests)) in Hle.
    destruct (count_signature sig (all_evidence tests)) as [|n]; [reflexivity|].
    f_equal. apply wrap64_small.
    unfold GoInt.in_int64, GoInt.min_int64, GoInt.max_int64. lia.
  - intros key [v Hv]. rewrite bump_lookup in Hv.
    destruct (filter (fun k' => k' = key) _) as [|k l] eqn:Hf; [discriminate|].
    assert (Hin : k ∈ filter (fun k' => k' = key)
                    (map (fun ev => FailureSignature_string (FailureEvidence.Signature ev))
                       (all_evidence tests))) by (rewrite Hf; left).
    apply list_elem_of_filter in Hin as [-> Hin].
    apply list_elem_of_fmap in Hin as (ev & -> & _). eauto.
Qed.

Lemma signature_summary_counts_each_signature_witness :
  let summary := classify.SignatureSummary (classify.Aggregate classify_test.multiple_runs) in
  summary !! "ASSERTION"%string = Some 2 /\ summary !! "NETWORK"%string = None.
Proof.
  pose proof (signature_summary_counts_each_signature
                (classify.Aggregate classify_test.multiple_runs)
                ltac:(vm_compute; reflexivity)) as [H _].
  split; [exact (H SignatureAssertion)|exact (H SignatureNetwork)].
Defined.

(** ** [sortedSignatures] *)

(** The order of [sortedSignatures]: count descending, then name ascending. *)
Definition lists_before (a b : report.signatureCount.t) : Prop :=
  report.signatureCount.Count b < report.signatureCount.Count a \/
  (report.signatureCount.Count a = report.signatureCount.Count b /\
   GoStrings.lt (report.signatureCount.Name a) (report.signatureCount.Name b) = true).

Lemma report_less_lists_before a b : report.less a b = true <-> lists_before a b.
Proof.
  unfold report.less, lists_before.
  destruct (Z.eqb_spec (report.signatureCount.Count a) (report.signatureCount.Count b))
    as [Heq|Hne]; simpl.
  - split; [auto|]. intros [H|[_ H]]; [lia|exact H].
  - rewrite Z.ltb_lt. split; [auto|]. intros [H|[H _]]; [exact H|contradiction].
Qed.

Lemma report_less_strict_total (P : report.signatureCount.t -> Prop) :
  strict_total_on report.less P.
Proof.
  constructor.
  - intros a _. destruct (report.less a a) eqn:H; [|reflexivity].
    apply report_less_lists_before in H as [H|[_ H]]; [lia|].
    rewrite string_lt_irrefl in H. discriminate.
  - intros a b c _ _ _ Hab Hbc. apply report_less_lists_before in Hab, Hbc.
    apply report_less_lists_before. unfold lists_before in *.
    destruct Hab as [Hab|[Hab Hab']], Hbc as [Hbc|[Hbc Hbc']];
      [left; lia|left; lia|left; lia|right].
    split; [lia|]. eapply string_lt_trans; eassumption.
  - intros [na ca] [nb cb] _ _ Hne.
    rewrite !report_less_lists_before. unfold lists_before. simpl.
    destruct (Z.lt_trichotomy ca cb) as [H|[H|H]]; [right; left; lia| |left; left; lia].
    subst cb. destruct (string_lt_total na nb) as [Hl|Hl]; [congruence| |]; auto.
Qed.

Lemma signature_entries_NoDup (summary : gmap string Z) entries :
  Permutation entries (map_to_list summary) ->
  NoDup (map (fun e : string * Z => report.signatureCount.mk e.1 e.2) entries).
Proof.
  intros Hperm. apply NoDup_fmap_2.
  - intros [n1 c1] [n2 c2]. simpl. intros [= -> ->]. reflexivity.
  - rewrite Hperm. apply NoDup_map_to_list.
Qed.

Lemma StronglySorted_weaken {A} (R R' : A -> A -> Prop) l :
  (forall a b, R a b -> R' a b) -> StronglySorted R l -> StronglySorted R' l.
Proof.
  intros HR. induction 1 as [|a l Hs IH Ha]; constructor; [assumption|].
  eapply Forall_impl; [exact Ha|]. intros b. apply HR.
Qed.

(** X9.  [sortedSignatures] lists every entry of the summary once, by count
    descending and, for equal counts, by name ascending; this order leaves no
    tie, so that the list does not depend on the order in which the map is
    read nor on the rearrangement the sort picks. *)
Theorem sorted_signatures_order summary :
  let out := report.sortedSignatures summary in
  StronglySorted lists_before out /\
  (forall name count,
     report.signatureCount.mk name count ∈ out <-> summary !! name = Some count) /\
  length out = size summary /\
  (forall out', report.sortedSignatures_may_return summary out' <-> out' = out).
Proof.
  intros out. unfold out, report.sortedSignatures, report.sortedSignatures_in_order.
  pose proof (report_less_strict_total (fun _ => True)) as Hsto.
  assert (Hall : forall l : list report.signatureCount.t, Forall (fun _ => True) l)
    by (intros l; apply Forall_forall; auto).
  split; [|split; [|split]].
  - eapply StronglySorted_weaken;
      [|apply (Slice_ascending report.less _ Hsto);
        [apply Hall|apply (signature_entries_NoDup summary), Permutation_refl]].
    intros a b H. apply report_less_lists_before, H.
  - intros name count. rewrite Slice_elem_of, list_elem_of_fmap. split.
    + intros ([n c] & [= -> ->] & Hin). apply elem_of_map_to_list in Hin. exact Hin.
    + intros Hm. exists (name, count). split; [reflexivity|].
      apply elem_of_map_to_list. exact Hm.
  - rewrite Slice_length, length_map. apply length_map_to_list.
  - intros out'. split.
    + intros (entries & Hperm & Hsort).
      rewrite (sorting_unique report.less _ Hsto _ out' (Hall _)
                 (signature_entries_NoDup summary entries Hperm) Hsort).
      apply (ascending_unique report.less _ Hsto).
      * apply Hall.
      * rewrite !Slice_Permutation. apply Permutation_map. assumption.
      * apply (Slice_ascending report.less _ Hsto);
          [apply Hall|apply (signature_entries_NoDup summary); assumption].
      * apply (Slice_ascending report.less _ Hsto);
          [apply Hall|apply (signature_entries_NoDup summary), Permutation_refl].
    + intros ->. exists (map_to_list summary). split; [reflexivity|]. split.
      * symmetry. apply Slice_Permutation.
      * assert (Hasc := Slice_ascending report.less _ Hsto
                          (map (fun e : string * Z => report.signatureCount.mk e.1 e.2)
                             (map_to_list summary))
                          (Hall _)
                          (signature_entries_NoDup summary _ (Permutation_refl _))).
        apply StronglySorted_Sorted.
        eapply StronglySorted_weaken; [|exact Hasc].
        intros a b Hab. simpl in Hab. apply (sto_asym report.less _ Hsto); auto.
Qed.

(** ** [truncateExcerpt] *)

Lemma string_length_app (s1 s2 : string) :
  String.length (s1 ++ s2) = (String.length s1 + String.length s2)%nat.
Proof. induction s1 as [|c s1 IH]; simpl; [reflexivity|]. rewrite IH. reflexivity. Qed.

Lemma prefix_length n s :
  (n <= String.length s)%nat -> String.length (GoStrings.prefix n s) = n.
Proof.
  unfold GoStrings.prefix. revert s. induction n as [|n IH]; intros s Hn.
  - destruct s; reflexivity.
  - destruct s as [|c s]; simpl in *; [lia|]. rewrite IH by lia. reflexivity.
Qed.

(** The bytes of a string. *)
Definition bytes (s : string) : list ascii := list_ascii_of_string s.

Lemma bytes_app (s1 s2 : string) : bytes (s1 ++ s2) = (bytes s1 ++ bytes s2)%list.
Proof. induction s1 as [|c s1 IH]; simpl; [reflexivity|]. unfold bytes in *. simpl. rewrite IH. reflexivity. Qed.

Lemma bytes_rev s : bytes (String.rev s) = rev (bytes s).
Proof.
  unfold String.rev.
  assert (H : forall acc, bytes (String.rev_app s acc) = (rev (bytes s) ++ bytes acc)%list).
  { induction s as [|c s IH]; intros acc; [reflexivity|].
    cbn [String.rev_app]. rewrite IH. unfold bytes. simpl.
    rewrite <- app_assoc. reflexivity. }
  rewrite H. apply app_nil_r.
Qed.

Lemma bytes_prefix n s : forall c, c ∈ bytes (GoStrings.prefix n s) -> c ∈ bytes s.
Proof.
  unfold GoStrings.prefix. revert s. induction n as [|n IH]; intros s c.
  - destruct s; simpl; intros H; inversion H.
  - destruct s as [|b s]; simpl; [intros H; inversion H|].
    intros [->|H]%elem_of_cons; [left|right; apply IH, H].
Qed.

(** A byte that is not ASCII white space. *)
Definition not_blank (c : ascii) : Prop :=
  GoStrings.byte_in 9 13 c || GoStrings.is_byte 32 c = false.

Lemma skip_space_None c rest : GoStrings.skip_space (String c rest) = None -> not_blank c.
Proof.
  unfold not_blank. simpl.
  destruct (GoStrings.byte_in 9 13 c || GoStrings.is_byte 32 c); [discriminate|reflexivity].
Qed.

Lemma fields_aux_not_blank fuel :
  forall cur s,
    Forall not_blank (bytes cur) ->
    Forall (fun w => Forall not_blank (bytes w)) (GoStrings.fields_aux fuel cur s).
Proof.
  assert (Hflush : forall cur, Forall not_blank (bytes cur) ->
            Forall (fun w => Forall not_blank (bytes w))
              (if (cur =? "")%string then [] else [String.rev cur])).
  { intros cur Hcur. destruct (cur =? "")%string; constructor; [|constructor].
    rewrite bytes_rev. apply Forall_rev, Hcur. }
  induction fuel as [|fuel IH]; intros cur s Hcur; simpl; [apply Hflush, Hcur|].
  destruct (GoStrings.skip_space s) as [rest|] eqn:Hskip.
  - apply Forall_app. split; [apply Hflush, Hcur|]. apply IH. constructor.
  - destruct s as [|c rest]; [apply Hflush, Hcur|].
    apply IH. unfold bytes. simpl. constructor; [|exact Hcur].
    apply (skip_space_None c rest Hskip).
Qed.

Lemma Join_bytes (l : list string) (sep : string) (P : ascii -> Prop) :
  Forall P (bytes sep) -> Forall (fun w => Forall P (bytes w)) l ->
  Forall P (bytes (GoStrings.Join l sep)).
Proof.
  intros Hsep. unfold GoStrings.Join. induction 1 as [|w l Hw Hl IH]; [constructor|].
  simpl. destruct l as [|w' l]; [exact Hw|].
  rewrite !bytes_app. apply Forall_app. split; [exact Hw|].
  apply Forall_app. split; [exact Hsep|exact IH].
Qed.

(** X10.  The excerpt [truncateExcerpt] keeps of a failure message is at
    most 200 bytes long and holds no tab, line feed, vertical tab, form feed
    or carriage return; it is the message with its white space normalised
    when that is at most 200 bytes long, and otherwise the first 197 bytes
    of it followed by three dots, 200 bytes in all. *)
Theorem excerpt_is_short_and_on_one_line s :
  let normal := GoStrings.Join (GoStrings.Fields s) " " in
  let e := classify.truncateExcerpt s in
  GoStrings.len e <= 200 /\
  Forall (fun c => GoStrings.byte_in 9 13 c = false) (bytes e) /\
  (GoStrings.len normal <= 200 -> e = normal) /\
  (200 < GoStrings.len normal ->
   GoStrings.len e = 200 /\ e = (GoStrings.prefix 197 normal ++ "...")%string).
Proof.
  intros normal e.
  assert (Hnormal : Forall (fun c => GoStrings.byte_in 9 13 c = false) (bytes normal)).
  { apply Join_bytes; [repeat constructor|].
    eapply Forall_impl; [apply fields_aux_not_blank; constructor|].
    intros w Hw. eapply Forall_impl; [exact Hw|].
    intros c Hc. unfold not_blank in Hc. apply orb_false_iff in Hc as [Hc _]. exact Hc. }
  unfold e, classify.truncateExcerpt, classify.maxExcerptLen. fold normal.
  destruct (Z.leb_spec (GoStrings.len normal) 200) as [Hle|Hgt].
  - split; [exact Hle|]. split; [exact Hnormal|]. split; [reflexivity|]. lia.
  - assert (Hlen : GoStrings.len (GoStrings.prefix (Z.to_nat (200 - 3)) normal ++ "...")%string
                   = 200).
    { unfold GoStrings.len in *. rewrite string_length_app, prefix_length by lia.
      simpl. lia. }
    split; [lia|]. split; [|split; [lia|]].
    + rewrite bytes_app. apply Forall_app. split; [|repeat constructor].
      apply Forall_forall. intros c Hc. apply bytes_prefix in Hc.
      rewrite Forall_forall in Hnormal. apply Hnormal, Hc.
    + intros _. split; [exact Hlen|reflexivity].
Qed.

Example excerpt_of_a_stack_trace :
  classify.truncateExcerpt
    (String (ascii_of_N 10) "  Error:   expected 1" ++ String (ascii_of_N 9) "to equal 2 "
     ++ String (ascii_of_N 10) "")%string
  = "Error: expected 1 to equal 2"%string.
Proof. reflexivity. Qed.

(** ** [DetectSignature] and the case of letters *)

(** [s] with every byte replaced by its image under [f]. *)
Fixpoint map_bytes (f : ascii -> ascii) (s : string) : string :=
  match s with
  | EmptyString => EmptyString
  | String c s' => String (f c) (map_bytes f s')
  end.

(** [f] changes at most the case of ASCII letters. *)
Definition changes_case_only (f : ascii -> ascii) : Prop :=
  forall b, GoStrings.to_lower (f b) = GoStrings.to_lower b.

Lemma to_lower_is_word b : regexp.is_word (GoStrings.to_lower b) = regexp.is_word b.
Proof. destruct b as [[] [] [] [] [] [] [] []]; reflexivity. Qed.

Lemma to_lower_is_space b : regexp.is_space (GoStrings.to_lower b) = regexp.is_space b.
Proof. destruct b as [[] [] [] [] [] [] [] []]; reflexivity. Qed.

Lemma to_lower_is_byte n b :
  (128 <=? n)%N = true -> GoStrings.is_byte n (GoStrings.to_lower b) = GoStrings.is_byte n b.
Proof.
  intros Hn%N.leb_le. unfold GoStrings.to_lower.
  destruct (GoStrings.byte_in 65 90 b) eqn:Hb; [|reflexivity].
  unfold GoStrings.byte_in in Hb. apply andb_true_iff in Hb as [H1%N.leb_le H2%N.leb_le].
  unfold GoStrings.is_byte. rewrite N_ascii_embedding by lia.
  transitivity false; [|symmetry]; apply N.eqb_neq; lia.
Qed.

Section IgnoresCase.
Variable f : ascii -> ascii.
Hypothesis Hf : changes_case_only f.

Lemma changes_case_is_word b : regexp.is_word (f b) = regexp.is_word b.
Proof. rewrite <- (to_lower_is_word (f b)), Hf. apply to_lower_is_word. Qed.

Lemma changes_case_is_space b : regexp.is_space (f b) = regexp.is_space b.
Proof. rewrite <- (to_lower_is_space (f b)), Hf. apply to_lower_is_space. Qed.

Lemma is_byte_high n b :
  (128 <=? n)%N = true -> GoStrings.is_byte n (f b) = GoStrings.is_byte n b.
Proof.
  intros Hn. rewrite <- (to_lower_is_byte n (f b) Hn), Hf. apply to_lower_is_byte, Hn.
Qed.

Lemma eat_lit_ignores_case c s :
  regexp.eat_lit c (map_bytes f s) =
  option_map (fun p : ascii * string => (f p.1, map_bytes f p.2)) (regexp.eat_lit c s).
Proof.
  destruct s as [|b [|b1 [|b2 s3]]]; cbn [map_bytes regexp.eat_lit];
    rewrite ?Hf, ?is_byte_high by reflexivity.
  - reflexivity.
  - destruct (Ascii.eqb _ _); reflexivity.
  - destruct (Ascii.eqb (GoStrings.to_lower b) _); [reflexivity|].
    destruct (_ && _ && _); reflexivity.
  - destruct (Ascii.eqb (GoStrings.to_lower b) _); [reflexivity|].
    destruct (Ascii.eqb (GoStrings.to_lower c) "s" && _ && _); [reflexivity|].
    destruct (_ && _ && _ && _); reflexivity.
Qed.

Lemma is_word_opt_ignores_case prev :
  regexp.is_word_opt (option_map f prev) = regexp.is_word_opt prev.
Proof. destruct prev; simpl; [apply changes_case_is_word|reflexivity]. Qed.

Lemma next_byte_ignores_case s :
  regexp.next_byte (map_bytes f s) = option_map f (regexp.next_byte s).
Proof. destruct s; reflexivity. Qed.

Lemma match_here_ignores_case re :
  forall prev s,
    regexp.match_here re (option_map f prev) (map_bytes f s) = regexp.match_here re prev s.
Proof.
  induction re as [|a re IH]; intros prev s; [reflexivity|].
  destruct a as [c|c| |]; cbn [regexp.match_here].
  - rewrite eat_lit_ignores_case. destruct (regexp.eat_lit c s) as [[b rest]|]; simpl; [|reflexivity].
    apply (IH (Some b)).
  - rewrite eat_lit_ignores_case, IH.
    destruct (regexp.eat_lit c s) as [[b rest]|]; simpl; [|reflexivity].
    rewrite (IH (Some b)). reflexivity.
  - revert prev. induction s as [|b s IHs]; intros prev.
    + pose proof (IH prev ""%string) as H. cbn [map_bytes] in H |- *. rewrite H. reflexivity.
    + pose proof (IH prev (String b s)) as H. pose proof (IHs (Some b)) as Hs.
      cbn [map_bytes option_map] in H, Hs |- *. rewrite H, changes_case_is_space, Hs.
      reflexivity.
  - rewrite IH, is_word_opt_ignores_case, next_byte_ignores_case, is_word_opt_ignores_case.
    reflexivity.
Qed.

Lemma search_ignores_case re :
  forall prev s,
    regexp.search re (option_map f prev) (map_bytes f s) = regexp.search re prev s.
Proof.
  intros prev s. revert prev. induction s as [|b s IHs]; intros prev.
  - pose proof (match_here_ignores_case re prev ""%string) as H.
    cbn [map_bytes regexp.search] in H |- *. rewrite H. reflexivity.
  - pose proof (match_here_ignores_case re prev (String b s)) as H.
    pose proof (IHs (Some b)) as Hs.
    cbn [map_bytes option_map regexp.search] in H, Hs |- *. rewrite H, Hs. reflexivity.
Qed.

Lemma detect_in_ignores_case rules s :
  classify.detect_in rules (map_bytes f s) = classify.detect_in rules s.
Proof.
  induction rules as [|[sig patterns] rules IH]; [reflexivity|].
  cbn [classify.detect_in]. rewrite IH.
  replace (classify.any_pattern patterns (map_bytes f s))
    with (classify.any_pattern patterns s); [reflexivity|].
  clear IH. induction patterns as [|p patterns IHp]; [reflexivity|].
  cbn [classify.any_pattern]. rewrite IHp. unfold regexp.MatchString.
  pose proof (search_ignores_case p None s) as H. cbn [option_map] in H.
  rewrite H. reflexivity.
Qed.

End IgnoresCase.

(** X11.  The signature of a message does not depend on the case of its
    ASCII letters: changing the case of any of them leaves the result of
    [DetectSignature] unchanged. *)
Theorem detect_signature_ignores_case (f : ascii -> ascii) message :
  changes_case_only f ->
  classify.DetectSignature (map_bytes f message) = classify.DetectSignature message.
Proof.
  intros Hf. unfold classify.DetectSignature.
  rewrite (detect_in_ignores_case f Hf).
  destruct message; reflexivity.
Qed.

Lemma to_lower_changes_case_only : changes_case_only GoStrings.to_lower.
Proof. intros b. destruct b as [[] [] [] [] [] [] [] []]; reflexivity. Defined.

Lemma detect_signature_ignores_case_witness :
  classify.DetectSignature "connect econnrefused 127.0.0.1:80"
  = classify.DetectSignature "connect ECONNREFUSED 127.0.0.1:80".
Proof.
  exact (detect_signature_ignores_case GoStrings.to_lower
           "connect ECONNREFUSED 127.0.0.1:80" to_lower_changes_case_only).
Defined.

(** ** The session: directories, warnings and completion *)

(** [os.MkdirAll] of the directory of run [j], as [runner.mkdir] does it. *)
Definition add_dir (ds : list string) (j : Z) : list string :=
  if bool_decide (GoStrings.format_03d j ∈ ds) then ds
  else (ds ++ [GoStrings.format_03d j])%list.

Lemma executeRun_cancelled env cfg adapter runDir j w :
  runner.cancelled (runner.executeRun env cfg adapter runDir j w).2 = true ->
  runner.cancelled w = true \/ runner.interrupted env j = true.
Proof.
  unfold runner.executeRun.
  destruct (runner.BuildCommand adapter runDir (runner.Command cfg)); [simpl; auto|].
  destruct (runner.stdout_error env j); [simpl; auto|].
  destruct (runner.stderr_error env j); [simpl; auto|].
  destruct (runner.artifact_missing env j); [simpl; apply orb_true_iff|].
  destruct (runner.parse env j); simpl; apply orb_true_iff.
Qed.

(** What the loop does to the output tree, the warnings and the
    cancellation, from run [i] on. *)
Lemma run_loop_world env cfg adapter runsDir startTime fuel :
  forall i acc w r w',
  runner.run_loop fuel env cfg adapter runsDir startTime i acc w = (r, w') ->
  exists k : nat,
    runner.dirs w' = fold_left add_dir (Zseq i k) (runner.dirs w) /\
    runner.warnings w' = runner.warnings w /\
    removed_dirs (runner.events w') = removed_dirs (runner.events w) /\
    (runner.cancelled w' = true ->
     runner.cancelled w = true \/
     exists j, j ∈ Zseq i k /\ runner.interrupted env j = true) /\
    match r with
    | Ok runResults => length runResults = (length acc + k)%nat
    | Err _ => True
    end.
Proof.
  induction fuel as [|fuel IH]; intros i acc w r w'; simpl.
  - intros [= <- <-]. exists 0%nat. simpl. repeat split; auto; try lia; congruence.
  - destruct (Z.leb_spec i (runner.Runs cfg)) as [Hle|Hgt]; simpl.
    2: { intros [= <- <-]. exists 0%nat. simpl. repeat split; auto; try lia; congruence. }
    destruct ((0 <? runner.Timeout cfg) && (runner.Timeout cfg <=? runner.now w - startTime)).
    { intros [= <- <-]. exists 0%nat. simpl. repeat split; auto; try lia; congruence. }
    destruct (runner.cancelled w) eqn:Hcancel.
    { intros [= <- <-]. exists 0%nat. simpl. repeat split; auto; try lia; congruence. }
    destruct (runner.mkdir_error env i) as [err|] eqn:Hmkdir.
    { intros [= <- <-]. exists 0%nat. simpl. repeat split; auto; try lia; congruence. }
    set (w1 := runner.log _ _).
    destruct (runner.executeRun env cfg adapter _ i w1) as [r1 w2] eqn:Hexec.
    intros Hloop. apply IH in Hloop as (k & Hdirs & Hwarn & Hrem & Hcanc & Hr).
    pose proof (executeRun_world env cfg adapter
                  (filepath_Join runsDir (GoStrings.format_03d i)) i w1) as (Hev2 & Hd2 & Hw2).
    pose proof (executeRun_cancelled env cfg adapter
                  (filepath_Join runsDir (GoStrings.format_03d i)) i w1) as Hc2.
    rewrite Hexec in Hev2, Hd2, Hw2, Hc2. simpl in Hev2, Hd2, Hw2, Hc2.
    exists (S k). split; [|split; [|split; [|split]]].
    + rewrite Hdirs, Hd2. reflexivity.
    + rewrite Hwarn, Hw2. reflexivity.
    + rewrite Hrem, Hev2. unfold w1, removed_dirs. simpl. rewrite omap_app. simpl.
      apply app_nil_r.
    + intros Hc. right. destruct (Hcanc Hc) as [Hc'|(j & Hj & Hint)].
      * destruct (Hc2 Hc') as [Hc1|Hint]; [simpl in Hc1; congruence|].
        exists i. split; [left|assumption].
      * exists j. split; [right; assumption|assumption].
    + destruct r as [runResults|]; [|exact I]. rewrite Hr, length_app. simpl. lia.
Qed.

(** [Run] once the configuration is found valid and the output tree
    prepared. *)
Lemma Run_unfold env cfg adapter w :
  0 < runner.Runs cfg -> runner.Command cfg <> [] -> runner.Adapter_ cfg = Some adapter ->
  runner.clean_error env = None -> runner.mkruns_error env = None ->
  let runsDir := filepath_Join (filepath_Join (runner.OutDir cfg) "latest") "runs" in
  let w0 := runner.mkWorld (runner.now w) (runner.cancelled w) [] (runner.warnings w)
              (runner.events w) in
  runner.Run env cfg w =
  match runner.run_loop (Z.to_nat (runner.Runs cfg)) env cfg adapter runsDir (runner.now w)
          1 [] w0 with
  | (Err err, w1) => (Err err, w1)
  | (Ok runResults, w1) =>
      (Ok (runner.mkResult runResults (Z.of_nat (length runResults))
             (filepath_Join (runner.OutDir cfg) "latest")),
       if (0 <? runner.KeepRuns cfg) && (runner.KeepRuns cfg <? Z.of_nat (length runResults))
       then
         match runner.cleanupOldRuns env runsDir (runner.KeepRuns cfg) w1 with
         | (Some err, w2) =>
             runner.mkWorld (runner.now w2) (runner.cancelled w2) (runner.dirs w2)
               (runner.warnings w2 ++ [("warning: failed to cleanup old runs: " ++ err)%string])
               (runner.events w2)
         | (None, w2) => w2
         end
       else w1)
  end.
Proof.
  intros Hruns Hcmd Hadapter Hclean Hmk runsDir w0. unfold runner.Run.
  destruct (Z.leb_spec (runner.Runs cfg) 0) as [?|_]; [lia|].
  destruct (runner.Command cfg) as [|c cmd] eqn:Hc; [congruence|].
  rewrite Hadapter, Hclean, Hmk. fold runsDir. fold w0. simpl.
  destruct (runner.run_loop _ env cfg adapter runsDir (runner.now w) 1 [] w0) as [[rs|err] w1];
    reflexivity.
Qed.

(** X12.  With no positive number of runs, an empty command or no adapter,
    [Run] returns an error and touches nothing.  When [Run] returns an
    error, the configuration is invalid in one of these ways, or the output
    directory could not be cleaned or created, or the directory of some run
    could not be created: what happens inside a run never makes [Run]
    fail. *)
Theorem run_fails_only_on_configuration_or_directories env cfg w :
  let r := (runner.Run env cfg w).1 in
  ((runner.Runs cfg <= 0 \/ runner.Command cfg = [] \/ runner.Adapter_ cfg = None) ->
   is_ok r = false /\ (runner.Run env cfg w).2 = w) /\
  (is_ok r = false ->
   runner.Runs cfg <= 0 \/ runner.Command cfg = [] \/ runner.Adapter_ cfg = None \/
   runner.clean_error env <> None \/ runner.mkruns_error env <> None \/
   exists j, 1 <= j <= runner.Runs cfg /\ runner.mkdir_error env j <> None).
Proof.
  intros r. split.
  - unfold r, runner.Run. intros Hbad.
    destruct (Z.leb_spec (runner.Runs cfg) 0) as [Hle|Hgt]; [split; reflexivity|].
    destruct (runner.Command cfg) as [|c cmd]; [split; reflexivity|].
    destruct (runner.Adapter_ cfg) as [adapter|]; [|split; reflexivity].
    destruct Hbad as [H|[H|H]]; [lia|discriminate|discriminate].
  - intros Hfail.
    destruct (Z.leb_spec (runner.Runs cfg) 0) as [Hle|Hgt]; [auto|].
    destruct (runner.Command cfg) as [|c cmd] eqn:Hcmd; [auto|].
    destruct (runner.Adapter_ cfg) as [adapter|] eqn:Hadapter; [|auto].
    destruct (runner.clean_error env) as [e|] eqn:Hclean;
      [right; right; right; left; discriminate|].
    destruct (runner.mkruns_error env) as [e|] eqn:Hmk;
      [right; right; right; right; left; discriminate|].
    do 5 right.
    destruct (Run_spec env cfg adapter w Hgt ltac:(congruence) Hadapter Hclean Hmk)
      as (k & E & Hk & _ & _ & _ & _ & Hr).
    fold r in Hr. destruct r as [res|msg]; [discriminate|].
    destruct Hr as [Hle Hne]. exists (1 + Z.of_nat k). split; [lia|exact Hne].
Qed.

(** The same environment with other answers to the two calls of
    [cleanupOldRuns]. *)
Definition with_cleanup_errors (env : runner.Env) (readdir : option string)
    (remove : string -> option string) : runner.Env :=
  runner.mkEnv (runner.clean_error env) (runner.mkruns_error env) (runner.mkdir_error env)
    (runner.stdout_error env) (runner.stderr_error env) (runner.child_time env)
    (runner.interrupted env) (runner.artifact_missing env) (runner.parse env)
    readdir remove.

Lemma run_loop_with_cleanup_errors env readdir remove cfg adapter runsDir startTime fuel :
  forall i acc w,
    runner.run_loop fuel (with_cleanup_errors env readdir remove) cfg adapter runsDir
      startTime i acc w
    = runner.run_loop fuel env cfg adapter runsDir startTime i acc w.
Proof.
  induction fuel as [|fuel IH]; intros i acc w; [reflexivity|].
  cbn [runner.run_loop].
  destruct (negb (i <=? runner.Runs cfg)); [reflexivity|].
  destruct ((0 <? runner.Timeout cfg) && (runner.Timeout cfg <=? runner.now w - startTime));
    [reflexivity|].
  destruct (runner.cancelled w); [reflexivity|].
  change (runner.mkdir_error (with_cleanup_errors env readdir remove) i)
    with (runner.mkdir_error env i).
  destruct (runner.mkdir_error env i); [reflexivity|].
  change (runner.executeRun (with_cleanup_errors env readdir remove))
    with (runner.executeRun env).
  destruct (runner.executeRun env cfg adapter _ i _) as [r1 w2]. apply IH.
Qed.

Lemma remove_all_result env runsDir toRemove :
  forall w,
    let out := runner.remove_all env runsDir toRemove w in
    runner.warnings out.2 = runner.warnings w /\
    (out.1 <> None -> exists dir, runner.remove_error env dir <> None).
Proof.
  induction toRemove as [|dir rest IH]; intros w; simpl; [split; [reflexivity|congruence]|].
  destruct (runner.remove_error env dir) as [e|] eqn:He; simpl.
  - split; [reflexivity|]. intros _. exists dir. congruence.
  - specialize (IH (runner.mkWorld (runner.now w) (runner.cancelled w)
                      (List.filter (fun d => negb (d =? dir)%string) (runner.dirs w))
                      (runner.warnings w) (runner.events w ++ [runner.Removed dir]))).
    exact IH.
Qed.

Lemma cleanupOldRuns_result env runsDir keepRuns w :
  let out := runner.cleanupOldRuns env runsDir keepRuns w in
  runner.warnings out.2 = runner.warnings w /\
  (out.1 <> None ->
   runner.readdir_error env <> None \/ exists dir, runner.remove_error env dir <> None).
Proof.
  unfold runner.cleanupOldRuns.
  destruct (runner.readdir_error env) as [e|]; simpl.
  { split; [reflexivity|]. intros _. left. discriminate. }
  destruct (keepRuns <? _).
  - destruct (remove_all_result env runsDir
                (firstn (length (GoSort.Strings (GoSort.Strings (runner.dirs w)))
                         - Z.to_nat keepRuns)
                   (GoSort.Strings (GoSort.Strings (runner.dirs w)))) w) as [Hw Hr].
    split; [exact Hw|]. intros H. right. apply Hr, H.
  - simpl. split; [reflexivity|congruence].
Qed.

(** X13.  What [Run] returns and the runs it starts do not depend on
    whether the cleanup of old run directories succeeds.  A session writes
    no warning, or exactly one, and then a cleanup was due and reading the
    directory or removing an entry failed.  With [KeepRuns] not positive
    nothing is removed and no warning is written. *)
Theorem cleanup_never_fails_the_session env cfg w readdir remove :
  let session := runner.Run env cfg w in
  let session' := runner.Run (with_cleanup_errors env readdir remove) cfg w in
  session'.1 = session.1 /\
  started_runs (runner.events session'.2) = started_runs (runner.events session.2) /\
  (runner.warnings session.2 = runner.warnings w \/
   exists err,
     runner.warnings session.2
     = (runner.warnings w ++ [("warning: failed to cleanup old runs: " ++ err)%string])%list /\
     0 < runner.KeepRuns cfg /\
     (runner.readdir_error env <> None \/ exists dir, runner.remove_error env dir <> None)) /\
  (runner.KeepRuns cfg <= 0 ->
   removed_dirs (runner.events session.2) = removed_dirs (runner.events w) /\
   runner.warnings session.2 = runner.warnings w).
Proof.
  intros session session'. unfold session, session'. clear session session'.
  set (env' := with_cleanup_errors env readdir remove).
  destruct (Z.leb_spec (runner.Runs cfg) 0) as [Hle|Hgt].
  { unfold runner.Run. destruct (Z.leb_spec (runner.Runs cfg) 0) as [_|?]; [|lia].
    simpl. repeat split; auto. }
  destruct (runner.Command cfg) as [|c cmd] eqn:Hcmd.
  { unfold runner.Run. destruct (Z.leb_spec (runner.Runs cfg) 0) as [?|_]; [lia|].
    rewrite Hcmd. simpl. repeat split; auto. }
  destruct (runner.Adapter_ cfg) as [adapter|] eqn:Hadapter.
  2: { unfold runner.Run. destruct (Z.leb_spec (runner.Runs cfg) 0) as [?|_]; [lia|].
       rewrite Hcmd, Hadapter. simpl. repeat split; auto. }
  destruct (runner.clean_error env) as [e|] eqn:Hclean.
  { unfold runner.Run. destruct (Z.leb_spec (runner.Runs cfg) 0) as [?|_]; [lia|].
    rewrite Hcmd, Hadapter.
    change (runner.clean_error env') with (runner.clean_error env). rewrite Hclean.
    simpl. repeat split; auto. }
  destruct (runner.mkruns_error env) as [e|] eqn:Hmk.
  { unfold runner.Run. destruct (Z.leb_spec (runner.Runs cfg) 0) as [?|_]; [lia|].
    rewrite Hcmd, Hadapter.
    change (runner.clean_error env') with (runner.clean_error env).
    change (runner.mkruns_error env') with (runner.mkruns_error env). rewrite Hclean, Hmk.
    simpl. repeat split; auto. }
  rewrite (Run_unfold env cfg adapter w) by (assumption || congruence).
  rewrite (Run_unfold env' cfg adapter w) by (assumption || congruence).
  unfold env'. rewrite run_loop_with_cleanup_errors. fold env'.
  set (runsDir := filepath_Join (filepath_Join (runner.OutDir cfg) "latest") "runs").
  set (w0 := runner.mkWorld (runner.now w) (runner.cancelled w) [] (runner.warnings w)
               (runner.events w)).
  destruct (runner.run_loop _ env cfg adapter runsDir (runner.now w) 1 [] w0)
    as [[rs|err] w1] eqn:Hloop.
  2: { apply run_loop_world in Hloop as (k & _ & Hwarn & Hrem & _).
       simpl. repeat split; auto. }
  apply run_loop_world in Hloop as (k & _ & Hwarn & Hrem & _). simpl in Hwarn, Hrem.
  cbn [fst snd]. split; [reflexivity|].
  assert (Hstarted : forall env0 : runner.Env,
            started_runs
              (runner.events
                 (if (0 <? runner.KeepRuns cfg)
                     && (runner.KeepRuns cfg <? Z.of_nat (length rs))
                  then
                    match runner.cleanupOldRuns env0 runsDir (runner.KeepRuns cfg) w1 with
                    | (Some err, w2) =>
                        runner.mkWorld (runner.now w2) (runner.cancelled w2) (runner.dirs w2)
                          (runner.warnings w2
                           ++ [("warning: failed to cleanup old runs: " ++ err)%string])
                          (runner.events w2)
                    | (None, w2) => w2
                    end
                  else w1))
            = started_runs (runner.events w1)).
  { intros env0. destruct (_ && _); [|reflexivity].
    pose proof (cleanupOldRuns_world env0 runsDir (runner.KeepRuns cfg) w1)
      as (_ & _ & removed & Hev).
    destruct (runner.cleanupOldRuns env0 runsDir (runner.KeepRuns cfg) w1) as [[err|] w2];
      simpl in *; rewrite Hev, started_runs_app, started_runs_Removed; apply app_nil_r. }
  split; [rewrite !Hstarted; reflexivity|].
  destruct (Z.ltb_spec 0 (runner.KeepRuns cfg)) as [Hkeep|Hkeep]; simpl.
  2: { split; [left; exact Hwarn|]. intros _. split; [exact Hrem|exact Hwarn]. }
  split; [|lia].
  destruct (runner.KeepRuns cfg <? Z.of_nat (length rs)); [|left; exact Hwarn].
  pose proof (cleanupOldRuns_result env runsDir (runner.KeepRuns cfg) w1) as [Hw2 Hcause].
  destruct (runner.cleanupOldRuns env runsDir (runner.KeepRuns cfg) w1) as [[err|] w2];
    simpl in *.
  - right. exists err. rewrite Hw2, Hwarn. split; [reflexivity|]. split; [exact Hkeep|].
    apply Hcause. discriminate.
  - left. rewrite Hw2. exact Hwarn.
Qed.

(** X14.  With a valid configuration, no timeout, no cancellation before
    or during the session, and directories that can be created, [Run]
    executes all the configured runs: the result holds the records of the
    runs [1] to [Runs], in this order. *)
Theorem session_runs_to_completion env cfg adapter w :
  0 < runner.Runs cfg -> runner.Command cfg <> [] -> runner.Adapter_ cfg = Some adapter ->
  runner.clean_error env = None -> runner.mkruns_error env = None ->
  (forall j, 1 <= j <= runner.Runs cfg -> runner.mkdir_error env j = None) ->
  runner.Timeout cfg <= 0 -> runner.cancelled w = false ->
  (forall j, 1 <= j <= runner.Runs cfg -> runner.interrupted env j = false) ->
  exists res,
    (runner.Run env cfg w).1 = Ok res /\
    runner.RunsExecuted res = runner.Runs cfg /\
    map RunResult.RunIndex (runner.RunResults res) = Zseq 1 (Z.to_nat (runner.Runs cfg)) /\
    started_runs (runner.events (runner.Run env cfg w).2)
    = (started_runs (runner.events w) ++ Zseq 1 (Z.to_nat (runner.Runs cfg)))%list.
Proof.
  intros Hruns Hcmd Hadapter Hclean Hmk Hmkdir Htimeout Hcancel Hint.
  destruct (Run_spec env cfg adapter w Hruns Hcmd Hadapter Hclean Hmk)
    as (k & E & Hk & Hev & Hst & _ & _ & Hr).
  pose proof (Run_unfold env cfg adapter w Hruns Hcmd Hadapter Hclean Hmk) as Hrun.
  simpl in Hrun.
  set (runsDir := filepath_Join (filepath_Join (runner.OutDir cfg) "latest") "runs") in *.
  set (w0 := runner.mkWorld (runner.now w) (runner.cancelled w) [] (runner.warnings w)
               (runner.events w)) in *.
  destruct (runner.run_loop _ env cfg adapter runsDir (runner.now w) 1 [] w0)
    as [[rs|err] w1] eqn:Hloop.
  2: { rewrite Hrun in Hr. simpl in Hr. destruct Hr as [Hle Hne].
       exfalso. apply Hne, Hmkdir. lia. }
  apply run_loop_world in Hloop as (k' & _ & _ & _ & Hcanc & Hlen). simpl in Hlen, Hcanc.
  rewrite Hrun in Hr, Hev |- *. cbn [fst snd] in Hr, Hev |- *.
  destruct Hr as (Hrs & _ & Hstop). cbn [runner.RunResults] in Hrs.
  assert (Hkk : k' = k) by (rewrite Hrs, length_map, Zseq_length in Hlen; lia).
  subst k'.
  assert (Hall : Z.of_nat k = runner.Runs cfg).
  { destruct Hstop as [H|Hstop]; [exact H|]. exfalso.
    unfold stop_requested in Hstop.
    replace (0 <? runner.Timeout cfg) with false in Hstop by (symmetry; apply Z.ltb_ge; lia).
    simpl in Hstop.
    assert (Hc1 : runner.cancelled w1 = true).
    { destruct (_ && _) in Hstop; [|exact Hstop].
      pose proof (cleanupOldRuns_world env runsDir (runner.KeepRuns cfg) w1) as (_ & Hc & _).
      destruct (runner.cleanupOldRuns env runsDir (runner.KeepRuns cfg) w1) as [[err|] w2];
        simpl in *; congruence. }
    destruct (Hcanc Hc1) as [Hc|(j & Hj & Hi)]; [congruence|].
    apply Zseq_elem in Hj. rewrite Hint in Hi by lia. discriminate. }
  eexists. split; [reflexivity|]. cbn [runner.RunsExecuted runner.RunResults].
  replace (Z.to_nat (runner.Runs cfg)) with k by lia.
  split; [rewrite Hrs, length_map, Zseq_length; exact Hall|].
  split; [rewrite Hrs; apply map_recorded_RunIndex|].
  rewrite Hev, started_runs_app, Hst. reflexivity.
Qed.

Lemma session_runs_to_completion_witness :
  exists res,
    (runner.Run runner_test.quiet (runner_test.config 3 0 0) runner_test.start).1 = Ok res /\
    runner.RunsExecuted res = 3 /\
    map RunResult.RunIndex (runner.RunResults res) = [1; 2; 3] /\
    started_runs
      (runner.events
         (runner.Run runner_test.quiet (runner_test.config 3 0 0) runner_test.start).2)
    = [1; 2; 3].
Proof.
  apply (session_runs_to_completion runner_test.quiet (runner_test.config 3 0 0)
           runner_test.adapter runner_test.start);
    [ reflexivity | discriminate | reflexivity | reflexivity | reflexivity
    | intros j _; reflexivity | simpl; lia | reflexivity | intros j _; reflexivity ].
Defined.

(** ** Retention below a thousand runs *)

(** The names of the directories of the runs [1] to [k]. *)
Definition run_names (k : nat) : list string := map GoStrings.format_03d (Zseq 1 k).

Fixpoint ascending_b (l : list string) : bool :=
  match l with
  | a :: (b :: _) as l' => GoStrings.lt a b && ascending_b l'
  | _ => true
  end.

Lemma ascending_b_spec l : ascending_b l = true -> ascending GoStrings.lt l.
Proof.
  intros H. apply Sorted_StronglySorted.
  - intros a b c. apply string_lt_trans.
  - induction l as [|a [|b l] IH]; [constructor|repeat constructor|].
    simpl in H. apply andb_true_iff in H as [Hab Hl].
    constructor; [apply IH, Hl|constructor; exact Hab].
Qed.

Lemma Zseq_app i k m : Zseq i (k + m) = (Zseq i k ++ Zseq (i + Z.of_nat k) m)%list.
Proof.
  revert i. induction k as [|k IH]; intros i; simpl.
  - f_equal. lia.
  - rewrite IH. do 3 f_equal. lia.
Qed.

(** Up to run 999 the names are in the order of the runs. *)
Lemma run_names_ascending k : (k <= 999)%nat -> ascending GoStrings.lt (run_names k).
Proof.
  intros Hk.
  assert (H : ascending GoStrings.lt (run_names 999))
    by (apply ascending_b_spec; vm_compute; reflexivity).
  replace 999%nat with (k + (999 - k))%nat in H by lia.
  unfold run_names in *. rewrite Zseq_app, map_app in H.
  eapply StronglySorted_app_1_l. exact H.
Qed.

Lemma ascending_NoDup l : ascending GoStrings.lt l -> NoDup l.
Proof.
  induction 1 as [|a l Hs IH Ha]; constructor; [|exact IH].
  intros Hin. rewrite Forall_forall in Ha. specialize (Ha a Hin).
  rewrite string_lt_irrefl in Ha. discriminate.
Qed.

(** Sorting a list that is in order changes nothing. *)
Lemma Strings_ascending l : ascending GoStrings.lt l -> GoSort.Strings l = l.
Proof.
  intros Hl. unfold GoSort.Strings.
  pose proof (string_lt_strict_total (fun _ => True)) as Hsto.
  assert (Hall : forall l : list string, Forall (fun _ => True) l)
    by (intros l0; apply Forall_forall; auto).
  apply (ascending_unique GoStrings.lt _ Hsto); [apply Hall|apply Slice_Permutation| |exact Hl].
  apply (Slice_ascending GoStrings.lt _ Hsto); [apply Hall|apply ascending_NoDup, Hl].
Qed.

Lemma add_dirs_fresh names :
  forall ds, NoDup (ds ++ names) ->
  forall js, names = map GoStrings.format_03d js ->
  fold_left add_dir js ds = (ds ++ names)%list.
Proof.
  intros ds Hnd js. revert ds names Hnd.
  induction js as [|j js IH]; intros ds names Hnd ->; simpl; [symmetry; apply app_nil_r|].
  unfold add_dir at 2. simpl in Hnd.
  rewrite bool_decide_false.
  - rewrite (IH _ (map GoStrings.format_03d js)); [|rewrite <- app_assoc; exact Hnd|reflexivity].
    rewrite <- app_assoc. reflexivity.
  - apply NoDup_app in Hnd as (_ & Hdisj & _). intros Hin. apply (Hdisj _ Hin). left.
Qed.

(** Removing the first directories of a list without duplicates. *)
Lemma remove_all_ok env runsDir toRemove :
  (forall dir, runner.remove_error env dir = None) ->
  forall w rest,
    runner.dirs w = (toRemove ++ rest)%list -> NoDup (toRemove ++ rest) ->
    runner.remove_all env runsDir toRemove w
    = (None, runner.mkWorld (runner.now w) (runner.cancelled w) rest (runner.warnings w)
               (runner.events w ++ map runner.Removed toRemove)).
Proof.
  intros Hok. induction toRemove as [|dir toRemove IH]; intros w rest Hdirs Hnd; simpl.
  - rewrite app_nil_r. simpl in Hdirs. rewrite <- Hdirs. destruct w; reflexivity.
  - rewrite Hok. simpl in Hdirs, Hnd. apply NoDup_cons in Hnd as [Hnin Hnd].
    rewrite (IH _ rest); [simpl; rewrite <- app_assoc; reflexivity| |exact Hnd].
    simpl. rewrite Hdirs. simpl. rewrite String.eqb_refl. simpl.
    apply forallb_filter_id. apply forallb_forall. intros d Hd.
    apply negb_true_iff, String.eqb_neq. intros ->. apply Hnin, list_elem_of_In, Hd.
Qed.

(** X15.  In a session of at most 999 runs in which the file system does
    not fail, with [KeepRuns] positive, the directories left are those of
    the last [KeepRuns] runs executed (all of them when there are no more
    than [KeepRuns]); the directories of the runs before them are removed,
    oldest first, and no warning is written. *)
Theorem cleanup_keeps_the_newest_runs env cfg adapter w :
  0 < runner.Runs cfg <= 999 ->
  runner.Command cfg <> [] -> runner.Adapter_ cfg = Some adapter ->
  runner.clean_error env = None -> runner.mkruns_error env = None ->
  (forall j, runner.mkdir_error env j = None) ->
  runner.readdir_error env = None -> (forall dir, runner.remove_error env dir = None) ->
  0 < runner.KeepRuns cfg ->
  exists res,
    (runner.Run env cfg w).1 = Ok res /\
    let k := length (runner.RunResults res) in
    let n := (k - Z.to_nat (runner.KeepRuns cfg))%nat in
    runner.dirs (runner.Run env cfg w).2
    = map GoStrings.format_03d (Zseq (1 + Z.of_nat n) (k - n)) /\
    removed_dirs (runner.events (runner.Run env cfg w).2)
    = (removed_dirs (runner.events w) ++ map GoStrings.format_03d (Zseq 1 n))%list /\
    runner.warnings (runner.Run env cfg w).2 = runner.warnings w.
Proof.
  intros Hruns Hcmd Hadapter Hclean Hmk Hmkdir Hreaddir Hremove Hkeep.
  destruct (Run_spec env cfg adapter w ltac:(lia) Hcmd Hadapter Hclean Hmk)
    as (k & E & Hk & _ & _ & _ & _ & Hr).
  pose proof (Run_unfold env cfg adapter w ltac:(lia) Hcmd Hadapter Hclean Hmk) as Hrun.
  simpl in Hrun.
  set (runsDir := filepath_Join (filepath_Join (runner.OutDir cfg) "latest") "runs") in *.
  set (w0 := runner.mkWorld (runner.now w) (runner.cancelled w) [] (runner.warnings w)
               (runner.events w)) in *.
  destruct (runner.run_loop _ env cfg adapter runsDir (runner.now w) 1 [] w0)
    as [[rs|err] w1] eqn:Hloop.
  2: { rewrite Hrun in Hr. simpl in Hr. destruct Hr as [_ Hne]. exfalso. apply Hne, Hmkdir. }
  apply run_loop_world in Hloop as (k' & Hdirs & Hwarn & Hrem & _ & Hlen).
  simpl in Hlen, Hdirs, Hwarn, Hrem.
  rewrite Hrun in Hr |- *. cbn [fst snd] in Hr |- *.
  destruct Hr as (Hrs & _ & _). cbn [runner.RunResults] in Hrs.
  assert (Hkk : k' = k) by (rewrite Hrs, length_map, Zseq_length in Hlen; lia).
  rewrite Hkk in Hdirs, Hlen. clear Hkk k'.
  assert (Hlen' : length rs = k) by lia. clear Hlen.
  pose proof (run_names_ascending k ltac:(lia)) as Hasc.
  pose proof (ascending_NoDup _ Hasc) as Hnd.
  rewrite (add_dirs_fresh (run_names k) [] Hnd (Zseq 1 k) eq_refl) in Hdirs.
  simpl in Hdirs.
  eexists. split; [reflexivity|]. cbn [runner.RunResults]. rewrite Hlen'.
  set (n := (k - Z.to_nat (runner.KeepRuns cfg))%nat).
  replace (0 <? runner.KeepRuns cfg) with true by (symmetry; apply Z.ltb_lt; lia).
  simpl.
  destruct (Z.ltb_spec (runner.KeepRuns cfg) (Z.of_nat k)) as [Hlt|Hge].
  - unfold runner.cleanupOldRuns. rewrite Hreaddir, Hdirs.
    rewrite !(Strings_ascending _ Hasc).
    assert (Hlenk : length (run_names k) = k)
      by (unfold run_names; rewrite length_map, Zseq_length; reflexivity).
    rewrite !Hlenk.
    replace (runner.KeepRuns cfg <? Z.of_nat k) with true by (symmetry; apply Z.ltb_lt; lia).
    fold n.
    assert (Hsplit : run_names k
                     = (map GoStrings.format_03d (Zseq 1 n)
                        ++ map GoStrings.format_03d (Zseq (1 + Z.of_nat n) (k - n)))%list).
    { unfold run_names. replace k with (n + (k - n))%nat at 1 by lia.
      rewrite Zseq_app, map_app. reflexivity. }
    assert (Hfirst : firstn n (run_names k) = map GoStrings.format_03d (Zseq 1 n)).
    { rewrite Hsplit. rewrite firstn_app.
      rewrite firstn_all2 by (rewrite length_map, Zseq_length; lia).
      rewrite length_map, Zseq_length, Nat.sub_diag. simpl. apply app_nil_r. }
    rewrite Hfirst.
    rewrite (remove_all_ok env runsDir _ Hremove w1
               (map GoStrings.format_03d (Zseq (1 + Z.of_nat n) (k - n))));
      [|rewrite Hdirs; exact Hsplit|rewrite <- Hsplit; exact Hnd].
    simpl. split; [reflexivity|]. split; [|exact Hwarn].
    unfold removed_dirs in *. rewrite omap_app, Hrem. f_equal.
    generalize (map GoStrings.format_03d (Zseq 1 n)). intros l.
    induction l as [|d l IH]; simpl; [reflexivity|]. f_equal. exact IH.
  - assert (Hn : n = 0%nat) by (unfold n; lia). rewrite Hn. simpl.
    rewrite Nat.sub_0_r, app_nil_r. split; [exact Hdirs|]. split; [exact Hrem|exact Hwarn].
Qed.

Lemma cleanup_keeps_the_newest_runs_witness :
  let session := runner.Run runner_test.quiet (runner_test.config 5 0 2) runner_test.start in
  exists res,
    session.1 = Ok res /\
    let k := length (runner.RunResults res) in
    let n := (k - Z.to_nat 2)%nat in
    runner.dirs session.2 = map GoStrings.format_03d (Zseq (1 + Z.of_nat n) (k - n)) /\
    removed_dirs (runner.events session.2)
    = ([] ++ map GoStrings.format_03d (Zseq 1 n))%list /\
    runner.warnings session.2 = [].
Proof.
  apply (cleanup_keeps_the_newest_runs runner_test.quiet (runner_test.config 5 0 2)
           runner_test.adapter runner_test.start);
    [ simpl; lia | discriminate | reflexivity | reflexivity | reflexivity
    | intros j; reflexivity | reflexivity | intros dir; reflexivity | simpl; lia ].
Defined.

(** ** The cypress adapter: [Parse] *)

(** The identity and the result [Parse] builds for a test case. *)
Definition case_id (tc : cypress.JUnitTestCase.t) : string :=
  cypress.buildTestID (cypress.JUnitTestCase.Classname tc) (cypress.JUnitTestCase.Name tc).

Definition case_result (tc : cypress.JUnitTestCase.t) : TestResult.t :=
  TestResult.mk (case_id tc) (cypress.determineOutcome tc)
    (GoFloat.to_int64 (cypress.JUnitTestCase.Time tc * cypress.second)%float)
    match cypress.JUnitTestCase.Failure tc, cypress.JUnitTestCase.Error tc with
    | Some f, _ =>
        cypress.extractFailureMessage (cypress.JUnitFailure.Message f)
          (cypress.JUnitFailure.Content f)
    | None, Some e =>
        cypress.extractFailureMessage (cypress.JUnitError.Message e)
          (cypress.JUnitError.Content e)
    | None, None => ""%string
    end.

(** The last test case of [cases] with identity [id]. *)
Definition last_case (id : string) (cases : list cypress.JUnitTestCase.t)
  : option cypress.JUnitTestCase.t :=
  last (filter (fun tc => case_id tc = id) cases).

Definition keep_case (testMap : gmap string TestResult.t) (tc : cypress.JUnitTestCase.t)
  : gmap string TestResult.t :=
  <[case_id tc := case_result tc]> testMap.

Lemma record_case_spec xmlFile tc testMap :
  cypress.record_case xmlFile tc testMap =
  if (case_id tc =? "")%string
  then Err ("invalid test case in " ++ xmlFile
            ++ ": missing classname or name attribute")%string
  else Ok (keep_case testMap tc).
Proof. reflexivity. Qed.

Lemma record_cases_spec xmlFile cases :
  forall testMap testMap',
    cypress.record_cases xmlFile cases testMap = Ok testMap' ->
    Forall (fun tc => case_id tc <> ""%string) cases /\
    testMap' = fold_left keep_case cases testMap.
Proof.
  induction cases as [|tc cases IH]; intros testMap testMap'; simpl.
  - intros [= <-]. split; [constructor|reflexivity].
  - rewrite record_case_spec. destruct (String.eqb_spec (case_id tc) "") as [|Hne];
      [discriminate|].
    intros H. apply IH in H as [Hall ->]. split; [constructor; assumption|reflexivity].
Qed.

Lemma record_files_spec read xmlFiles :
  forall testMap testMap',
    cypress.record_files read xmlFiles testMap = Ok testMap' ->
    exists cases_of_file,
      Forall2 (fun xmlFile cases => cypress.parseXMLFile read xmlFile = Ok cases)
        xmlFiles cases_of_file /\
      Forall (fun tc => case_id tc <> ""%string) (concat cases_of_file) /\
      testMap' = fold_left keep_case (concat cases_of_file) testMap.
Proof.
  induction xmlFiles as [|xmlFile rest IH]; intros testMap testMap'; simpl.
  - intros [= <-]. exists []. split; [constructor|]. split; [constructor|reflexivity].
  - destruct (cypress.parseXMLFile read xmlFile) as [cases|e] eqn:Hparse; [|discriminate].
    destruct (cypress.record_cases xmlFile cases testMap) as [testMap1|e] eqn:Hcases;
      [|discriminate].
    apply record_cases_spec in Hcases as [Hvalid ->].
    intros H. apply IH in H as (css & Hfiles & Hvalid' & ->).
    exists (cases :: css). split; [constructor; assumption|]. simpl.
    split; [apply Forall_app; split; assumption|]. rewrite fold_left_app. reflexivity.
Qed.

(** The last occurrence wins. *)
Lemma keep_cases_lookup cases (testMap : gmap string TestResult.t) id :
  fold_left keep_case cases testMap !! id =
  match last_case id cases with
  | Some tc => Some (case_result tc)
  | None => testMap !! id
  end.
Proof.
  unfold last_case. induction cases as [|tc cases IH] using rev_ind; [reflexivity|].
  rewrite fold_left_app, filter_app, filter_cons, filter_nil. simpl. unfold keep_case at 1.
  case_decide as Hid.
  - subst id. rewrite lookup_insert_eq, last_snoc. reflexivity.
  - rewrite lookup_insert_ne by assumption. rewrite app_nil_r. exact IH.
Qed.

Lemma last_case_Some id cases tc :
  last_case id cases = Some tc -> case_id tc = id /\ tc ∈ cases.
Proof.
  unfold last_case. intros H. apply last_Some_elem_of in H.
  apply list_elem_of_filter in H. exact H.
Qed.

Lemma last_case_None id cases : last_case id cases = None <-> id ∉ map case_id cases.
Proof.
  unfold last_case. rewrite last_None. split.
  - intros Hnil (tc & -> & Hin)%list_elem_of_fmap.
    assert (Hin' : tc ∈ filter (fun tc' => case_id tc' = case_id tc) cases)
      by (apply list_elem_of_filter; auto).
    rewrite Hnil in Hin'. inversion Hin'.
  - intros Hnin. destruct (filter _ cases) as [|tc l] eqn:Hf; [reflexivity|].
    exfalso. apply Hnin.
    assert (Hin : tc ∈ filter (fun tc' => case_id tc' = id) cases) by (rewrite Hf; left).
    apply list_elem_of_filter in Hin as [<- Hin]. apply list_elem_of_fmap. eauto.
Qed.

(** X16.  When the cypress [Parse] succeeds, every file was parsed, in the
    order of the file names; the result lists each identity of a test case
    once, in ascending order of identity, and the result listed for an
    identity is that of the last test case with this identity; the run
    index and the error of the result are left at their zero values. *)
Theorem cypress_parse_last_occurrence_wins read runDir xmlFiles run :
  cypress.Parse read runDir (Ok xmlFiles) = Ok run ->
  exists cases_of_file,
    let cases := concat cases_of_file in
    Forall2 (fun xmlFile cases => cypress.parseXMLFile read xmlFile = Ok cases)
      (GoSort.Strings xmlFiles) cases_of_file /\
    ascending GoStrings.lt (map TestResult.TestID (RunResult.Tests run)) /\
    (forall id, id ∈ map TestResult.TestID (RunResult.Tests run) <-> id ∈ map case_id cases) /\
    Forall (fun t => exists tc,
                last_case (TestResult.TestID t) cases = Some tc /\ t = case_result tc)
      (RunResult.Tests run) /\
    RunResult.RunIndex run = 0 /\ RunResult.Error run = ""%string.
Proof.
  unfold cypress.Parse, cypress.Parse_in_order.
  destruct xmlFiles as [|f fs]; [discriminate|].
  set (xmlFiles := f :: fs).
  destruct (cypress.record_files read (GoSort.Strings xmlFiles) ∅) as [testMap|e] eqn:Hrec;
    [|discriminate].
  intros [= <-]. apply record_files_spec in Hrec as (css & Hfiles & Hvalid & HtestMap).
  exists css. cbn [RunResult.Tests RunResult.RunIndex RunResult.Error].
  split; [exact Hfiles|].
  set (cases := concat css) in *.
  assert (Hlookup : forall id, testMap !! id =
            match last_case id cases with
            | Some tc => Some (case_result tc)
            | None => None
            end).
  { intros id. rewrite HtestMap, keep_cases_lookup, lookup_empty. reflexivity. }
  assert (Hkey : forall id, id ∈ GoSort.Strings (cypress.map_keys testMap) ->
            exists tc, last_case id cases = Some tc /\
                       default cypress.zero_TestResult (testMap !! id) = case_result tc).
  { intros id Hin. unfold GoSort.Strings in Hin. rewrite Slice_elem_of in Hin.
    unfold cypress.map_keys in Hin. apply list_elem_of_fmap in Hin as ([id' t] & -> & Hin).
    apply elem_of_map_to_list in Hin. simpl. rewrite Hlookup in Hin |- *.
    destruct (last_case id' cases) as [tc|]; [|discriminate]. eauto. }
  assert (Hids : map TestResult.TestID
                   (map (fun id => default cypress.zero_TestResult (testMap !! id))
                      (GoSort.Strings (cypress.map_keys testMap)))
                 = GoSort.Strings (cypress.map_keys testMap)).
  { rewrite map_map. rewrite <- (map_id (GoSort.Strings (cypress.map_keys testMap))) at 2.
    apply map_ext_in. intros id Hin%list_elem_of_In.
    destruct (Hkey id Hin) as (tc & Hlast & ->). simpl.
    apply last_case_Some in Hlast as [Hid _]. exact Hid. }
  rewrite Hids.
  split; [|split; [|split; [|split; reflexivity]]].
  - apply (Slice_ascending GoStrings.lt _ (string_lt_strict_total (fun _ => True))).
    + apply Forall_forall. auto.
    + apply NoDup_fst_map_to_list.
  - intros id. unfold GoSort.Strings. rewrite Slice_elem_of. unfold cypress.map_keys.
    split.
    + intros ([id' t] & -> & Hin)%list_elem_of_fmap. apply elem_of_map_to_list in Hin.
      simpl. rewrite Hlookup in Hin.
      destruct (last_case id' cases) as [tc|] eqn:Hlast; [|discriminate].
      apply last_case_Some in Hlast as [<- Htc]. apply list_elem_of_fmap. eauto.
    + intros Hin. destruct (last_case id cases) as [tc|] eqn:Hlast.
      * apply list_elem_of_fmap. exists (id, case_result tc). split; [reflexivity|].
        apply elem_of_map_to_list. rewrite Hlookup, Hlast. reflexivity.
      * apply last_case_None in Hlast. contradiction.
  - apply Forall_forall. intros t (id & -> & Hin)%list_elem_of_fmap.
    destruct (Hkey id Hin) as (tc & Hlast & ->). exists tc. split; [|reflexivity].
    apply last_case_Some in Hlast as Hid. destruct Hid as [Hid _].
    simpl. rewrite Hid. exact Hlast.
Qed.

(** What [Parse] returns for the fixture [retries_multifile]. *)
Definition retries_run : RunResult.t :=
  Eval vm_compute in
    match cypress.Parse adapters_test.retries_multifile "run"
            (Ok ["run/002.xml"; "run/001.xml"]%string) with
    | Ok run => run
    | Err _ => RunResult.mk 0 [] ""
    end.

Lemma cypress_parse_last_occurrence_wins_witness :
  exists cases_of_file,
    let cases := concat cases_of_file in
    Forall2 (fun xmlFile cases =>
               cypress.parseXMLFile adapters_test.retries_multifile xmlFile = Ok cases)
      (GoSort.Strings ["run/002.xml"; "run/001.xml"]%string) cases_of_file /\
    ascending GoStrings.lt (map TestResult.TestID (RunResult.Tests retries_run)) /\
    (forall id, id ∈ map TestResult.TestID (RunResult.Tests retries_run)
                <-> id ∈ map case_id cases) /\
    Forall (fun t => exists tc,
                last_case (TestResult.TestID t) cases = Some tc /\ t = case_result tc)
      (RunResult.Tests retries_run) /\
    RunResult.RunIndex retries_run = 0 /\ RunResult.Error retries_run = ""%string.
Proof.
  apply (cypress_parse_last_occurrence_wins adapters_test.retries_multifile "run"
           ["run/002.xml"; "run/001.xml"]%string retries_run).
  vm_compute. reflexivity.
Defined.

(** X17.  The result of the cypress [Parse] depends neither on the order in
    which [filepath.Glob] lists the files nor on the order in which the map
    of results is read. *)
Theorem cypress_parse_is_reproducible read runDir xmlFiles xmlFiles' keys :
  NoDup xmlFiles -> Permutation xmlFiles xmlFiles' ->
  (forall testMap, Permutation (keys testMap) (cypress.map_keys testMap)) ->
  cypress.Parse_in_order read runDir (Ok xmlFiles') keys
  = cypress.Parse read runDir (Ok xmlFiles).
Proof.
  intros Hnd Hperm Hkeys.
  pose proof (string_lt_strict_total (fun _ => True)) as Hsto.
  assert (Hall : forall l : list string, Forall (fun _ => True) l)
    by (intros l; apply Forall_forall; auto).
  assert (Hsame : forall l l' : list string,
            NoDup l -> Permutation l l' -> GoSort.Strings l' = GoSort.Strings l).
  { intros l l' Hl Hp. unfold GoSort.Strings.
    apply (ascending_unique GoStrings.lt _ Hsto); [apply Hall| | |].
    - rewrite !Slice_Permutation. symmetry. exact Hp.
    - apply (Slice_ascending GoStrings.lt _ Hsto); [apply Hall|rewrite <- Hp; exact Hl].
    - apply (Slice_ascending GoStrings.lt _ Hsto); [apply Hall|exact Hl]. }
  unfold cypress.Parse, cypress.Parse_in_order.
  destruct xmlFiles as [|f fs], xmlFiles' as [|f' fs'];
    [reflexivity
    |apply Permutation_nil_l in Hperm; discriminate
    |apply Permutation_nil_r in Hperm; discriminate|].
  rewrite (Hsame (f :: fs) (f' :: fs') Hnd Hperm).
  destruct (cypress.record_files read (GoSort.Strings (f :: fs)) ∅) as [testMap|e];
    [|reflexivity].
  rewrite (Hsame (cypress.map_keys testMap) (keys testMap));
    [reflexivity|apply NoDup_fst_map_to_list|symmetry; apply Hkeys].
Qed.

Lemma cypress_parse_is_reproducible_witness :
  cypress.Parse_in_order adapters_test.retries_multifile "run"
    (Ok ["run/001.xml"; "run/002.xml"]%string) (fun testMap => rev (cypress.map_keys testMap))
  = cypress.Parse adapters_test.retries_multifile "run"
      (Ok ["run/002.xml"; "run/001.xml"]%string).
Proof.
  apply (cypress_parse_is_reproducible adapters_test.retries_multifile "run"
           ["run/002.xml"; "run/001.xml"]%string ["run/001.xml"; "run/002.xml"]%string).
  - apply (bool_decide_unpack (NoDup ["run/002.xml"; "run/001.xml"]%string)).
    vm_compute. exact I.
  - apply perm_swap.
  - intros testMap. symmetry. apply Permutation_rev.
Defined.

(** ** The jest adapter: [extractTests] and [Parse] *)

(** [sort.Slice] by a string key puts the keys in non-decreasing order. *)
Lemma insert_by_string_key {A} (key : A -> string) x l :
  StronglySorted (fun a b => GoStrings.lt (key b) (key a) = false) l ->
  StronglySorted (fun a b => GoStrings.lt (key b) (key a) = false)
    (GoSort.insert (fun a b => GoStrings.lt (key a) (key b)) x l).
Proof.
  intros Hs. induction Hs as [|y l Hs IH Hy]; simpl.
  - repeat constructor.
  - destruct (GoStrings.lt (key x) (key y)) eqn:Hxy.
    + assert (Hyx : GoStrings.lt (key y) (key x) = false).
      { destruct (GoStrings.lt (key y) (key x)) eqn:Hyx; [|reflexivity].
        pose proof (string_lt_trans _ _ _ Hxy Hyx) as Hxx.
        rewrite string_lt_irrefl in Hxx. discriminate. }
      constructor; [constructor; assumption|].
      constructor; [exact Hyx|].
      rewrite Forall_forall in Hy |- *. intros z Hz. specialize (Hy z Hz). simpl in Hy.
      destruct (GoStrings.lt (key z) (key x)) eqn:Hzx; [|reflexivity].
      rewrite (string_lt_trans _ _ _ Hzx Hxy) in Hy. discriminate.
    + constructor; [assumption|].
      rewrite Forall_forall in Hy |- *. intros z Hz.
      rewrite (insert_Permutation _ x l) in Hz.
      apply elem_of_cons in Hz as [->|Hz]; [assumption|]. apply Hy, Hz.
Qed.

Lemma Slice_by_string_key {A} (key : A -> string) l :
  StronglySorted (fun a b => GoStrings.lt (key b) (key a) = false)
    (GoSort.Slice (fun a b => GoStrings.lt (key a) (key b)) l).
Proof.
  unfold GoSort.Slice.
  assert (H : forall acc,
            StronglySorted (fun a b => GoStrings.lt (key b) (key a) = false) acc ->
            StronglySorted (fun a b => GoStrings.lt (key b) (key a) = false)
              (fold_left (fun acc x =>
                            GoSort.insert (fun a b => GoStrings.lt (key a) (key b)) x acc)
                 l acc)).
  { induction l as [|x l IH]; intros acc Hacc; simpl; [assumption|].
    apply IH, insert_by_string_key, Hacc. }
  apply H. constructor.
Qed.

(** The result [extractTests] builds for an assertion of the file [name]. *)
Definition jest_result (name : string) (assertion : jest.AssertionResult.t) : TestResult.t :=
  TestResult.mk
    (name ++ "::" ++ jest.AssertionResult.FullName assertion)%string
    match jest.mapStatus (jest.AssertionResult.Status assertion) with
    | Ok outcome => outcome
    | Err _ => OutcomePass
    end
    (GoInt.wrap64 (jest.AssertionResult.Duration assertion * jest.millisecond))
    match jest.AssertionResult.FailureMessages assertion with
    | [] => ""%string
    | msgs => GoStrings.Join msgs (String (ascii_of_N 10) "")
    end.

Definition jest_results (output : jest.JestOutput.t) : list TestResult.t :=
  concat (map (fun testResult =>
                 map (jest_result (jest.TestResult.Name testResult))
                   (jest.TestResult.AssertionResults testResult))
            (jest.JestOutput.TestResults output)).

(** What [extractTests] requires of the artifact. *)
Definition valid_assertion (assertion : jest.AssertionResult.t) : Prop :=
  jest.AssertionResult.FullName assertion <> ""%string /\
  is_ok (jest.mapStatus (jest.AssertionResult.Status assertion)) = true.

Definition valid_file (testResult : jest.TestResult.t) : Prop :=
  jest.TestResult.Name testResult <> ""%string /\
  Forall valid_assertion (jest.TestResult.AssertionResults testResult).

Lemma extract_assertions_spec artifactPath i name assertions :
  forall j tests,
    match jest.extract_assertions artifactPath i name j assertions tests with
    | inr tests' =>
        Forall valid_assertion assertions /\
        tests' = (tests ++ map (jest_result name) assertions)%list
    | inl e =>
        ~ Forall valid_assertion assertions /\ jest.ParseError.File e = artifactPath
    end.
Proof.
  induction assertions as [|a rest IH]; intros j tests; simpl.
  - split; [constructor|]. rewrite app_nil_r. reflexivity.
  - destruct (String.eqb_spec (jest.AssertionResult.FullName a) "") as [Hname|Hname].
    { split; [|reflexivity]. intros [[H _] _]%Forall_cons. contradiction. }
    destruct (String.eqb_spec (jest.AssertionResult.Status a) "") as [Hstatus|Hstatus].
    { split; [|reflexivity]. intros [[_ H] _]%Forall_cons. rewrite Hstatus in H.
      discriminate. }
    destruct (jest.mapStatus (jest.AssertionResult.Status a)) as [outcome|err] eqn:Hmap.
    2: { split; [|reflexivity]. intros [[_ H] _]%Forall_cons. rewrite Hmap in H.
         discriminate. }
    specialize (IH (j + 1)
                  (tests ++ [TestResult.mk
                               (name ++ "::" ++ jest.AssertionResult.FullName a)%string
                               outcome
                               (GoInt.wrap64 (jest.AssertionResult.Duration a * jest.millisecond))
                               match jest.AssertionResult.FailureMessages a with
                               | [] => ""%string
                               | _ :: _ =>
                                   GoStrings.Join (jest.AssertionResult.FailureMessages a)
                                     (String "010"%char "")
                               end])%list).
    destruct (jest.AssertionResult.FailureMessages a) as [|m ms] eqn:Hmsgs;
      (destruct (jest.extract_assertions artifactPath i name (j + 1) rest _) as [e|tests'];
       [destruct IH as [Hinv Hfile]; split; [|exact Hfile];
        intros [_ H]%Forall_cons; contradiction
       |destruct IH as [Hvalid ->]; split;
        [constructor; [split; [exact Hname|rewrite Hmap; reflexivity]|exact Hvalid]
        |rewrite <- app_assoc; simpl; unfold jest_result at 2; rewrite Hmap, Hmsgs;
         reflexivity]]).
Qed.

Lemma extract_files_spec artifactPath testResults :
  forall i tests,
    match jest.extract_files artifactPath i testResults tests with
    | inr tests' =>
        Forall valid_file testResults /\
        tests' = (tests ++ jest_results (jest.JestOutput.mk testResults))%list
    | inl e =>
        ~ Forall valid_file testResults /\ jest.ParseError.File e = artifactPath
    end.
Proof.
  unfold jest_results. simpl.
  induction testResults as [|f rest IH]; intros i tests; simpl.
  - split; [constructor|]. rewrite app_nil_r. reflexivity.
  - destruct (String.eqb_spec (jest.TestResult.Name f) "") as [Hname|Hname].
    { split; [|reflexivity]. intros [[H _] _]%Forall_cons. contradiction. }
    pose proof (extract_assertions_spec artifactPath i (jest.TestResult.Name f)
                  (jest.TestResult.AssertionResults f) 0 tests) as Ha.
    destruct (jest.extract_assertions artifactPath i (jest.TestResult.Name f) 0
                (jest.TestResult.AssertionResults f) tests) as [e|tests1].
    { destruct Ha as [Hinv Hfile]. split; [|exact Hfile].
      intros [[_ H] _]%Forall_cons. contradiction. }
    destruct Ha as [Hvalid ->].
    specialize (IH (i + 1)
                  (tests ++ map (jest_result (jest.TestResult.Name f))
                              (jest.TestResult.AssertionResults f))%list).
    destruct (jest.extract_files artifactPath (i + 1) rest _) as [e|tests'].
    + destruct IH as [Hinv Hfile]. split; [|exact Hfile].
      intros [_ H]%Forall_cons. contradiction.
    + destruct IH as [Hvalid' ->]. split; [constructor; [split|]; assumption|].
      rewrite <- app_assoc. reflexivity.
Qed.

(** X18.  For an artifact that decodes, the jest [Parse] succeeds exactly
    when the file is not empty, every test file has a name and every
    assertion has a full name and one of the six known statuses.  The result
    then holds one test result for each assertion (none is merged or
    dropped), in non-decreasing order of identity.  An error names the
    artifact of the run directory. *)
Theorem jest_parse_one_result_per_assertion size output runDir :
  match jest.Parse (jest.Readable size (Ok output)) runDir with
  | inr run =>
      size <> 0 /\
      Forall valid_file (jest.JestOutput.TestResults output) /\
      Permutation (RunResult.Tests run) (jest_results output) /\
      StronglySorted
        (fun a b => GoStrings.lt (TestResult.TestID b) (TestResult.TestID a) = false)
        (RunResult.Tests run) /\
      RunResult.RunIndex run = 0 /\ RunResult.Error run = ""%string
  | inl e =>
      (size = 0 \/ ~ Forall valid_file (jest.JestOutput.TestResults output)) /\
      jest.ParseError.File e = jest.ExpectedArtifact runDir
  end.
Proof.
  unfold jest.Parse, jest.ExpectedArtifact.
  destruct (Z.eqb_spec size 0) as [Hsize|Hsize]; [split; [left; exact Hsize|reflexivity]|].
  unfold jest.extractTests.
  pose proof (extract_files_spec (filepath_Join runDir jest.artifactFilename)
                (jest.JestOutput.TestResults output) 0 []) as H.
  destruct (jest.extract_files _ 0 (jest.JestOutput.TestResults output) []) as [e|tests].
  - destruct H as [Hinv Hfile]. split; [right; exact Hinv|exact Hfile].
  - destruct H as [Hvalid ->]. simpl. split; [exact Hsize|]. split; [exact Hvalid|].
    split; [|split; [|split; reflexivity]].
    + rewrite Slice_Permutation. destruct output. reflexivity.
    + apply (Slice_by_string_key TestResult.TestID).
Qed.

(** ** The cypress adapter: when [Parse] fails *)

Lemma record_cases_ok xmlFile cases :
  Forall (fun tc => case_id tc <> ""%string) cases ->
  forall testMap,
    cypress.record_cases xmlFile cases testMap = Ok (fold_left keep_case cases testMap).
Proof.
  induction 1 as [|tc cases Htc _ IH]; intros testMap; simpl; [reflexivity|].
  rewrite record_case_spec. destruct (String.eqb_spec (case_id tc) ""); [contradiction|].
  apply IH.
Qed.

(** A file [Parse] can use: it parses and every test case has an identity. *)
Definition usable_file (read : string -> cypress.xml_file) (xmlFile : string) : Prop :=
  exists cases,
    cypress.parseXMLFile read xmlFile = Ok cases /\
    Forall (fun tc => case_id tc <> ""%string) cases.

Lemma record_files_ok read xmlFiles :
  Forall (usable_file read) xmlFiles ->
  forall testMap, exists testMap', cypress.record_files read xmlFiles testMap = Ok testMap'.
Proof.
  induction 1 as [|f fs (cases & Hparse & Hvalid) _ IH]; intros testMap; simpl; [eauto|].
  rewrite Hparse, (record_cases_ok f cases Hvalid). apply IH.
Qed.

Lemma record_files_usable read xmlFiles :
  forall testMap testMap',
    cypress.record_files read xmlFiles testMap = Ok testMap' ->
    Forall (usable_file read) xmlFiles.
Proof.
  induction xmlFiles as [|f fs IH]; intros testMap testMap'; simpl; [constructor|].
  destruct (cypress.parseXMLFile read f) as [cases|e] eqn:Hparse; [|discriminate].
  destruct (cypress.record_cases f cases testMap) as [testMap1|e] eqn:Hcases; [|discriminate].
  apply record_cases_spec in Hcases as [Hvalid _].
  intros H. constructor; [exists cases; auto|]. eapply IH, H.
Qed.

(** X19.  The cypress [Parse] succeeds exactly when [filepath.Glob]
    succeeds and finds at least one file, every file found parses, and every
    test case of every file has a class name and a name: one file that
    cannot be used makes the whole run fail. *)
Theorem cypress_parse_needs_every_file read runDir glob :
  is_ok (cypress.Parse read runDir glob) = true <->
  exists xmlFiles,
    glob = Ok xmlFiles /\ xmlFiles <> [] /\ Forall (usable_file read) xmlFiles.
Proof.
  unfold cypress.Parse, cypress.Parse_in_order.
  destruct glob as [[|f fs]|err]; simpl.
  - split; [discriminate|]. intros (l & [= <-] & Hne & _). contradiction.
  - set (xmlFiles := f :: fs).
    assert (Hperm : Permutation (GoSort.Strings xmlFiles) xmlFiles)
      by apply Slice_Permutation.
    split.
    + destruct (cypress.record_files read (GoSort.Strings xmlFiles) ∅) as [testMap|e] eqn:Hrec;
        [|discriminate].
      intros _. exists xmlFiles. split; [reflexivity|]. split; [discriminate|].
      rewrite <- Hperm. eapply record_files_usable, Hrec.
    + intros (l & [= <-] & _ & Hall). fold xmlFiles in Hall. rewrite <- Hperm in Hall.
      destruct (record_files_ok read _ Hall ∅) as (testMap & ->). reflexivity.
  - split; [discriminate|]. intros (l & H & _). discriminate.
Qed.

(** A [<testsuites>] document whose suites hold no test case is accepted:
    the run then has no test result. *)
Example cypress_parse_of_empty_suites :
  cypress.Parse
    (fun _ => cypress.Readable 60 (Some [cypress.JUnitTestSuite.mk "empty" []]) None)
    "run" (Ok ["run/001.xml"]%string)
  = Ok (RunResult.mk 0 [] "").
Proof. vm_compute. reflexivity. Qed.

(** ** The commands the adapters build *)

Lemma hasExecutionMode_app l1 l2 :
  jest_command.hasExecutionMode (l1 ++ l2)
  = jest_command.hasExecutionMode l1 || jest_command.hasExecutionMode l2.
Proof.
  induction l1 as [|arg l1 IH]; [reflexivity|].
  cbn [app jest_command.hasExecutionMode].
  destruct (jest_command.matches_flag arg jest_command.executionModeFlags); [reflexivity|].
  exact IH.
Qed.

(** X20.  Both adapters return no command exactly for an empty command of
    the user; otherwise they keep the command and append their flags.  The
    cypress adapter appends the JUnit reporter with a file pattern in the
    run directory.  The jest adapter appends [--runInBand] unless the user
    chose an execution mode, then [--json] and [--outputFile] with the
    artifact the runner expects; the command it returns always carries an
    execution mode. *)
Theorem adapters_only_append_flags runDir userCmd :
  (jest_command.BuildCommand runDir userCmd = [] <-> userCmd = []) /\
  (cypress.BuildCommand runDir userCmd = [] <-> userCmd = []) /\
  cypress.BuildCommand runDir userCmd
  = match userCmd with
    | [] => []
    | _ :: _ =>
        (userCmd ++ ["--reporter"; "junit"; "--reporter-options";
                     ("mochaFile=" ++ cypress.ExpectedArtifact runDir ++ "/[hash].xml")%string])%list
    end /\
  (userCmd <> [] ->
   jest_command.BuildCommand runDir userCmd
   = (userCmd
      ++ (if jest_command.hasExecutionMode userCmd then [] else ["--runInBand"%string])
      ++ ["--json"; "--outputFile"; jest.ExpectedArtifact runDir]%string)%list /\
   jest_command.hasExecutionMode (jest_command.BuildCommand runDir userCmd) = true).
Proof.
  split; [|split; [|split]].
  - unfold jest_command.BuildCommand. destruct userCmd as [|c cmd]; [tauto|].
    split; [|discriminate].
    destruct (negb _); intros H; apply (f_equal (@length string)) in H;
      rewrite !length_app in H; simpl in H; lia.
  - unfold cypress.BuildCommand. destruct userCmd as [|c cmd]; [tauto|].
    split; [|discriminate]. intros H. apply (f_equal (@length string)) in H.
    rewrite !length_app in H. simpl in H. lia.
  - destruct userCmd; reflexivity.
  - intros Hne. unfold jest_command.BuildCommand. destruct userCmd as [|c cmd]; [contradiction|].
    set (userCmd := c :: cmd).
    destruct (jest_command.hasExecutionMode userCmd) eqn:Hmode; simpl negb; cbv iota.
    + split; [reflexivity|]. rewrite hasExecutionMode_app, Hmode. reflexivity.
    + split; [rewrite <- app_assoc; reflexivity|].
      rewrite !hasExecutionMode_app, Hmode. reflexivity.
Qed.
